(** * go-bold/bold, package migrations: schema builder and DDL rendering

    A shallow embedding of [migrations.go] (the dialect-neutral blueprint,
    the column builder and the foreign-key builder) and of the MySQL and
    PostgreSQL providers and renderers, followed by the properties proved
    about them.

    Go strings are byte sequences: they are embedded as [string] (a list of
    8-bit [ascii]).  Slices of strings are [list string]. *)

From Stdlib Require Import Bool Arith Lia List ZArith.
From Stdlib Require Import Ascii String DecimalString.
Import ListNotations.

Open Scope list_scope.
Open Scope string_scope.

(** ** The part of the Go standard library the package uses *)

Module strings.

(** [strings.Join(elems, sep)]. *)
Fixpoint Join (elems : list string) (sep : string) : string :=
  match elems with
  | [] => ""
  | [e] => e
  | e :: rest => e ++ sep ++ Join rest sep
  end.

(** [strings.HasPrefix(s, prefix)]. *)
Definition HasPrefix (s pre : string) : bool := String.prefix pre s.

(** [strings.Contains(s, substr)]: [substr] starts at some offset of [s]. *)
Fixpoint Contains (s substr : string) : bool :=
  String.prefix substr s
  || match s with
     | EmptyString => false
     | String _ s' => Contains s' substr
     end.

(** [strings.HasSuffix(s, suffix)]. *)
Definition HasSuffix (s suf : string) : bool :=
  (String.length suf <=? String.length s)%nat
  && String.eqb (String.substring (String.length s - String.length suf)
                                  (String.length suf) s) suf.

(** [strings.ReplaceAll(s, old, new)] for a non-empty [old]: the
    non-overlapping occurrences of [old] are replaced from the left.
    [skip] counts the bytes of a matched occurrence still to be dropped.
    (With an empty [old] Go inserts [new] around every rune; the package
    never does that, and this model then returns [s].) *)
Fixpoint replaceFrom (old new : string) (skip : nat) (s : string) : string :=
  match s with
  | EmptyString => EmptyString
  | String c s' =>
      match skip with
      | S k => replaceFrom old new k s'
      | O =>
          if String.prefix old s
          then new ++ replaceFrom old new (String.length old - 1) s'
          else String c (replaceFrom old new 0 s')
      end
  end.

Definition ReplaceAll (s old new : string) : string :=
  match old with
  | EmptyString => s
  | _ => replaceFrom old new 0 s
  end.

(** White space as [unicode.IsSpace] sees it in UTF-8 text: the six ASCII
    characters, U+0085, U+00A0, U+1680, U+2000..U+200A, U+2028, U+2029,
    U+202F, U+205F and U+3000.  [spaceWidth s] is the number of bytes of
    the white-space rune [s] starts with, and [0] when it starts with none.
    The first byte of each multi-byte encoding below is a UTF-8 lead byte,
    so it is found at a rune boundary exactly when it is found at a byte
    offset (Go steps one byte over whatever does not decode). *)
Local Open Scope nat_scope.

Definition spaceWidth (s : string) : nat :=
  match s with
  | EmptyString => 0
  | String c0 r0 =>
      let b0 := nat_of_ascii c0 in
      if ((9 <=? b0) && (b0 <=? 13)) || (b0 =? 32) then 1
      else
        match r0 with
        | EmptyString => 0
        | String c1 r1 =>
            let b1 := nat_of_ascii c1 in
            if (b0 =? 194) && ((b1 =? 133) || (b1 =? 160)) then 2
            else
              match r1 with
              | EmptyString => 0
              | String c2 _ =>
                  let b2 := nat_of_ascii c2 in
                  if (b0 =? 225) && (b1 =? 154) && (b2 =? 128) then 3
                  else if (b0 =? 226) && (b1 =? 128)
                          && (((128 <=? b2) && (b2 <=? 138))
                              || (b2 =? 168) || (b2 =? 169) || (b2 =? 175))
                  then 3
                  else if (b0 =? 226) && (b1 =? 129) && (b2 =? 159) then 3
                  else if (b0 =? 227) && (b1 =? 128) && (b2 =? 128) then 3
                  else 0
              end
        end
  end.

Local Close Scope nat_scope.

(** A field that is being read is closed when white space or the end of
    the text is met; an empty one is not a field. *)
Definition flush (cur : string) : list string :=
  match cur with
  | EmptyString => []
  | _ => [cur]
  end.

(** [strings.Fields(s)]: the maximal runs of bytes between white space.
    [skip] counts the remaining bytes of a white-space rune, [cur] is the
    field read so far. *)
Fixpoint fieldsFrom (skip : nat) (cur : string) (s : string) : list string :=
  match s with
  | EmptyString => flush cur
  | String c s' =>
      match skip with
      | S k => fieldsFrom k cur s'
      | O =>
          match spaceWidth s with
          | O => fieldsFrom 0 (cur ++ String c EmptyString) s'
          | S w => (flush cur ++ fieldsFrom w EmptyString s')%list
          end
      end
  end.

Definition Fields (s : string) : list string := fieldsFrom 0 EmptyString s.

End strings.

(** A value stored in the [interface{}] field [Column.Default].  What
    [fmt.Sprintf] prints for a [float64] under [%v], and for a value of any
    other dynamic type, is carried as text. *)
Inductive Value : Type :=
| VString (s : string)
| VInt (n : Z)
| VInt64 (n : Z)
| VFloat64 (text : string)
| VBool (b : bool)
| VOther (text : string).

Module fmt.

(** The verb [%d] on a Go [int]: decimal digits, a leading [-] when
    negative. *)
Definition d (n : Z) : string := NilZero.string_of_int (Z.to_int n).

(** The verb [%v] on such a value. *)
Definition v (x : Value) : string :=
  match x with
  | VString s => s
  | VInt n => d n
  | VInt64 n => d n
  | VFloat64 text => text
  | VBool true => "true"
  | VBool false => "false"
  | VOther text => text
  end.

End fmt.

(** ** Data model ([migrations.go]) *)

(** [type Column struct].  [Default] is [None] for the nil interface. *)
Record Column : Type := mkColumn {
  Name : string;
  Type_ : string;
  Length : option Z;
  Nullable : bool;
  Default : option Value;
  Primary : bool;
  Unique : bool;
  Comment : string;
  After : string
}.

Definition setNullable (b : bool) (c : Column) : Column :=
  mkColumn (Name c) (Type_ c) (Length c) b (Default c)
           (Primary c) (Unique c) (Comment c) (After c).

Definition setDefault (v : option Value) (c : Column) : Column :=
  mkColumn (Name c) (Type_ c) (Length c) (Nullable c) v
           (Primary c) (Unique c) (Comment c) (After c).

Definition setPrimary (b : bool) (c : Column) : Column :=
  mkColumn (Name c) (Type_ c) (Length c) (Nullable c) (Default c)
           b (Unique c) (Comment c) (After c).

Definition setUnique (b : bool) (c : Column) : Column :=
  mkColumn (Name c) (Type_ c) (Length c) (Nullable c) (Default c)
           (Primary c) b (Comment c) (After c).

Definition setComment (text : string) (c : Column) : Column :=
  mkColumn (Name c) (Type_ c) (Length c) (Nullable c) (Default c)
           (Primary c) (Unique c) text (After c).

Definition setAfter (column : string) (c : Column) : Column :=
  mkColumn (Name c) (Type_ c) (Length c) (Nullable c) (Default c)
           (Primary c) (Unique c) (Comment c) column.

(** The slice header of [blueprint.columns]: the address of its backing
    array and its capacity.  The backing arrays live in the store below and
    hold exactly the elements written so far, so the length of the slice is
    the length of its array. *)
Record slice : Type := mkSlice {
  ptr : nat;
  cap : nat
}.

(** [type blueprint struct], without the [db] field (the handle is passed to
    the providers separately and the blueprint never uses it). *)
Record blueprint : Type := mkBlueprint {
  tableName : string;
  columns : slice;
  indexes : list string;
  foreigns : list string
}.

(** [type foreignKeyBuilder struct]; its [blueprint] pointer is the one
    blueprint of the store. *)
Record foreignKeyBuilder : Type := mkForeignKeyBuilder {
  localColumn : string;
  foreignTable : string;
  foreignColumn : string;
  onDelete : string;
  onUpdate : string
}.

(** [type columnBuilder struct]: [column] points at one element of one
    backing array (address of the array, index in it). *)
Record columnBuilder : Type := mkColumnBuilder {
  column : nat * nat
}.

(** What a configuration callback works on: the backing arrays ever
    allocated for [columns] (by address), the foreign-key builder objects
    (by address) and the blueprint.  [growslice] is the capacity the Go
    runtime chooses when [append] finds a slice full, from the old capacity;
    it depends on the runtime and is left open. *)
Record store : Type := mkStore {
  growslice : nat -> nat;
  arrays : list (list Column);
  fkBuilders : list foreignKeyBuilder;
  bp : blueprint
}.

Definition withBlueprint (b : blueprint) (s : store) : store :=
  mkStore (growslice s) (arrays s) (fkBuilders s) b.

Definition withArrays (a : list (list Column)) (s : store) : store :=
  mkStore (growslice s) a (fkBuilders s) (bp s).

Definition withFkBuilders (l : list foreignKeyBuilder) (s : store) : store :=
  mkStore (growslice s) (arrays s) l (bp s).

Definition withColumns (sl : slice) (b : blueprint) : blueprint :=
  mkBlueprint (tableName b) sl (indexes b) (foreigns b).

Definition withIndexes (l : list string) (b : blueprint) : blueprint :=
  mkBlueprint (tableName b) (columns b) l (foreigns b).

Definition withForeigns (l : list string) (b : blueprint) : blueprint :=
  mkBlueprint (tableName b) (columns b) (indexes b) l.

(** The elements of [bp.columns], as a [range] loop over it sees them. *)
Definition columnsOf (s : store) : list Column :=
  nth (ptr (columns (bp s))) (arrays s) [].

(** The built-in [append(l, x)] on a slice seen as the list of its elements
    (where the backing array matters, see [appendColumn] below). *)
Definition append {A : Type} (l : list A) (x : A) : list A := (l ++ [x])%list.

(** Writing element [i] of a list; out of range nothing is written (a
    column builder only ever points at an element that exists). *)
Fixpoint update {A : Type} (i : nat) (f : A -> A) (l : list A) : list A :=
  match l, i with
  | [], _ => []
  | x :: r, O => f x :: r
  | x :: r, S j => x :: update j f r
  end.

(** ** The blueprint ([migrations.go]) *)

(** [newBlueprint(tableName, db)]: three empty slices.  The empty
    [[]Column{}] has capacity 0; its (empty) backing array is the first one
    of the store. *)
Definition newBlueprint (runtime : nat -> nat) (name : string) : store :=
  mkStore runtime [[]] [] (mkBlueprint name (mkSlice 0 0) [] []).

(** [b.columns = append(b.columns, column)]: written in place while the
    capacity allows, otherwise into a new backing array that receives a copy
    of the old elements.  The old array stays where it is, and so does
    whatever still points into it. *)
Definition appendColumn (c : Column) (s : store) : store :=
  let sl := columns (bp s) in
  let old := columnsOf s in
  if (List.length old <? cap sl)%nat
  then withArrays (update (ptr sl) (fun a => append a c) (arrays s)) s
  else
    let sl' := mkSlice (List.length (arrays s))
                       (Nat.max (List.length old + 1) (growslice s (cap sl))) in
    withBlueprint (withColumns sl' (bp s))
                  (withArrays (append (arrays s) (append old c)) s).

Module blueprint.

Definition AddColumn (name columnType : string) (s : store)
  : columnBuilder * store :=
  let column := mkColumn name columnType None false None false false "" "" in
  let s' := appendColumn column s in
  (mkColumnBuilder (ptr (columns (bp s')), List.length (columnsOf s') - 1), s').

Definition ID := AddColumn "id" "BIGINT UNSIGNED AUTO_INCREMENT PRIMARY KEY".

Definition Text (name : string) := AddColumn name "TEXT".

Definition Integer (name : string) := AddColumn name "INT".

Definition BigInteger (name : string) := AddColumn name "BIGINT".

Definition Float (name : string) := AddColumn name "FLOAT".

Definition Double (name : string) := AddColumn name "DOUBLE".

Definition Decimal (name : string) (precision scale : Z) :=
  AddColumn name ("DECIMAL(" ++ fmt.d precision ++ "," ++ fmt.d scale ++ ")").

Definition Boolean (name : string) := AddColumn name "BOOLEAN".

Definition Date (name : string) := AddColumn name "DATE".

Definition DateTime (name : string) := AddColumn name "DATETIME".

Definition Timestamp (name : string) := AddColumn name "TIMESTAMP".

Definition JSON (name : string) := AddColumn name "JSON".

Definition Binary (name : string) := AddColumn name "BINARY".

Definition UUID (name : string) := AddColumn name "CHAR(36)".

Definition Timestamps (s : store) : store :=
  let s1 := snd (AddColumn "created_at" "TIMESTAMP DEFAULT CURRENT_TIMESTAMP" s) in
  snd (AddColumn "updated_at"
         "TIMESTAMP DEFAULT CURRENT_TIMESTAMP ON UPDATE CURRENT_TIMESTAMP" s1).

Definition appendIndex (fragment : string) (s : store) : store :=
  withBlueprint (withIndexes (append (indexes (bp s)) fragment) (bp s)) s.

Definition Index (cols : list string) (s : store) : store :=
  let indexName := strings.Join cols "_" ++ "_index" in
  appendIndex ("INDEX " ++ indexName ++ " (" ++ strings.Join cols ", " ++ ")") s.

Definition UniqueIndex (cols : list string) (s : store) : store :=
  let indexName := strings.Join cols "_" ++ "_unique" in
  appendIndex
    ("UNIQUE INDEX " ++ indexName ++ " (" ++ strings.Join cols ", " ++ ")") s.

Definition Primary (cols : list string) (s : store) : store :=
  appendIndex ("PRIMARY KEY (" ++ strings.Join cols ", " ++ ")") s.

Definition FullTextIndex (cols : list string) (s : store) : store :=
  let indexName := strings.Join cols "_" ++ "_fulltext" in
  appendIndex
    ("FULLTEXT INDEX " ++ indexName ++ " (" ++ strings.Join cols ", " ++ ")") s.

(** [Foreign(column)] allocates a builder and returns its address. *)
Definition Foreign (col : string) (s : store) : nat * store :=
  (List.length (fkBuilders s),
   withFkBuilders (append (fkBuilders s) (mkForeignKeyBuilder col "" "" "" "")) s).

(** [String(name, length)]; declared last, since inside this module the
    name hides the constructor of [string]. *)
Definition String (name : string) (length : Z) :=
  AddColumn name ("VARCHAR(" ++ fmt.d length ++ ")").

End blueprint.

(** ** The column builder *)

(** A write through [c.column], wherever it points. *)
Definition writeColumn (c : columnBuilder) (f : Column -> Column) (s : store)
  : store :=
  withArrays (update (fst (column c)) (update (snd (column c)) f) (arrays s)) s.

(** A read through [c.column]. *)
Definition readColumn (c : columnBuilder) (s : store) : Column :=
  nth (snd (column c)) (nth (fst (column c)) (arrays s) [])
      (mkColumn "" "" None false None false false "" "").

Module columnBuilder.

Definition Nullable (c : columnBuilder) (s : store) : columnBuilder * store :=
  (c, writeColumn c (setNullable true) s).

Definition NotNullable (c : columnBuilder) (s : store) : columnBuilder * store :=
  (c, writeColumn c (setNullable false) s).

Definition Default (value : option Value) (c : columnBuilder) (s : store)
  : columnBuilder * store :=
  (c, writeColumn c (setDefault value) s).

Definition Unique (c : columnBuilder) (s : store) : columnBuilder * store :=
  (c, writeColumn c (setUnique true) s).

Definition Primary (c : columnBuilder) (s : store) : columnBuilder * store :=
  (c, writeColumn c (setPrimary true) s).

Definition Comment (text : string) (c : columnBuilder) (s : store)
  : columnBuilder * store :=
  (c, writeColumn c (setComment text) s).

Definition After (col : string) (c : columnBuilder) (s : store)
  : columnBuilder * store :=
  (c, writeColumn c (setAfter col) s).

Definition Index (c : columnBuilder) (s : store) : columnBuilder * store :=
  (c, blueprint.Index [Name (readColumn c s)] s).

End columnBuilder.

(** ** The foreign-key builder *)

(** A write to the builder object at address [f]. *)
Definition writeBuilder (f : nat) (g : foreignKeyBuilder -> foreignKeyBuilder)
  (s : store) : store :=
  withFkBuilders (update f g (fkBuilders s)) s.

Module foreignKeyBuilder.

Definition build (f : nat) (s : store) : store :=
  match nth_error (fkBuilders s) f with
  | None => s
  | Some fb =>
      if (foreignTable fb =? "") || (foreignColumn fb =? "") then s
      else
        let parts := [] in
        let parts := append parts ("FOREIGN KEY (" ++ localColumn fb ++ ")") in
        let parts :=
          append parts ("REFERENCES " ++ foreignTable fb
                                      ++ " (" ++ foreignColumn fb ++ ")") in
        let parts :=
          if negb (onDelete fb =? "")
          then append parts ("ON DELETE " ++ onDelete fb) else parts in
        let parts :=
          if negb (onUpdate fb =? "")
          then append parts ("ON UPDATE " ++ onUpdate fb) else parts in
        let foreignSQL := strings.Join parts " " in
        withBlueprint
          (withForeigns (append (foreigns (bp s)) foreignSQL) (bp s)) s
  end.

Definition References (col : string) (f : nat) (s : store) : nat * store :=
  (f, writeBuilder f
        (fun fb => mkForeignKeyBuilder (localColumn fb) (foreignTable fb) col
                                       (onDelete fb) (onUpdate fb)) s).

Definition OnDelete (action : string) (f : nat) (s : store) : nat * store :=
  (f, build f
        (writeBuilder f
           (fun fb => mkForeignKeyBuilder (localColumn fb) (foreignTable fb)
                        (foreignColumn fb) action (onUpdate fb)) s)).

Definition OnUpdate (action : string) (f : nat) (s : store) : nat * store :=
  (f, build f
        (writeBuilder f
           (fun fb => mkForeignKeyBuilder (localColumn fb) (foreignTable fb)
                        (foreignColumn fb) (onDelete fb) action) s)).

Definition On (table : string) (f : nat) (s : store) : nat * store :=
  (f, build f
        (writeBuilder f
           (fun fb => mkForeignKeyBuilder (localColumn fb) table
                        (foreignColumn fb) (onDelete fb) (onUpdate fb)) s)).

End foreignKeyBuilder.

(** ** The database handle and statement execution *)

(** The line feed and the double quote of the Go string literals. *)
Definition LF : string := String "010"%char EmptyString.
Definition DQ : string := String "034"%char EmptyString.

(** [db.Exec(sql)] on a handle: [W] is the state of the database behind the
    handle, [E] the type of its errors; [None] is the nil error. *)
Definition Handle (W E : Type) : Type := string -> W -> W * option E.

(** [for _, sql := range sqls { if _, err := db.Exec(sql); err != nil
    { return err } }], with [None] when the loop runs to its end. *)
Fixpoint execEach {W E : Type} (Exec : Handle W E) (sqls : list string) (db : W)
  : W * option E :=
  match sqls with
  | [] => (db, None)
  | sql :: rest =>
      match Exec sql db with
      | (db', Some err) => (db', Some err)
      | (db', None) => execEach Exec rest db'
      end
  end.

(** [if err != nil { return err }] between two steps of an operation. *)
Definition orElse {W E : Type} (r : W * option E) (next : W -> W * option E)
  : W * option E :=
  match r with
  | (db, Some err) => (db, Some err)
  | (db, None) => next db
  end.

(** ** The MySQL provider and renderer ([mysql.go]) *)

Module mysqlBlueprint.

Definition quoteValues (values : list string) : list string :=
  map (fun v => "'" ++ v ++ "'") values.

Definition Enum (name : string) (values : list string) :=
  blueprint.AddColumn name
    ("ENUM(" ++ strings.Join (quoteValues values) ", " ++ ")").

Definition Set_ (name : string) (values : list string) :=
  blueprint.AddColumn name
    ("SET(" ++ strings.Join (quoteValues values) ", " ++ ")").

Definition Point (name : string) := blueprint.AddColumn name "POINT".

Definition Geometry (name : string) := blueprint.AddColumn name "GEOMETRY".

(** The body of the loop over [bp.columns] in [toCreateSQL]. *)
Definition createColumnSQL (column : Column) : string :=
  let columnSQL := "`" ++ Name column ++ "` " ++ Type_ column in
  let columnSQL :=
    if negb (Nullable column) then columnSQL ++ " NOT NULL" else columnSQL in
  let columnSQL :=
    match Default column with
    | Some value => columnSQL ++ " DEFAULT " ++ fmt.v value
    | None => columnSQL
    end in
  let columnSQL :=
    if negb (Comment column =? "")
    then columnSQL ++ " COMMENT '" ++ Comment column ++ "'" else columnSQL in
  columnSQL.

Definition toCreateSQL (s : store) : string :=
  let parts := [] in
  let parts :=
    fold_left (fun parts column => append parts (createColumnSQL column))
              (columnsOf s) parts in
  let parts :=
    fold_left (fun parts index => append parts index) (indexes (bp s)) parts in
  let parts :=
    fold_left (fun parts foreign => append parts foreign)
              (foreigns (bp s)) parts in
  "CREATE TABLE `" ++ tableName (bp s) ++ "` (" ++ LF ++ "  "
    ++ strings.Join parts ("," ++ LF ++ "  ") ++ LF
    ++ ") ENGINE=InnoDB DEFAULT CHARSET=utf8mb4 COLLATE=utf8mb4_unicode_ci".

(** The body of the loop over [bp.columns] in [toAlterSQL]. *)
Definition alterColumnSQL (table : string) (column : Column) : string :=
  let columnSQL := "`" ++ Name column ++ "` " ++ Type_ column in
  let columnSQL :=
    if negb (Nullable column) then columnSQL ++ " NOT NULL" else columnSQL in
  let columnSQL :=
    match Default column with
    | Some value => columnSQL ++ " DEFAULT " ++ fmt.v value
    | None => columnSQL
    end in
  let columnSQL :=
    if negb (After column =? "")
    then columnSQL ++ " AFTER `" ++ After column ++ "`" else columnSQL in
  "ALTER TABLE `" ++ table ++ "` ADD COLUMN " ++ columnSQL.

Definition toAlterSQL (s : store) : list string :=
  let sqls := [] in
  let sqls :=
    fold_left (fun sqls column =>
                 append sqls (alterColumnSQL (tableName (bp s)) column))
              (columnsOf s) sqls in
  let sqls :=
    fold_left (fun sqls index =>
                 append sqls ("ALTER TABLE `" ++ tableName (bp s) ++ "` ADD "
                                ++ index))
              (indexes (bp s)) sqls in
  sqls.

End mysqlBlueprint.

Module mysqlProvider.

Section WithHandle.
Context {W E : Type} (Exec : Handle W E) (runtime : nat -> nat).

Definition Create (db : W) (table : string) (callback : store -> store)
  : W * option E :=
  let st := callback (newBlueprint runtime table) in
  let sql := mysqlBlueprint.toCreateSQL st in
  Exec sql db.

Definition Table (db : W) (table : string) (callback : store -> store)
  : W * option E :=
  let st := callback (newBlueprint runtime table) in
  let sqls := mysqlBlueprint.toAlterSQL st in
  execEach Exec sqls db.

Definition Drop (db : W) (table : string) : W * option E :=
  Exec ("DROP TABLE `" ++ table ++ "`") db.

Definition DropIfExists (db : W) (table : string) : W * option E :=
  Exec ("DROP TABLE IF EXISTS `" ++ table ++ "`") db.

End WithHandle.

End mysqlProvider.

(** ** The PostgreSQL provider and renderer ([mysql.go], second part) *)

Module postgresqlBlueprint.

Definition Serial (name : string) := blueprint.AddColumn name "SERIAL".

Definition BigSerial (name : string) := blueprint.AddColumn name "BIGSERIAL".

Definition JSONB (name : string) := blueprint.AddColumn name "JSONB".

Definition Array (name baseType : string) :=
  blueprint.AddColumn name (baseType ++ "[]").

Definition Inet (name : string) := blueprint.AddColumn name "INET".

Definition CIDR (name : string) := blueprint.AddColumn name "CIDR".

Definition MacAddr (name : string) := blueprint.AddColumn name "MACADDR".

Definition TsVector (name : string) := blueprint.AddColumn name "TSVECTOR".

Definition XML (name : string) := blueprint.AddColumn name "XML".

Definition Money (name : string) := blueprint.AddColumn name "MONEY".

Definition HStore (name : string) := blueprint.AddColumn name "HSTORE".

Definition ID := blueprint.AddColumn "id" "BIGSERIAL PRIMARY KEY".

Definition UUID (name : string) := blueprint.AddColumn name "UUID".

Definition Timestamps (s : store) : store :=
  let s1 :=
    snd (blueprint.AddColumn "created_at" "TIMESTAMP DEFAULT CURRENT_TIMESTAMP" s) in
  snd (blueprint.AddColumn "updated_at" "TIMESTAMP DEFAULT CURRENT_TIMESTAMP" s1).

Definition formatDefaultValue (value : Value) : string :=
  match value with
  | VString v =>
      if v =? "{}" then "'{}'"
      else if v =? "[]" then "'[]'"
      else if v =? "{user}" then "'{user}'"
      else if strings.HasPrefix v "{" && strings.HasSuffix v "}"
           then "'" ++ v ++ "'"
      else "'" ++ v ++ "'"
  | VInt _ | VInt64 _ | VFloat64 _ => fmt.v value
  | _ => "'" ++ fmt.v value ++ "'"
  end.

(** The body of the loop over [bp.columns] in [toCreateTableSQL]. *)
Definition createColumnSQL (column : Column) : string :=
  let columnSQL := DQ ++ Name column ++ DQ ++ " " ++ Type_ column in
  let columnSQL :=
    if negb (Nullable column) && negb (strings.Contains (Type_ column) "SERIAL")
    then columnSQL ++ " NOT NULL" else columnSQL in
  let columnSQL :=
    match Default column with
    | Some value =>
        let defaultValue := formatDefaultValue value in
        columnSQL ++ " DEFAULT " ++ defaultValue
    | None => columnSQL
    end in
  columnSQL.

Definition toCreateTableSQL (s : store) : string :=
  let parts := [] in
  let parts :=
    fold_left (fun parts column => append parts (createColumnSQL column))
              (columnsOf s) parts in
  "CREATE TABLE " ++ DQ ++ tableName (bp s) ++ DQ ++ " (" ++ LF ++ "  "
    ++ strings.Join parts ("," ++ LF ++ "  ") ++ LF ++ ")".

Definition formatIndexSQL (table : string) (index : string) : string :=
  let index := strings.ReplaceAll index "`" DQ in
  if strings.Contains index "INDEX" && negb (strings.Contains index "CREATE")
  then
    let parts := strings.Fields index in
    if (3 <=? List.length parts)%nat
    then
      let indexName := nth 1 parts "" in
      let columns := strings.Join (skipn 2 parts) " " in
      "CREATE INDEX " ++ indexName ++ " ON " ++ DQ ++ table ++ DQ ++ " " ++ columns
    else index
  else index.

Definition toIndexSQL (s : store) : list string :=
  fold_left (fun sqls index =>
               let indexSQL := formatIndexSQL (tableName (bp s)) index in
               append sqls indexSQL)
            (indexes (bp s)) [].

Definition formatForeignKeySQL (table : string) (foreign : string) : string :=
  let foreign := strings.ReplaceAll foreign "`" DQ in
  if negb (strings.Contains foreign "ALTER TABLE")
  then "ALTER TABLE " ++ DQ ++ table ++ DQ ++ " ADD " ++ foreign
  else foreign.

Definition toForeignKeySQL (s : store) : list string :=
  fold_left (fun sqls foreign =>
               let foreignSQL := formatForeignKeySQL (tableName (bp s)) foreign in
               append sqls foreignSQL)
            (foreigns (bp s)) [].

(** The body of the loop over [bp.columns] in [toAlterSQL]. *)
Definition alterColumnSQL (table : string) (column : Column) : string :=
  let columnSQL := DQ ++ Name column ++ DQ ++ " " ++ Type_ column in
  let columnSQL :=
    if negb (Nullable column) && negb (strings.Contains (Type_ column) "SERIAL")
    then columnSQL ++ " NOT NULL" else columnSQL in
  let columnSQL :=
    match Default column with
    | Some value => columnSQL ++ " DEFAULT " ++ fmt.v value
    | None => columnSQL
    end in
  "ALTER TABLE " ++ DQ ++ table ++ DQ ++ " ADD COLUMN " ++ columnSQL.

Definition toAlterSQL (s : store) : list string :=
  let sqls := [] in
  let sqls :=
    fold_left (fun sqls column =>
                 append sqls (alterColumnSQL (tableName (bp s)) column))
              (columnsOf s) sqls in
  let sqls :=
    fold_left (fun sqls index =>
                 let indexSQL := strings.ReplaceAll index "`" DQ in
                 append sqls ("ALTER TABLE " ++ DQ ++ tableName (bp s) ++ DQ
                                ++ " ADD " ++ indexSQL))
              (indexes (bp s)) sqls in
  sqls.

End postgresqlBlueprint.

Module postgresqlProvider.

Section WithHandle.
Context {W E : Type} (Exec : Handle W E) (runtime : nat -> nat).

Definition Create (db : W) (table : string) (callback : store -> store)
  : W * option E :=
  let st := callback (newBlueprint runtime table) in
  let createSQL := postgresqlBlueprint.toCreateTableSQL st in
  orElse (Exec createSQL db) (fun db =>
  orElse (execEach Exec (postgresqlBlueprint.toIndexSQL st) db) (fun db =>
  orElse (execEach Exec (postgresqlBlueprint.toForeignKeySQL st) db) (fun db =>
  (db, None)))).

Definition Table (db : W) (table : string) (callback : store -> store)
  : W * option E :=
  let st := callback (newBlueprint runtime table) in
  let sqls := postgresqlBlueprint.toAlterSQL st in
  execEach Exec sqls db.

Definition Drop (db : W) (table : string) : W * option E :=
  Exec ("DROP TABLE " ++ DQ ++ table ++ DQ) db.

Definition DropIfExists (db : W) (table : string) : W * option E :=
  Exec ("DROP TABLE IF EXISTS " ++ DQ ++ table ++ DQ) db.

End WithHandle.

End postgresqlProvider.

(** ** Configuration callbacks

    A callback receives the blueprint and can only call its methods and the
    methods of the builders those return; no method returns anything else,
    so what a callback does to the store is a sequence of such calls.  Every
    typed column helper of either dialect is [AddColumn] with a type literal
    (see the modules above), so one call stands for all of them. *)

Inductive Modifier : Type :=
| DoNullable
| DoNotNullable
| DoDefault (value : option Value)
| DoUnique
| DoPrimary
| DoComment (text : string)
| DoAfter (col : string)
| DoIndex.

Inductive FKCall : Type :=
| DoReferences (col : string)
| DoOn (table : string)
| DoOnDelete (action : string)
| DoOnUpdate (action : string).

(** [CallColumn k m] calls [m] on the builder the [k]-th [AddColumn]
    returned, [CallFK k c] calls [c] on the builder the [k]-th [Foreign]
    returned (counted from 0). *)
Inductive Call : Type :=
| CallAddColumn (name columnType : string)
| CallColumn (k : nat) (m : Modifier)
| CallIndex (cols : list string)
| CallUniqueIndex (cols : list string)
| CallPrimary (cols : list string)
| CallFullTextIndex (cols : list string)
| CallForeign (col : string)
| CallFK (k : nat) (c : FKCall).

(** The store together with the builders the callback holds. *)
Record frame : Type := mkFrame {
  st : store;
  columnBuilders : list columnBuilder;
  foreignBuilders : list nat
}.

Definition modify (m : Modifier) (c : columnBuilder) (s : store) : store :=
  snd match m with
      | DoNullable => columnBuilder.Nullable c s
      | DoNotNullable => columnBuilder.NotNullable c s
      | DoDefault value => columnBuilder.Default value c s
      | DoUnique => columnBuilder.Unique c s
      | DoPrimary => columnBuilder.Primary c s
      | DoComment text => columnBuilder.Comment text c s
      | DoAfter col => columnBuilder.After col c s
      | DoIndex => columnBuilder.Index c s
      end.

Definition configure (c : FKCall) (f : nat) (s : store) : store :=
  snd match c with
      | DoReferences col => foreignKeyBuilder.References col f s
      | DoOn table => foreignKeyBuilder.On table f s
      | DoOnDelete action => foreignKeyBuilder.OnDelete action f s
      | DoOnUpdate action => foreignKeyBuilder.OnUpdate action f s
      end.

(** One call.  A call on a builder that was never returned cannot be
    written in Go; here it does nothing. *)
Definition step (fr : frame) (c : Call) : frame :=
  match c with
  | CallAddColumn name columnType =>
      let (cb, s) := blueprint.AddColumn name columnType (st fr) in
      mkFrame s (append (columnBuilders fr) cb) (foreignBuilders fr)
  | CallColumn k m =>
      match nth_error (columnBuilders fr) k with
      | Some cb => mkFrame (modify m cb (st fr)) (columnBuilders fr) (foreignBuilders fr)
      | None => fr
      end
  | CallIndex cols =>
      mkFrame (blueprint.Index cols (st fr)) (columnBuilders fr) (foreignBuilders fr)
  | CallUniqueIndex cols =>
      mkFrame (blueprint.UniqueIndex cols (st fr)) (columnBuilders fr) (foreignBuilders fr)
  | CallPrimary cols =>
      mkFrame (blueprint.Primary cols (st fr)) (columnBuilders fr) (foreignBuilders fr)
  | CallFullTextIndex cols =>
      mkFrame (blueprint.FullTextIndex cols (st fr)) (columnBuilders fr) (foreignBuilders fr)
  | CallForeign col =>
      let (f, s) := blueprint.Foreign col (st fr) in
      mkFrame s (columnBuilders fr) (append (foreignBuilders fr) f)
  | CallFK k c =>
      match nth_error (foreignBuilders fr) k with
      | Some f => mkFrame (configure c f (st fr)) (columnBuilders fr) (foreignBuilders fr)
      | None => fr
      end
  end.

Definition run (calls : list Call) (fr : frame) : frame := fold_left step calls fr.

(** The callback that makes the calls [calls]. *)
Definition callback (calls : list Call) (s : store) : store :=
  st (run calls (mkFrame s [] [])).

(** The calls [Unique()] and [Primary()] on a column builder. *)
Definition setsFlag (c : Call) : bool :=
  match c with
  | CallColumn _ DoUnique | CallColumn _ DoPrimary => true
  | _ => false
  end.

Definition withoutFlagCalls (calls : list Call) : list Call :=
  filter (fun c => negb (setsFlag c)) calls.

(** ** A handle that records what it is asked to execute *)

Definition recording {W E : Type} (Exec : Handle W E)
  : Handle (W * list (string * option E)) E :=
  fun sql dbl =>
    let (db, log) := dbl in
    let (db', err) := Exec sql db in
    ((db', append log (sql, err)), err).

(** ** Inputs named in the properties *)

(** The chain [Foreign("user_id").References("id").On("users")
    .OnDelete("CASCADE")]. *)
Definition cascadeChain : list Call :=
  [CallForeign "user_id"; CallFK 0 (DoReferences "id");
   CallFK 0 (DoOn "users"); CallFK 0 (DoOnDelete "CASCADE")].

(** A foreign-key builder from its creation by [Foreign(col)] on, with the
    calls [cs] made on it in turn. *)
Definition fkSession (col : string) (cs : list FKCall) (s : store) : store :=
  let (f, s0) := blueprint.Foreign col s in
  fold_left (fun s c => configure c f s) cs s0.

(** How a foreign-key fragment starts. *)
Definition fkHeader (localCol table col : string) : string :=
  "FOREIGN KEY (" ++ localCol ++ ") REFERENCES " ++ table ++ " (" ++ col ++ ")".

(** What one call does to the builder object it is made on. *)
Definition assign (c : FKCall) (fb : foreignKeyBuilder) : foreignKeyBuilder :=
  match c with
  | DoReferences col =>
      mkForeignKeyBuilder (localColumn fb) (foreignTable fb) col
                          (onDelete fb) (onUpdate fb)
  | DoOn table =>
      mkForeignKeyBuilder (localColumn fb) table (foreignColumn fb)
                          (onDelete fb) (onUpdate fb)
  | DoOnDelete action =>
      mkForeignKeyBuilder (localColumn fb) (foreignTable fb) (foreignColumn fb)
                          action (onUpdate fb)
  | DoOnUpdate action =>
      mkForeignKeyBuilder (localColumn fb) (foreignTable fb) (foreignColumn fb)
                          (onDelete fb) action
  end.

(** The table of the documented MySQL example: [String("name", 255)], then
    [Integer("age").Nullable().Default(0)]. *)
Definition usersExample (s : store) : store :=
  let (_, s) := blueprint.String "name" 255 s in
  let (age, s) := blueprint.Integer "age" s in
  let (age, s) := columnBuilder.Nullable age s in
  let (_, s) := columnBuilder.Default (Some (VInt 0)) age s in
  s.

(** The calls that create or configure a foreign key. *)
Definition isForeignCall (c : Call) : bool :=
  match c with
  | CallForeign _ | CallFK _ _ => true
  | _ => false
  end.

Definition withoutForeignCalls (calls : list Call) : list Call :=
  filter (fun c => negb (isForeignCall c)) calls.

(** A frame with everything about foreign keys forgotten. *)
Definition forgetForeign (fr : frame) : frame :=
  mkFrame (mkStore (growslice (st fr)) (arrays (st fr)) []
                   (withForeigns [] (bp (st fr))))
          (columnBuilders fr) [].

(** A frame with the [Primary] and [Unique] flags of every column, in
    every backing array, forgotten. *)
Definition clearFlag (c : Column) : Column := setUnique false (setPrimary false c).

Definition forgetFlags (fr : frame) : frame :=
  mkFrame (withArrays (map (map clearFlag) (arrays (st fr))) (st fr))
          (columnBuilders fr) (foreignBuilders fr).

(** What a recording handle shows of an operation that emits the statements
    [stmts] and returns [res]: it was asked to execute the first [n] of them
    and nothing else, in order; when the operation returns nil these are all
    of them and each succeeded; when it returns [err], all but the last one
    succeeded and the last one returned [err]. *)
Definition stopsAtFirstError {E : Type} (stmts : list string)
  (log : list (string * option E)) (res : option E) : Prop :=
  exists n,
    n <= List.length stmts
    /\ map fst log = firstn n stmts
    /\ match res with
       | None => n = List.length stmts /\ map snd log = repeat None n
       | Some err =>
           exists m, n = S m /\ map snd log = (repeat None m ++ [Some err])%list
       end.

(** The slice [columns] points at a backing array of the store; every
    store a callback can reach from [newBlueprint] does. *)
Definition live (s : store) : Prop :=
  ptr (columns (bp s)) < List.length (arrays s).

(** What a modifier writes to the column it is called on. *)
Definition written (m : Modifier) : Column -> Column :=
  match m with
  | DoNullable => setNullable true
  | DoNotNullable => setNullable false
  | DoDefault value => setDefault value
  | DoUnique => setUnique true
  | DoPrimary => setPrimary true
  | DoComment text => setComment text
  | DoAfter col => setAfter col
  | DoIndex => fun c => c
  end.

(** A typed helper followed at once by a chain of modifiers, as in
    [bp.Serial("id").Nullable()]. *)
Definition chained (helper : store -> columnBuilder * store) (ms : list Modifier)
  (s : store) : store :=
  let (cb, s) := helper s in
  fold_left (fun s m => modify m cb s) ms s.

(** Everything the two dialects render from a store. *)
Definition rendered (s : store)
  : string * list string * (string * list string * list string) * list string :=
  (mysqlBlueprint.toCreateSQL s, mysqlBlueprint.toAlterSQL s,
   (postgresqlBlueprint.toCreateTableSQL s, postgresqlBlueprint.toIndexSQL s,
    postgresqlBlueprint.toForeignKeySQL s),
   postgresqlBlueprint.toAlterSQL s).

(** A handle that counts the statements it is given and fails on the one
    with index [k]. *)
Definition failAt (k : nat) : Handle nat string :=
  fun _ n => (S n, if (n =? k)%nat then Some "boom" else None).

(** A callback with a column, an index and a foreign key. *)
Definition postsExample : list Call :=
  [CallAddColumn "id" "SERIAL"; CallIndex ["a"]; CallForeign "user_id";
   CallFK 0 (DoReferences "id"); CallFK 0 (DoOn "users")].

(** ** Views of a frame with some column fields forgotten *)

(** The calls of [dropM] on column builders. *)
Definition dropsModifier (dropM : Modifier -> bool) (c : Call) : bool :=
  match c with
  | CallColumn _ m => dropM m
  | _ => false
  end.

(** A frame with [clear] applied to every column of every backing array. *)
Definition forgetFields (clear : Column -> Column) (fr : frame) : frame :=
  mkFrame (withArrays (map (map clear) (arrays (st fr))) (st fr))
          (columnBuilders fr) (foreignBuilders fr).

Definition clearComment (c : Column) : Column := setComment "" c.

Definition clearAfter (c : Column) : Column := setAfter "" c.

Definition clearCommentAfter (c : Column) : Column := setComment "" (setAfter "" c).

Definition isComment (m : Modifier) : bool :=
  match m with DoComment _ => true | _ => false end.

Definition isAfter (m : Modifier) : bool :=
  match m with DoAfter _ => true | _ => false end.

Definition isCommentOrAfter (m : Modifier) : bool := isComment m || isAfter m.

(** The name and type literal of a column. *)
Definition nameAndType (c : Column) : string * string := (Name c, Type_ c).

(** The columns a callback declares: name and type literal of its
    [AddColumn] calls, in call order. *)
Definition declared (calls : list Call) : list (string * string) :=
  flat_map (fun c => match c with
                     | CallAddColumn name columnType => [(name, columnType)]
                     | _ => []
                     end) calls.

(** What holds of the column builders a callback has obtained, [added]
    being the columns declared so far: there is one builder per declared
    column, and each points at an element that exists and bears the name of
    its column. *)
Definition buildersNamed (added : list (string * string)) (fr : frame) : Prop :=
  List.length (columnBuilders fr) = List.length added
  /\ forall k cb,
       nth_error (columnBuilders fr) k = Some cb ->
       fst (column cb) < List.length (arrays (st fr))
       /\ snd (column cb) < List.length (nth (fst (column cb)) (arrays (st fr)) [])
       /\ exists ty, nth_error added k = Some (Name (readColumn cb (st fr)), ty).

Definition isReferences (c : FKCall) : bool :=
  match c with DoReferences _ => true | _ => false end.

(** The calls [OnDelete] and [OnUpdate]. *)
Definition isAction (c : FKCall) : bool :=
  match c with DoOnDelete _ | DoOnUpdate _ => true | _ => false end.

(** ** Texts made of plain characters *)

(** Every byte of [s] satisfies [p]. *)
Fixpoint allChars (p : ascii -> bool) (s : string) : bool :=
  match s with
  | EmptyString => true
  | String c s' => p c && allChars p s'
  end.

(** A visible ASCII character other than the backtick: no white space, no
    byte of a multi-byte rune. *)
Definition plainChar (c : ascii) : bool :=
  ((33 <=? nat_of_ascii c) && (nat_of_ascii c <? 127)
   && negb (nat_of_ascii c =? 96))%nat.

Definition plain (s : string) : bool := allChars plainChar s.

(** The byte [d] does not occur in [s]. *)
Definition lacks (d : ascii) (s : string) : bool :=
  allChars (fun c => negb (Ascii.eqb c d)) s.

(** The white-space-separated fields of [cols] joined by a comma and a
    blank and closed by a parenthesis. *)
Fixpoint closedList (cols : list string) : list string :=
  match cols with
  | [] => [")"]
  | [c] => [c ++ ")"]
  | c :: rest => (c ++ ",") :: closedList rest
  end.

(** The same behind an opening parenthesis. *)
Definition columnList (cols : list string) : list string :=
  match closedList cols with
  | [] => []
  | p :: ps => ("(" ++ p) :: ps
  end.

(** ** Package routing ([nethttp.go])

    A handler is a value of an arbitrary type; a middleware is a function
    from handlers to handlers.  [flatten] builds the middleware slices of
    the routes it returns by [append] on the slice it was given, so these
    slices can share a backing array: they are embedded as slice headers
    over a heap of arrays.  The slices a caller hands in (the middlewares
    of a [RouteGroup], which [Group] appends to a slice of its own, and the
    global middlewares of the application) are only ever read and are
    embedded as the lists of their elements.  [growslice] is the capacity
    the runtime chooses when [append] has to allocate, from the old capacity
    and the length needed. *)

Module routing.

Section WithHandlers.

Context {HandlerFunc : Type}.
Variable growslice : nat -> nat -> nat.

Definition MiddlewareFunc : Type := HandlerFunc -> HandlerFunc.

(** A [[]MiddlewareFunc]: the address of the backing array ([None] for a
    nil slice), the length and the capacity. *)
Record Slice : Type := mkSlice {
  base : option nat;
  len : nat;
  cap : nat
}.

Definition nilSlice : Slice := mkSlice None 0 0.

(** The backing arrays, by address; an array holds the elements written to
    it so far. *)
Definition Heap : Type := list (list MiddlewareFunc).

(** The elements of a slice. *)
Definition elems (s : Slice) (h : Heap) : list MiddlewareFunc :=
  match base s with
  | None => []
  | Some p => firstn (len s) (nth p h [])
  end.

(** [append(s, xs...)]: nothing to do for no elements; written behind the
    elements of [s] in its own array when the capacity allows, over whatever
    another slice has written there; otherwise copied to a new array. *)
Definition appendTo (s : Slice) (xs : list MiddlewareFunc) (h : Heap)
  : Slice * Heap :=
  match xs with
  | [] => (s, h)
  | _ =>
      let needed := len s + List.length xs in
      let grown :=
        (mkSlice (Some (List.length h)) needed
                 (Nat.max needed (growslice (cap s) needed)),
         append h (elems s h ++ xs)%list) in
      match base s with
      | Some p =>
          if (needed <=? cap s)%nat
          then (mkSlice (Some p) needed (cap s),
                update p (fun a => (firstn (len s) a ++ xs ++ skipn needed a)%list) h)
          else grown
      | None => grown
      end
  end.

(** [type Route struct]. *)
Record Route : Type := mkRoute {
  method : string;
  pattern : string;
  handler : HandlerFunc;
  middlewares : Slice
}.

(** [type RouteGroup struct]: prefix, middlewares, routes, groups. *)
#[warnings="-register-all"]
Inductive RouteGroup : Type :=
| mkRouteGroup (groupPrefix : string) (groupMiddlewares : list MiddlewareFunc)
               (routes : list Route) (groups : list RouteGroup).

(** [for i := len(mws) - 1; i >= 0; i-- { h = mws[i](h) }], [i] counting
    the iterations left. *)
Fixpoint applyReverse (mws : list MiddlewareFunc) (i : nat) (h : HandlerFunc)
  : HandlerFunc :=
  match i with
  | O => h
  | S j => applyReverse mws j (nth j mws (fun x => x) h)
  end.

(** [Route.handle]. *)
Definition handle (r : Route) (heap : Heap) : HandlerFunc :=
  let mws := elems (middlewares r) heap in
  applyReverse mws (List.length mws) (handler r).

(** The loop over [g.routes] in [flatten]. *)
Definition flattenRoutes (fullPrefix : string) (allMiddlewares : Slice)
  (routes : list Route) (h : Heap) : list Route * Heap :=
  fold_left
    (fun acc route =>
       let (result, h) := acc : list Route * Heap in
       let (mws, h) := appendTo allMiddlewares (elems (middlewares route) h) h in
       (append result
               (mkRoute (method route) (fullPrefix ++ pattern route)
                        (handler route) mws), h))
    routes ([], h).

(** [RouteGroup.flatten]. *)
Fixpoint flatten (g : RouteGroup) (parentPrefix : string)
  (parentMiddlewares : Slice) (h : Heap) : list Route * Heap :=
  match g with
  | mkRouteGroup groupPrefix groupMiddlewares routes groups =>
      let fullPrefix := parentPrefix ++ groupPrefix in
      let (allMiddlewares, h) := appendTo parentMiddlewares groupMiddlewares h in
      let (result, h) := flattenRoutes fullPrefix allMiddlewares routes h in
      (fix subgroups (gs : list RouteGroup) (result : list Route) (h : Heap)
         : list Route * Heap :=
         match gs with
         | [] => (result, h)
         | subgroup :: rest =>
             let (sub, h) := flatten subgroup fullPrefix allMiddlewares h in
             subgroups rest (result ++ sub)%list h
         end) groups result h
  end.

(** The route builders. *)
Definition GET (pat : string) (hd : HandlerFunc) : Route :=
  mkRoute "GET" pat hd nilSlice.

Definition POST (pat : string) (hd : HandlerFunc) : Route :=
  mkRoute "POST" pat hd nilSlice.

Definition PUT (pat : string) (hd : HandlerFunc) : Route :=
  mkRoute "PUT" pat hd nilSlice.

Definition DELETE (pat : string) (hd : HandlerFunc) : Route :=
  mkRoute "DELETE" pat hd nilSlice.

Definition PATCH (pat : string) (hd : HandlerFunc) : Route :=
  mkRoute "PATCH" pat hd nilSlice.

(** An argument of [Group] or [Routes], by its dynamic type; the routes
    and groups are pointers that are not nil. *)
Inductive Item : Type :=
| ItemRoute (r : Route)
| ItemGroup (g : RouteGroup)
| ItemMiddlewares (mws : list MiddlewareFunc)
| ItemMiddleware (mw : MiddlewareFunc)
| ItemOther.

(** [RouteBuilder.Group]. *)
Definition Group (groupPrefix : string) (items : list Item) : RouteGroup :=
  fold_left
    (fun group item =>
       match group with
       | mkRouteGroup p mws routes groups =>
           match item with
           | ItemRoute v => mkRouteGroup p mws (append routes v) groups
           | ItemGroup v => mkRouteGroup p mws routes (append groups v)
           | ItemMiddlewares v => mkRouteGroup p (mws ++ v)%list routes groups
           | ItemMiddleware v => mkRouteGroup p (append mws v) routes groups
           | ItemOther => group
           end
       end)
    items (mkRouteGroup groupPrefix [] [] []).

(** [type NetHTTPApp struct]. *)
Record NetHTTPApp : Type := mkApp {
  appRoutes : list Route;
  appGroups : list RouteGroup;
  appMiddlewares : list MiddlewareFunc
}.

(** [NetHTTPApp.Routes]. *)
Definition Routes (items : list Item) (app : NetHTTPApp) : NetHTTPApp :=
  fold_left
    (fun app item =>
       match item with
       | ItemRoute v =>
           mkApp (append (appRoutes app) v) (appGroups app) (appMiddlewares app)
       | ItemGroup v =>
           mkApp (appRoutes app) (append (appGroups app) v) (appMiddlewares app)
       | _ => app
       end)
    items app.

(** The routes [Handler] collects: the direct ones, then those of each
    group, flattened from the empty prefix and the nil slice. *)
Definition collect (app : NetHTTPApp) (h : Heap) : list Route * Heap :=
  fold_left
    (fun acc group =>
       let (allRoutes, h) := acc : list Route * Heap in
       let (sub, h) := flatten group "" nilSlice h in
       ((allRoutes ++ sub)%list, h))
    (appGroups app) (appRoutes app, h).

(** The multiplexer of [net/http] is not part of the package: the empty
    multiplexer [http.NewServeMux()] returns and what a call
    [mux.HandleFunc(pattern, handler)] does to a multiplexer are taken as
    they come, the call giving the multiplexer with the registration made
    or [None] when it panics (as [net/http] does on a pattern it cannot
    parse, on one that conflicts with a pattern registered before, and on a
    nil handler).  Handlers and middlewares are functions that are there
    and return. *)
Section WithMux.

Context {Mux : Type}.
Variable NewServeMux : Mux.
Variable HandleFunc : string -> HandlerFunc -> Mux -> option Mux.

(** What a run of [Handler] comes to: it returns the multiplexer, or it
    panics, the multiplexer then being what the calls before had made of
    it. *)
Inductive Outcome : Type :=
| Returns (mux : Mux)
| Panics (mux : Mux).

(** [for _, route := range allRoutes { ... mux.HandleFunc(pattern, handler) }]:
    a panic of [HandleFunc] ends the loop and [Handler]. *)
Fixpoint register (globals : list MiddlewareFunc) (h : Heap)
  (allRoutes : list Route) (mux : Mux) : Outcome :=
  match allRoutes with
  | [] => Returns mux
  | route :: rest =>
      let pat := method route ++ " " ++ pattern route in
      let hd := handle route h in
      let hd := applyReverse globals (List.length globals) hd in
      match HandleFunc pat hd mux with
      | Some mux' => register globals h rest mux'
      | None => Panics mux
      end
  end.

(** [NetHTTPApp.Handler]. *)
Definition Handler (app : NetHTTPApp) (h : Heap) : Outcome :=
  let (allRoutes, h) := collect app h in
  register (appMiddlewares app) h allRoutes NewServeMux.

(** The calls [mux.HandleFunc(pattern, handler)] for the entries of a
    list in order, up to the first that panics. *)
Fixpoint registerAll (entries : list (string * HandlerFunc)) (mux : Mux)
  : Outcome :=
  match entries with
  | [] => Returns mux
  | (pat, hd) :: rest =>
      match HandleFunc pat hd mux with
      | Some mux' => registerAll rest mux'
      | None => Panics mux
      end
  end.

End WithMux.

(** The loop over [g.groups] in [flatten], by name. *)
Fixpoint flattenGroups (gs : list RouteGroup) (fullPrefix : string)
  (allMiddlewares : Slice) (result : list Route) (h : Heap) : list Route * Heap :=
  match gs with
  | [] => (result, h)
  | subgroup :: rest =>
      let (sub, h) := flatten subgroup fullPrefix allMiddlewares h in
      flattenGroups rest fullPrefix allMiddlewares (result ++ sub)%list h
  end.

(** Method, pattern and handler of the routes of a group, the patterns
    relative to the group. *)
Fixpoint paths (g : RouteGroup) : list (string * string * HandlerFunc) :=
  match g with
  | mkRouteGroup groupPrefix _ routes groups =>
      app (map (fun r => (method r, groupPrefix ++ pattern r, handler r)) routes)
          (flat_map (fun sub =>
                       map (fun e : string * string * HandlerFunc =>
                              (fst (fst e), groupPrefix ++ snd (fst e), snd e))
                           (paths sub))
                    groups)
  end.

(** Method, pattern and handler of a route; an entry of [paths] behind a
    prefix. *)
Definition routeKey (r : Route) : string * string * HandlerFunc :=
  (method r, pattern r, handler r).

Definition under (pre : string) (e : string * string * HandlerFunc)
  : string * string * HandlerFunc :=
  (fst (fst e), pre ++ snd (fst e), snd e).

(** A slice with no backing array, as the builders leave
    [Route.middlewares]. *)
Definition isNil (s : Slice) : bool :=
  match base s with
  | None => true
  | Some _ => false
  end.

(** All routes of the group and its subgroups have nil middlewares. *)
Fixpoint builderRoutes (g : RouteGroup) : bool :=
  match g with
  | mkRouteGroup _ _ routes groups =>
      forallb (fun r => isNil (middlewares r)) routes
      && forallb builderRoutes groups
  end.

(** The group or one of its subgroups has middlewares: flattening it
    appends elements to the slice handed down. *)
Fixpoint writes (g : RouteGroup) : bool :=
  match g with
  | mkRouteGroup _ mws _ groups =>
      match mws with
      | [] => existsb writes groups
      | _ => true
      end
  end.

(** At every level at most one subgroup appends to the slice of its
    parent. *)
Fixpoint singleWriter (g : RouteGroup) : bool :=
  match g with
  | mkRouteGroup _ _ _ groups =>
      (List.length (filter writes groups) <=? 1)%nat
      && forallb singleWriter groups
  end.

(** The middlewares each route of the group is meant to run behind, in the
    order of [paths]: those above the group, then those of the groups on the
    way down. *)
Fixpoint intended (g : RouteGroup) (above : list MiddlewareFunc)
  : list (list MiddlewareFunc) :=
  match g with
  | mkRouteGroup _ mws routes groups =>
      app (map (fun _ => above ++ mws)%list routes)
          (flat_map (fun sub => intended sub (above ++ mws)%list) groups)
  end.

(** The slice lies within the heap: its array is there and holds its
    elements. *)
Definition valid (s : Slice) (h : Heap) : Prop :=
  match base s with
  | None => len s = 0
  | Some p => p < List.length h /\ len s <= List.length (nth p h [])
  end.

(** The middlewares of each of the routes, as the heap has them. *)
Definition middlewaresIn (h : Heap) (rs : list Route)
  : list (list MiddlewareFunc) :=
  map (fun r => elems (middlewares r) h) rs.

(** A group with middlewares, routes of its own and two subgroups of one
    route each, with middlewares of their own. *)
Definition twoSubgroups (p : string) (mws : list MiddlewareFunc)
  (direct : list Route)
  (p1 : string) (mws1 : list MiddlewareFunc) (r1 : Route)
  (p2 : string) (mws2 : list MiddlewareFunc) (r2 : Route) : RouteGroup :=
  mkRouteGroup p mws direct
    [mkRouteGroup p1 mws1 [r1] []; mkRouteGroup p2 mws2 [r2] []].

(** A handler behind middlewares, the first one outermost. *)
Definition wrap (mws : list MiddlewareFunc) (hd : HandlerFunc) : HandlerFunc :=
  fold_right (fun mw k => mw k) hd mws.

(** What a group is meant to serve: each route under its method and its
    pattern behind the prefixes of the groups around it, its handler behind
    the middlewares above and those of the groups on the way down. *)
Fixpoint served (g : RouteGroup) (pre : string) (above : list MiddlewareFunc)
  : list (string * HandlerFunc) :=
  match g with
  | mkRouteGroup p mws routes groups =>
      app (map (fun r => (method r ++ " " ++ (pre ++ p) ++ pattern r,
                          wrap (above ++ mws)%list (handler r))) routes)
          (flat_map (fun sub => served sub (pre ++ p) (above ++ mws)%list) groups)
  end.

(** The array of the slice is in the heap. *)
Definition inRange (s : Slice) (h : Heap) : Prop :=
  match base s with
  | None => True
  | Some p => p < List.length h
  end.

(** The arguments of [Group] or [Routes] of each kind, in order. *)
Definition itemRoutes (items : list Item) : list Route :=
  flat_map (fun item => match item with ItemRoute v => [v] | _ => [] end) items.

Definition itemGroups (items : list Item) : list RouteGroup :=
  flat_map (fun item => match item with ItemGroup v => [v] | _ => [] end) items.

Definition itemMiddlewares (items : list Item) : list MiddlewareFunc :=
  flat_map (fun item =>
              match item with
              | ItemMiddlewares v => v
              | ItemMiddleware v => [v]
              | _ => []
              end) items.

End WithHandlers.

End routing.

(** An application for the examples: handlers are numbers, a slice that
    grows gets twice the room it needs. *)
Definition exampleGrowth (_ needed : nat) : nat := 2 * needed.

Definition exampleApi : @routing.RouteGroup nat :=
  routing.Group "/api"
    [routing.ItemMiddleware S;
     routing.ItemRoute (routing.GET "/ping" 0);
     routing.ItemGroup
       (routing.Group "/v1"
          [routing.ItemMiddleware (Nat.add 10);
           routing.ItemRoute (routing.POST "/users" 1)]);
     routing.ItemGroup
       (routing.Group "/static" [routing.ItemRoute (routing.GET "/logo" 2)])].

(** A multiplexer for the examples: the patterns registered, in order; a
    pattern it already has makes the call panic. *)
Definition exampleHandleFunc (pat : string) (_ : nat) (mux : list string)
  : option (list string) :=
  if existsb (String.eqb pat) mux then None else Some (mux ++ [pat])%list.

(** An application that registers [GET /a] twice. *)
Definition doubledApp : @routing.NetHTTPApp nat :=
  routing.Routes
    [routing.ItemRoute (routing.GET "/a" 0);
     routing.ItemRoute (routing.GET "/a" 1);
     routing.ItemRoute (routing.GET "/b" 2)]
    (routing.mkApp [] [] []).

Definition exampleApp : @routing.NetHTTPApp nat :=
  routing.Routes
    [routing.ItemRoute (routing.GET "/health" 3);
     routing.ItemGroup exampleApi;
     routing.ItemMiddleware S]
    (routing.mkApp [] [] []).

(** Every backtick of the text turned into a double quote, the other bytes
    kept: what the rewrites of the PostgreSQL create path are said to do
    first. *)
Fixpoint backticksToQuotes (s : string) : string :=
  match s with
  | EmptyString => EmptyString
  | String c s' =>
      String (if Ascii.eqb c "`" then "034"%char else c) (backticksToQuotes s')
  end.

(** * Properties *)

(** ** The library model on concrete inputs *)

Example Join_three : strings.Join ["a"; "b"; "c"] ", " = "a, b, c".
Proof. reflexivity. Qed.

Example Fields_index :
  strings.Fields "INDEX a_b_index (a, b)" = ["INDEX"; "a_b_index"; "(a,"; "b)"].
Proof. reflexivity. Qed.

Example Fields_blanks :
  strings.Fields ("  a" ++ LF ++ " b  ") = ["a"; "b"] /\ strings.Fields "   " = [].
Proof. split; reflexivity. Qed.

Example fmt_d_255 : fmt.d 255 = "255" /\ fmt.d (-7) = "-7" /\ fmt.d 0 = "0".
Proof. repeat split; reflexivity. Qed.

Example ReplaceAll_backticks :
  strings.ReplaceAll "KEY (`a`, `b`)" "`" "'" = "KEY ('a', 'b')".
Proof. reflexivity. Qed.

Example Contains_serial :
  strings.Contains "BIGSERIAL PRIMARY KEY" "SERIAL" = true
  /\ strings.Contains "INT" "SERIAL" = false.
Proof. split; reflexivity. Qed.

(** ** Strings and loops *)

Lemma string_append_assoc (a b c : string) : (a ++ b) ++ c = a ++ (b ++ c).
Proof. induction a as [|x a IH]; simpl; [reflexivity | now rewrite IH]. Qed.

Lemma string_append_nil_r (a : string) : a ++ "" = a.
Proof. induction a as [|x a IH]; simpl; [reflexivity | now rewrite IH]. Qed.

(** Both sides of an equation between concatenations, nested to the right. *)
Ltac flatten_appends :=
  repeat (progress (rewrite ?string_append_assoc, ?string_append_nil_r; simpl)).

(** A [range] loop that appends one element per iteration builds the image
    of the slice it ranges over, in order. *)
Lemma fold_left_append {A B : Type} (f : A -> B) (l : list A) (acc : list B) :
  fold_left (fun acc x => append acc (f x)) l acc = (acc ++ map f l)%list.
Proof.
  revert acc; induction l as [|x l IH]; intros acc; simpl.
  - now rewrite app_nil_r.
  - rewrite IH. unfold append. now rewrite <- app_assoc.
Qed.

(** ** Foreign keys: the documented call chain (C1) *)

(** C1 as stated fails: after the chain on a fresh blueprint the
    foreign-key list is not the single ON DELETE CASCADE fragment ([On]
    has already appended a fragment of its own). *)
Lemma cascade_chain_not_single_fragment :
  foreigns (bp (callback cascadeChain (newBlueprint (fun c => 2 * c) "posts")))
  <> ["FOREIGN KEY (user_id) REFERENCES users (id) ON DELETE CASCADE"].
Proof. vm_compute. discriminate. Qed.

(** C1, amended: on a fresh blueprint the chain leaves exactly two
    fragments, the one [On] appended and then the one [OnDelete] appended,
    which is the ON DELETE CASCADE fragment; a following [OnUpdate(a)]
    appends exactly one more fragment, the third. *)
Theorem cascade_chain_two_fragments (runtime : nat -> nat) (table : string) :
  let fresh := newBlueprint runtime table in
  foreigns (bp (callback cascadeChain fresh))
  = ["FOREIGN KEY (user_id) REFERENCES users (id)";
     "FOREIGN KEY (user_id) REFERENCES users (id) ON DELETE CASCADE"]
  /\ forall a : string,
       foreigns (bp (callback (cascadeChain ++ [CallFK 0 (DoOnUpdate a)]) fresh))
       = append (foreigns (bp (callback cascadeChain fresh)))
           (if a =? "" then
              "FOREIGN KEY (user_id) REFERENCES users (id) ON DELETE CASCADE"
            else
              "FOREIGN KEY (user_id) REFERENCES users (id) ON DELETE CASCADE"
                ++ " ON UPDATE " ++ a)
       /\ List.length
            (foreigns (bp (callback (cascadeChain ++ [CallFK 0 (DoOnUpdate a)])
                                    fresh))) = 3.
Proof.
  split; [reflexivity|].
  intros a. destruct a as [|x a]; split; reflexivity.
Qed.

(** ** Index registration (C8) *)

(** C8: each of [Index], [UniqueIndex], [FullTextIndex] and [Primary]
    appends exactly one fragment to the index list.  The first three name
    the index by joining the column names with an underscore and adding
    [_index], [_unique] and [_fulltext]; [Primary] writes a PRIMARY KEY
    fragment with no name.  [Index("a","b")] is named [a_b_index] and
    [UniqueIndex("a")] is named [a_unique]. *)
Theorem index_fragment_names (cols : list string) (s : store) :
  indexes (bp (blueprint.Index cols s))
  = append (indexes (bp s))
      ("INDEX " ++ (strings.Join cols "_" ++ "_index")
         ++ " (" ++ strings.Join cols ", " ++ ")")
  /\ indexes (bp (blueprint.UniqueIndex cols s))
     = append (indexes (bp s))
         ("UNIQUE INDEX " ++ (strings.Join cols "_" ++ "_unique")
            ++ " (" ++ strings.Join cols ", " ++ ")")
  /\ indexes (bp (blueprint.FullTextIndex cols s))
     = append (indexes (bp s))
         ("FULLTEXT INDEX " ++ (strings.Join cols "_" ++ "_fulltext")
            ++ " (" ++ strings.Join cols ", " ++ ")")
  /\ indexes (bp (blueprint.Primary cols s))
     = append (indexes (bp s)) ("PRIMARY KEY (" ++ strings.Join cols ", " ++ ")")
  /\ indexes (bp (blueprint.Index ["a"; "b"] s))
     = append (indexes (bp s)) "INDEX a_b_index (a, b)"
  /\ indexes (bp (blueprint.UniqueIndex ["a"] s))
     = append (indexes (bp s)) "UNIQUE INDEX a_unique (a)"
  /\ Forall (fun register =>
               List.length (indexes (bp (register cols s)))
               = S (List.length (indexes (bp s)))
               /\ foreigns (bp (register cols s)) = foreigns (bp s)
               /\ columnsOf (register cols s) = columnsOf s)
            [blueprint.Index; blueprint.UniqueIndex;
             blueprint.FullTextIndex; blueprint.Primary].
Proof.
  repeat split; try reflexivity.
  repeat constructor; simpl; unfold append; rewrite length_app; simpl; lia.
Qed.

(** ** The PostgreSQL rewrite of a unique index (C10) *)

(** C10: for [UniqueIndex("a")] on table [t] the stored fragment is
    [UNIQUE INDEX a_unique (a)]; the PostgreSQL create path drops its first
    token [UNIQUE], takes the second token, the word [INDEX], as the name
    and puts the rest, which starts with the synthesized name, where the
    column list goes. *)
Theorem unique_index_rewritten_as_plain (runtime : nat -> nat) (t : string) :
  let s := callback [CallUniqueIndex ["a"]] (newBlueprint runtime t) in
  indexes (bp s) = ["UNIQUE INDEX a_unique (a)"]
  /\ strings.Fields "UNIQUE INDEX a_unique (a)"
     = ["UNIQUE"; "INDEX"; "a_unique"; "(a)"]
  /\ postgresqlBlueprint.formatIndexSQL t "UNIQUE INDEX a_unique (a)"
     = "CREATE INDEX INDEX ON " ++ DQ ++ t ++ DQ ++ " a_unique (a)"
  /\ postgresqlBlueprint.toIndexSQL s
     = ["CREATE INDEX INDEX ON " ++ DQ ++ t ++ DQ ++ " a_unique (a)"].
Proof. repeat split; reflexivity. Qed.

(** ** The foreign-key builder materializes only complete keys (C7) *)

Lemma nth_error_update {A : Type} (g : A -> A) (l : list A) (i : nat) :
  nth_error (update i g l) i = option_map g (nth_error l i).
Proof.
  revert i; induction l as [|x l IH]; intros [|i]; simpl; auto.
Qed.

Lemma prefix_append (a b : string) : String.prefix a (a ++ b) = true.
Proof.
  induction a as [|x a IH]; simpl.
  - now destruct b.
  - destruct (ascii_dec x x) as [_|n]; [exact IH | now elim n].
Qed.

Lemma build_fkBuilders (f : nat) (s : store) :
  fkBuilders (foreignKeyBuilder.build f s) = fkBuilders s.
Proof.
  unfold foreignKeyBuilder.build.
  destruct (nth_error (fkBuilders s) f) as [fb|]; [|reflexivity].
  destruct ((foreignTable fb =? "") || (foreignColumn fb =? "")); reflexivity.
Qed.

(** [build] returns at once while the table or the column is missing. *)
Lemma build_incomplete (f : nat) (s : store) (fb : foreignKeyBuilder) :
  nth_error (fkBuilders s) f = Some fb ->
  foreignTable fb = "" \/ foreignColumn fb = "" ->
  foreignKeyBuilder.build f s = s.
Proof.
  intros Hfb H. unfold foreignKeyBuilder.build. rewrite Hfb.
  destruct H as [-> | ->]; simpl; [reflexivity|].
  now rewrite orb_true_r.
Qed.

(** Otherwise it appends one fragment, which starts with the header. *)
Lemma build_complete (f : nat) (s : store) (fb : foreignKeyBuilder) :
  nth_error (fkBuilders s) f = Some fb ->
  foreignTable fb <> "" -> foreignColumn fb <> "" ->
  exists frag,
    foreigns (bp (foreignKeyBuilder.build f s)) = append (foreigns (bp s)) frag
    /\ String.prefix
         (fkHeader (localColumn fb) (foreignTable fb) (foreignColumn fb)) frag
       = true.
Proof.
  intros Hfb Ht Hc. unfold foreignKeyBuilder.build. rewrite Hfb.
  apply String.eqb_neq in Ht, Hc. rewrite Ht, Hc. simpl orb. cbv iota.
  eexists; split; [reflexivity|].
  set (tail := ((if negb (onDelete fb =? "")
                 then " ON DELETE " ++ onDelete fb else "")
                ++ (if negb (onUpdate fb =? "")
                    then " ON UPDATE " ++ onUpdate fb else ""))).
  match goal with
  | |- String.prefix ?h ?frag = true =>
      replace frag with (h ++ tail); [apply prefix_append|]
  end.
  unfold tail, fkHeader, append.
  destruct (onDelete fb =? ""), (onUpdate fb =? ""); simpl;
    flatten_appends; reflexivity.
Qed.

Lemma writeBuilder_foreigns (f : nat) g (s : store) :
  foreigns (bp (writeBuilder f g s)) = foreigns (bp s).
Proof. reflexivity. Qed.

Lemma writeBuilder_at (f : nat) g (s : store) :
  nth_error (fkBuilders (writeBuilder f g s)) f
  = option_map g (nth_error (fkBuilders s) f).
Proof. apply nth_error_update. Qed.

Lemma configure_at (c : FKCall) (f : nat) (s : store) :
  nth_error (fkBuilders (configure c f s)) f
  = option_map (assign c) (nth_error (fkBuilders s) f).
Proof.
  destruct c; unfold configure; simpl;
    rewrite ?build_fkBuilders; apply writeBuilder_at.
Qed.

(** One call appends nothing, or one fragment for the key as it stands
    after the call, and then table and column are both known. *)
Lemma configure_foreigns (c : FKCall) (f : nat) (s : store) (fb : foreignKeyBuilder) :
  nth_error (fkBuilders (configure c f s)) f = Some fb ->
  foreigns (bp (configure c f s)) = foreigns (bp s)
  \/ (foreignTable fb <> "" /\ foreignColumn fb <> ""
      /\ exists frag,
           foreigns (bp (configure c f s)) = append (foreigns (bp s)) frag
           /\ String.prefix
                (fkHeader (localColumn fb) (foreignTable fb) (foreignColumn fb))
                frag = true).
Proof.
  intros Hfb.
  destruct c; [left; reflexivity | | |];
    unfold configure in *; simpl in *; rewrite build_fkBuilders in Hfb.
  all: destruct (string_dec (foreignTable fb) "") as [Ht|Ht];
    [left; erewrite build_incomplete; eauto|].
  all: destruct (string_dec (foreignColumn fb) "") as [Hc|Hc];
    [left; erewrite build_incomplete; eauto|].
  all: right; split; [exact Ht|]; split; [exact Hc|].
  all: destruct (build_complete _ _ _ Hfb Ht Hc) as [frag [H1 H2]].
  all: exists frag; split; [exact H1 | exact H2].
Qed.

(** The state of a builder during a session: its local column is the one
    given to [Foreign], its table and column are empty or were given to
    [On] and [References], and so far only fragments for such pairs were
    appended. *)
Lemma fkSession_invariant (col : string) (cs : list FKCall) (s : store) :
  exists fb added,
    nth_error (fkBuilders (fkSession col cs s)) (List.length (fkBuilders s))
    = Some fb
    /\ localColumn fb = col
    /\ (foreignTable fb = "" \/ In (DoOn (foreignTable fb)) cs)
    /\ (foreignColumn fb = "" \/ In (DoReferences (foreignColumn fb)) cs)
    /\ foreigns (bp (fkSession col cs s)) = (foreigns (bp s) ++ added)%list
    /\ Forall (fun frag =>
                 exists table c,
                   table <> "" /\ c <> ""
                   /\ In (DoOn table) cs /\ In (DoReferences c) cs
                   /\ String.prefix (fkHeader col table c) frag = true) added.
Proof.
  induction cs as [|c cs IH] using rev_ind.
  - exists (mkForeignKeyBuilder col "" "" "" ""), []. unfold fkSession; simpl.
    unfold append. rewrite nth_error_app2, Nat.sub_diag, app_nil_r by lia.
    repeat split; auto.
  - destruct IH as (fb & added & Hfb & Hl & Ht & Hc & Hf & Hall).
    unfold fkSession in *. simpl in *. rewrite fold_left_app. simpl.
    set (f := List.length (fkBuilders s)) in *.
    set (s1 := fold_left _ cs _) in *.
    assert (Hfb' : nth_error (fkBuilders (configure c f s1)) f = Some (assign c fb))
      by (rewrite configure_at, Hfb; reflexivity).
    assert (Hmono : forall P : FKCall -> Prop,
               (exists x, In x cs /\ P x) -> exists x, In x (cs ++ [c]) /\ P x).
    { intros P (x & Hx & HP). exists x. split; [apply in_or_app; now left | exact HP]. }
    assert (Ht' : foreignTable (assign c fb) = ""
                  \/ In (DoOn (foreignTable (assign c fb))) (cs ++ [c])).
    { destruct c; simpl; try (destruct Ht; [now left | right; apply in_or_app; now left]).
      right. apply in_or_app. right. now left. }
    assert (Hc' : foreignColumn (assign c fb) = ""
                  \/ In (DoReferences (foreignColumn (assign c fb))) (cs ++ [c])).
    { destruct c; simpl; try (destruct Hc; [now left | right; apply in_or_app; now left]).
      right. apply in_or_app. right. now left. }
    assert (Hall' : Forall (fun frag =>
                 exists table c0,
                   table <> "" /\ c0 <> ""
                   /\ In (DoOn table) (cs ++ [c]) /\ In (DoReferences c0) (cs ++ [c])
                   /\ String.prefix (fkHeader col table c0) frag = true) added).
    { eapply Forall_impl; [|exact Hall]. intros frag (t & c0 & ? & ? & ? & ? & ?).
      exists t, c0. repeat split; auto; apply in_or_app; now left. }
    assert (Hl' : localColumn (assign c fb) = col) by (destruct c; exact Hl).
    destruct (configure_foreigns c f s1 _ Hfb')
      as [Hsame | (Hnt & Hnc & frag & Happ & Hpre)].
    + exists (assign c fb), added. rewrite Hsame. repeat split; auto.
    + exists (assign c fb), (added ++ [frag])%list.
      rewrite Happ, Hf. unfold append. rewrite <- app_assoc.
      repeat split; auto.
      apply Forall_app. split; [exact Hall'|]. constructor; [|constructor].
      exists (foreignTable (assign c fb)), (foreignColumn (assign c fb)).
      rewrite Hl' in Hpre.
      repeat split; auto; [destruct Ht' | destruct Hc']; tauto.
Qed.

(** C7: a call on a foreign-key builder, in whatever store, appends
    nothing or exactly one fragment, and it appends one only if the table
    and the referenced column are both non-empty after the call; the
    fragment then starts with
    [FOREIGN KEY (localColumn) REFERENCES table (column)].  So over the
    life of a builder made by [Foreign(col)] the list is unchanged as long
    as [On] or [References] has not been called at all, and every fragment
    the builder appends starts with that header, for a non-empty table given
    to [On] and a non-empty column given to [References]. *)
Theorem fk_fragments_need_table_and_column
  (col : string) (cs : list FKCall) (s : store) :
  let s' := fkSession col cs s in
  (forall (x : store) (f : nat) (c : FKCall) (fb : foreignKeyBuilder),
      nth_error (fkBuilders (configure c f x)) f = Some fb ->
      foreigns (bp (configure c f x)) = foreigns (bp x)
      \/ (foreignTable fb <> "" /\ foreignColumn fb <> ""
          /\ exists frag,
               foreigns (bp (configure c f x)) = append (foreigns (bp x)) frag
               /\ String.prefix
                    (fkHeader (localColumn fb) (foreignTable fb)
                              (foreignColumn fb)) frag = true))
  /\ ((forall table, ~ In (DoOn table) cs)
      \/ (forall c, ~ In (DoReferences c) cs) ->
      foreigns (bp s') = foreigns (bp s))
  /\ exists added,
       foreigns (bp s') = (foreigns (bp s) ++ added)%list
       /\ Forall (fun frag =>
                    exists table c,
                      table <> "" /\ c <> ""
                      /\ In (DoOn table) cs /\ In (DoReferences c) cs
                      /\ String.prefix (fkHeader col table c) frag = true)
                 added.
Proof.
  intros s'.
  destruct (fkSession_invariant col cs s)
    as (fb0 & added & Hfb & Hl & Ht & Hc & Hf & Hall).
  fold s' in Hfb, Hf.
  split; [|split].
  - intros x f c fb Hfb'. exact (configure_foreigns c f x fb Hfb').
  - intros Hnone. rewrite Hf.
    destruct added as [|frag added]; [now rewrite app_nil_r|].
    inversion Hall as [|? ? (t & c & _ & _ & HOn & HRef & _) _]; subst.
    destruct Hnone as [H|H]; [elim (H t HOn) | elim (H c HRef)].
  - exists added. split; [exact Hf | exact Hall].
Qed.

(** [OnDelete] and [OnUpdate] before [On], then [References]: nothing is
    appended; the [On] that follows appends the first fragment. *)
Example fk_incomplete_then_complete :
  foreigns (bp (fkSession "user_id"
                  [DoOnDelete "CASCADE"; DoOnUpdate "CASCADE"; DoReferences "id"]
                  (newBlueprint (fun c => 2 * c) "posts"))) = []
  /\ foreigns (bp (fkSession "user_id"
                     [DoOnDelete "CASCADE"; DoOnUpdate "CASCADE";
                      DoReferences "id"; DoOn "users"]
                     (newBlueprint (fun c => 2 * c) "posts")))
     = ["FOREIGN KEY (user_id) REFERENCES users (id) ON DELETE CASCADE ON UPDATE CASCADE"].
Proof. split; reflexivity. Qed.

(** ** The MySQL CREATE TABLE statement (C4) *)

Lemma mysql_createColumnSQL_clauses (column : Column) :
  mysqlBlueprint.createColumnSQL column
  = "`" ++ Name column ++ "` " ++ Type_ column
      ++ (if Nullable column then "" else " NOT NULL")
      ++ match Default column with
         | Some value => " DEFAULT " ++ fmt.v value
         | None => ""
         end
      ++ (if Comment column =? "" then "" else " COMMENT '" ++ Comment column ++ "'").
Proof.
  unfold mysqlBlueprint.createColumnSQL.
  destruct (Nullable column), (Default column), (Comment column =? "");
    simpl; flatten_appends; reflexivity.
Qed.

Lemma mysql_toCreateSQL_parts (s : store) :
  mysqlBlueprint.toCreateSQL s
  = "CREATE TABLE `" ++ tableName (bp s) ++ "` (" ++ LF ++ "  "
      ++ strings.Join
           (map mysqlBlueprint.createColumnSQL (columnsOf s)
              ++ indexes (bp s) ++ foreigns (bp s))%list
           ("," ++ LF ++ "  ")
      ++ LF ++ ") ENGINE=InnoDB DEFAULT CHARSET=utf8mb4 COLLATE=utf8mb4_unicode_ci".
Proof.
  unfold mysqlBlueprint.toCreateSQL.
  rewrite (fold_left_append mysqlBlueprint.createColumnSQL).
  rewrite (fold_left_append (fun x : string => x)).
  rewrite (fold_left_append (fun x : string => x)).
  rewrite !map_id. simpl app. now rewrite <- app_assoc.
Qed.

(** The first append to the empty slice of a fresh blueprint allocates. *)
Lemma usersExample_columns (runtime : nat -> nat) (t : string) :
  columnsOf (usersExample (newBlueprint runtime t))
  = [mkColumn "name" "VARCHAR(255)" None false None false false "" "";
     mkColumn "age" "INT" None true (Some (VInt 0)) false false "" ""].
Proof.
  cbv. destruct (runtime 0) as [|[|n]]; reflexivity.
Qed.

(** C4: the MySQL create path executes exactly one statement,
    [CREATE TABLE `table` (] ... [) ENGINE=InnoDB DEFAULT CHARSET=utf8mb4
    COLLATE=utf8mb4_unicode_ci]; between the parentheses stand one clause
    per column in declaration order, then the index fragments, then the
    foreign-key fragments, each as stored, joined by a comma and a line feed
    (followed by the two blanks of the indentation).  A column clause is the
    name in backticks, the type literal, [NOT NULL] iff the column is not
    nullable, [DEFAULT value] with the value printed as it is iff a default
    is set, and [COMMENT 'text'] iff the comment is not empty.  For the
    columns [String("name", 255)] and [Integer("age").Nullable().Default(0)]
    the statement is the one written out below. *)
Theorem mysql_create_statement
  {W E : Type} (Exec : Handle W E) (runtime : nat -> nat) (db : W)
  (t : string) (cb : store -> store) :
  let s := cb (newBlueprint runtime t) in
  map fst (snd (fst (mysqlProvider.Create (recording Exec) runtime (db, []) t cb)))
  = [mysqlBlueprint.toCreateSQL s]
  /\ mysqlBlueprint.toCreateSQL s
     = "CREATE TABLE `" ++ tableName (bp s) ++ "` (" ++ LF ++ "  "
         ++ strings.Join
              (map mysqlBlueprint.createColumnSQL (columnsOf s)
                 ++ indexes (bp s) ++ foreigns (bp s))%list
              ("," ++ LF ++ "  ")
         ++ LF
         ++ ") ENGINE=InnoDB DEFAULT CHARSET=utf8mb4 COLLATE=utf8mb4_unicode_ci"
  /\ (forall column : Column,
        mysqlBlueprint.createColumnSQL column
        = "`" ++ Name column ++ "` " ++ Type_ column
            ++ (if Nullable column then "" else " NOT NULL")
            ++ match Default column with
               | Some value => " DEFAULT " ++ fmt.v value
               | None => ""
               end
            ++ (if Comment column =? "" then ""
                else " COMMENT '" ++ Comment column ++ "'"))
  /\ mysqlBlueprint.toCreateSQL (usersExample (newBlueprint runtime "users"))
     = "CREATE TABLE `users` (" ++ LF
         ++ "  `name` VARCHAR(255) NOT NULL," ++ LF
         ++ "  `age` INT DEFAULT 0" ++ LF
         ++ ") ENGINE=InnoDB DEFAULT CHARSET=utf8mb4 COLLATE=utf8mb4_unicode_ci".
Proof.
  intros s. split; [|split; [|split]].
  - unfold mysqlProvider.Create, recording. fold s.
    destruct (Exec (mysqlBlueprint.toCreateSQL s) db); reflexivity.
  - apply mysql_toCreateSQL_parts.
  - apply mysql_createColumnSQL_clauses.
  - rewrite mysql_toCreateSQL_parts, usersExample_columns.
    assert (Hb : bp (usersExample (newBlueprint runtime "users"))
                 = mkBlueprint "users"
                     (columns (bp (usersExample (newBlueprint runtime "users"))))
                     [] []).
    { cbv. destruct (runtime 0) as [|[|n]]; reflexivity. }
    rewrite Hb. reflexivity.
Qed.

(** ** Calls a renderer cannot see

    When a view [proj] of the frame is blind to the calls selected by
    [drop], and every other call acts on the view alone, a callback and the
    same callback without the selected calls end in the same view. *)

Section Blind.

Variable proj : frame -> frame.
Variable drop : Call -> bool.

Hypothesis dropped_unseen :
  forall fr c, drop c = true -> proj (step fr c) = proj fr.
Hypothesis kept_on_view :
  forall fr c, drop c = false -> proj (step fr c) = proj (step (proj fr) c).

Lemma run_blind (calls : list Call) :
  forall fr1 fr2,
    proj fr1 = proj fr2 ->
    proj (run calls fr1)
    = proj (run (filter (fun c => negb (drop c)) calls) fr2).
Proof.
  induction calls as [|c calls IH]; intros fr1 fr2 Heq; simpl; [exact Heq|].
  destruct (drop c) eqn:Hc; simpl.
  - apply IH. now rewrite dropped_unseen.
  - apply IH. rewrite (kept_on_view fr1), (kept_on_view fr2) by exact Hc.
    now rewrite Heq.
Qed.

Lemma run_blind_same_kept (calls1 calls2 : list Call) (fr : frame) :
  filter (fun c => negb (drop c)) calls1 = filter (fun c => negb (drop c)) calls2 ->
  proj (run calls1 fr) = proj (run calls2 fr).
Proof.
  intros Heq.
  rewrite (run_blind calls1 fr fr eq_refl), (run_blind calls2 fr fr eq_refl).
  now rewrite Heq.
Qed.

End Blind.

(** ** The alter path (C3) *)

Lemma build_only_foreigns (f : nat) (s : store) :
  growslice (foreignKeyBuilder.build f s) = growslice s
  /\ arrays (foreignKeyBuilder.build f s) = arrays s
  /\ withForeigns [] (bp (foreignKeyBuilder.build f s)) = withForeigns [] (bp s).
Proof.
  unfold foreignKeyBuilder.build.
  destruct (nth_error (fkBuilders s) f) as [fb|]; [|now repeat split].
  destruct ((foreignTable fb =? "") || (foreignColumn fb =? ""));
    now repeat split.
Qed.

Lemma configure_only_foreigns (c : FKCall) (f : nat) (s : store) :
  growslice (configure c f s) = growslice s
  /\ arrays (configure c f s) = arrays s
  /\ withForeigns [] (bp (configure c f s)) = withForeigns [] (bp s).
Proof.
  destruct c; unfold configure; simpl; [now repeat split | | |];
    match goal with
    | |- context [foreignKeyBuilder.build f ?s0] =>
        destruct (build_only_foreigns f s0) as (-> & -> & ->)
    end; now repeat split.
Qed.

Lemma forgetForeign_dropped (fr : frame) (c : Call) :
  isForeignCall c = true -> forgetForeign (step fr c) = forgetForeign fr.
Proof.
  destruct c as [| | | | | | col | k c]; try discriminate; intros _; simpl.
  - reflexivity.
  - destruct (nth_error (foreignBuilders fr) k) as [f|]; [|reflexivity].
    unfold forgetForeign; simpl.
    destruct (configure_only_foreigns c f (st fr)) as (-> & -> & ->).
    reflexivity.
Qed.

Lemma forgetForeign_kept (fr : frame) (c : Call) :
  isForeignCall c = false ->
  forgetForeign (step fr c) = forgetForeign (step (forgetForeign fr) c).
Proof.
  destruct c as [name ty | k m | cols | cols | cols | cols | |];
    try discriminate; intros _; simpl; try reflexivity.
  - unfold blueprint.AddColumn, appendColumn, columnsOf; simpl.
    destruct (_ <? _)%nat; reflexivity.
  - destruct (nth_error (columnBuilders fr) k) as [cb|]; [|reflexivity].
    destruct m; reflexivity.
Qed.

Lemma mysql_toAlterSQL_statements (s : store) :
  mysqlBlueprint.toAlterSQL s
  = (map (mysqlBlueprint.alterColumnSQL (tableName (bp s))) (columnsOf s)
     ++ map (fun index =>
               ("ALTER TABLE `" ++ tableName (bp s) ++ "` ADD " ++ index)%string)
            (indexes (bp s)))%list.
Proof.
  unfold mysqlBlueprint.toAlterSQL.
  rewrite (fold_left_append (mysqlBlueprint.alterColumnSQL (tableName (bp s)))).
  now rewrite fold_left_append.
Qed.

Lemma postgresql_toAlterSQL_statements (s : store) :
  postgresqlBlueprint.toAlterSQL s
  = (map (postgresqlBlueprint.alterColumnSQL (tableName (bp s))) (columnsOf s)
     ++ map (fun index =>
               ("ALTER TABLE " ++ DQ ++ tableName (bp s) ++ DQ ++ " ADD "
                  ++ strings.ReplaceAll index "`" DQ)%string)
            (indexes (bp s)))%list.
Proof.
  unfold postgresqlBlueprint.toAlterSQL.
  rewrite (fold_left_append (postgresqlBlueprint.alterColumnSQL (tableName (bp s)))).
  now rewrite fold_left_append.
Qed.

Lemma forgetForeign_run (calls : list Call) (fr : frame) :
  forgetForeign (run calls fr) = forgetForeign (run (withoutForeignCalls calls) fr).
Proof.
  apply (run_blind forgetForeign isForeignCall
           forgetForeign_dropped forgetForeign_kept calls fr fr eq_refl).
Qed.

Lemma toAlterSQL_forgetForeign (fr : frame) :
  mysqlBlueprint.toAlterSQL (st (forgetForeign fr)) = mysqlBlueprint.toAlterSQL (st fr)
  /\ postgresqlBlueprint.toAlterSQL (st (forgetForeign fr))
     = postgresqlBlueprint.toAlterSQL (st fr).
Proof.
  now rewrite !mysql_toAlterSQL_statements, !postgresql_toAlterSQL_statements.
Qed.

(** C3: on the alter path of either dialect the statements are one
    [ALTER TABLE ... ADD COLUMN ...] per column, in declaration order,
    followed by one [ALTER TABLE ... ADD fragment] per index fragment, in
    registration order (PostgreSQL writes the fragment with its backticks
    turned into double quotes).  The foreign-key list is not read: the
    statements are the same whatever it holds, and a callback produces the
    same statements as the same callback without its foreign-key calls. *)
Theorem alter_statements_ignore_foreign_keys
  (s : store) (fks : list string)
  (runtime : nat -> nat) (t : string) (calls : list Call) :
  mysqlBlueprint.toAlterSQL s
  = (map (mysqlBlueprint.alterColumnSQL (tableName (bp s))) (columnsOf s)
     ++ map (fun index =>
               ("ALTER TABLE `" ++ tableName (bp s) ++ "` ADD " ++ index)%string)
            (indexes (bp s)))%list
  /\ postgresqlBlueprint.toAlterSQL s
     = (map (postgresqlBlueprint.alterColumnSQL (tableName (bp s))) (columnsOf s)
        ++ map (fun index =>
                  ("ALTER TABLE " ++ DQ ++ tableName (bp s) ++ DQ ++ " ADD "
                     ++ strings.ReplaceAll index "`" DQ)%string)
               (indexes (bp s)))%list
  /\ (forall table column,
        mysqlBlueprint.alterColumnSQL table column
        = "ALTER TABLE `" ++ table ++ "` ADD COLUMN `" ++ Name column ++ "` "
            ++ Type_ column
            ++ (if Nullable column then "" else " NOT NULL")
            ++ match Default column with
               | Some value => " DEFAULT " ++ fmt.v value
               | None => ""
               end
            ++ (if After column =? "" then "" else " AFTER `" ++ After column ++ "`"))
  /\ (forall table column,
        postgresqlBlueprint.alterColumnSQL table column
        = "ALTER TABLE " ++ DQ ++ table ++ DQ ++ " ADD COLUMN "
            ++ DQ ++ Name column ++ DQ ++ " " ++ Type_ column
            ++ (if negb (Nullable column)
                   && negb (strings.Contains (Type_ column) "SERIAL")
                then " NOT NULL" else "")
            ++ match Default column with
               | Some value => " DEFAULT " ++ fmt.v value
               | None => ""
               end)
  /\ mysqlBlueprint.toAlterSQL (withBlueprint (withForeigns fks (bp s)) s)
     = mysqlBlueprint.toAlterSQL s
  /\ postgresqlBlueprint.toAlterSQL (withBlueprint (withForeigns fks (bp s)) s)
     = postgresqlBlueprint.toAlterSQL s
  /\ mysqlBlueprint.toAlterSQL (callback calls (newBlueprint runtime t))
     = mysqlBlueprint.toAlterSQL
         (callback (withoutForeignCalls calls) (newBlueprint runtime t))
  /\ postgresqlBlueprint.toAlterSQL (callback calls (newBlueprint runtime t))
     = postgresqlBlueprint.toAlterSQL
         (callback (withoutForeignCalls calls) (newBlueprint runtime t)).
Proof.
  split; [apply mysql_toAlterSQL_statements|].
  split; [apply postgresql_toAlterSQL_statements|].
  split.
  { intros table column. unfold mysqlBlueprint.alterColumnSQL.
    destruct (Nullable column), (Default column), (After column =? "");
      simpl; flatten_appends; reflexivity. }
  split.
  { intros table column. unfold postgresqlBlueprint.alterColumnSQL.
    destruct (negb (Nullable column)
              && negb (strings.Contains (Type_ column) "SERIAL")),
             (Default column);
      simpl; flatten_appends; reflexivity. }
  split; [now rewrite !mysql_toAlterSQL_statements|].
  split; [now rewrite !postgresql_toAlterSQL_statements|].
  unfold callback.
  set (fr := mkFrame (newBlueprint runtime t) [] []).
  destruct (toAlterSQL_forgetForeign (run calls fr)) as [Hm Hp].
  destruct (toAlterSQL_forgetForeign (run (withoutForeignCalls calls) fr))
    as [Hm' Hp'].
  rewrite <- Hm, <- Hp, <- Hm', <- Hp', forgetForeign_run. now split.
Qed.

(** ** Statement execution stops at the first error (C2) *)

Section Execution.

Context {W E : Type} (Exec : Handle W E).

Lemma execEach_app (l1 l2 : list string) (db : W) :
  execEach Exec (l1 ++ l2) db = orElse (execEach Exec l1 db) (execEach Exec l2).
Proof.
  revert db; induction l1 as [|sql l1 IH]; intros db; simpl; [reflexivity|].
  destruct (Exec sql db) as [db' [err|]]; [reflexivity | apply IH].
Qed.

(** Recording does not change what is executed nor what is returned. *)
Lemma execEach_recording_transparent (sqls : list string) (db : W) log :
  let r := execEach (recording Exec) sqls (db, log) in
  (fst (fst r), snd r) = execEach Exec sqls db.
Proof.
  revert db log; induction sqls as [|sql sqls IH]; intros db log; simpl;
    [reflexivity|].
  destruct (Exec sql db) as [db' [err|]]; [reflexivity | apply IH].
Qed.

Lemma execEach_recording_log (sqls : list string) (db : W) log :
  let r := execEach (recording Exec) sqls (db, log) in
  exists done,
    snd (fst r) = (log ++ done)%list /\ stopsAtFirstError sqls done (snd r).
Proof.
  revert db log; induction sqls as [|sql sqls IH]; intros db log; simpl.
  - exists []. rewrite app_nil_r. split; [reflexivity|].
    exists 0. simpl. auto.
  - destruct (Exec sql db) as [db' [err|]]; simpl.
    + exists [(sql, Some err)]. split; [reflexivity|].
      exists 1. simpl. repeat split; [lia|]. exists 0. auto.
    + destruct (IH db' (append log (sql, None))) as (done & Hlog & n & Hn & Hfst & Hres).
      exists ((sql, None) :: done). split.
      * rewrite Hlog. unfold append. now rewrite <- app_assoc.
      * exists (S n). simpl. repeat split; [lia | now rewrite Hfst |].
        destruct (snd (execEach (recording Exec) sqls (db', append log (sql, None))))
          as [err|].
        -- destruct Hres as (m & -> & Hsnd). exists (S m). simpl. now rewrite Hsnd.
        -- destruct Hres as (-> & Hsnd). now rewrite Hsnd.
Qed.

Lemma postgresql_Create_execEach (runtime : nat -> nat) (db : W) (t : string)
  (cb : store -> store) :
  let s := cb (newBlueprint runtime t) in
  postgresqlProvider.Create Exec runtime db t cb
  = execEach Exec (postgresqlBlueprint.toCreateTableSQL s
                     :: postgresqlBlueprint.toIndexSQL s
                     ++ postgresqlBlueprint.toForeignKeySQL s)%list db.
Proof.
  intros s. unfold postgresqlProvider.Create. fold s. simpl.
  destruct (Exec (postgresqlBlueprint.toCreateTableSQL s) db) as [db1 [err|]];
    simpl; [reflexivity|].
  rewrite execEach_app.
  destruct (execEach Exec (postgresqlBlueprint.toIndexSQL s) db1) as [db2 [err|]];
    simpl; [reflexivity|].
  destruct (execEach Exec (postgresqlBlueprint.toForeignKeySQL s) db2)
    as [db3 [err|]]; reflexivity.
Qed.

End Execution.

(** C2: each of MySQL [Table], PostgreSQL [Create] and PostgreSQL [Table]
    passes its statements to the handle in emission order and stops at the
    first one that fails: a recording handle has then seen exactly the
    statements up to and including the failing one, every earlier one
    succeeded, the error of the failing one is the result of the operation,
    and nothing further (no later statement, no rollback) was executed.
    With no failure every statement is executed and the result is nil.
    Recording changes neither the resulting database nor the result. *)
Theorem operations_stop_at_first_error
  {W E : Type} (Exec : Handle W E) (runtime : nat -> nat) (db : W)
  (t : string) (cb : store -> store) :
  let s := cb (newBlueprint runtime t) in
  (let r := mysqlProvider.Table (recording Exec) runtime (db, []) t cb in
   stopsAtFirstError (mysqlBlueprint.toAlterSQL s) (snd (fst r)) (snd r)
   /\ (fst (fst r), snd r) = mysqlProvider.Table Exec runtime db t cb)
  /\ (let r := postgresqlProvider.Create (recording Exec) runtime (db, []) t cb in
      stopsAtFirstError
        (postgresqlBlueprint.toCreateTableSQL s
           :: postgresqlBlueprint.toIndexSQL s
           ++ postgresqlBlueprint.toForeignKeySQL s)%list
        (snd (fst r)) (snd r)
      /\ (fst (fst r), snd r) = postgresqlProvider.Create Exec runtime db t cb)
  /\ (let r := postgresqlProvider.Table (recording Exec) runtime (db, []) t cb in
      stopsAtFirstError (postgresqlBlueprint.toAlterSQL s) (snd (fst r)) (snd r)
      /\ (fst (fst r), snd r) = postgresqlProvider.Table Exec runtime db t cb).
Proof.
  intros s.
  assert (Hloop : forall sqls,
             let r := execEach (recording Exec) sqls (db, []) in
             stopsAtFirstError sqls (snd (fst r)) (snd r)
             /\ (fst (fst r), snd r) = execEach Exec sqls db).
  { intros sqls r. split; [|apply execEach_recording_transparent].
    destruct (execEach_recording_log Exec sqls db []) as (done & Hlog & Hstop).
    fold r in Hlog, Hstop. rewrite Hlog. exact Hstop. }
  split; [|split].
  - apply Hloop.
  - rewrite !postgresql_Create_execEach. apply Hloop.
  - apply Hloop.
Qed.

(** ** The PostgreSQL rewrite of index fragments (C6) *)

(** A text without backticks is left alone by the replacement. *)
Lemma ReplaceAll_no_backtick (s : string) :
  strings.Contains s "`" = false -> strings.ReplaceAll s "`" DQ = s.
Proof.
  unfold strings.ReplaceAll.
  induction s as [|c s IH]; [reflexivity|].
  cbn [strings.Contains strings.replaceFrom String.prefix].
  destruct (ascii_dec "`" c) as [_|Hc].
  - replace (String.prefix "" s) with true by (now destruct s).
    intros H. discriminate H.
  - cbn [orb]. intros H. now rewrite (IH H).
Qed.

(** No field is empty. *)
Lemma fieldsFrom_nonempty (s : string) :
  forall skip cur, Forall (fun p => p <> "") (strings.fieldsFrom skip cur s).
Proof.
  assert (Hflush : forall cur, Forall (fun p => p <> "") (strings.flush cur)).
  { intros [|c cur]; simpl; repeat constructor; discriminate. }
  induction s as [|c s IH]; intros skip cur; [apply Hflush|].
  cbn [strings.fieldsFrom].
  destruct skip as [|k]; [|apply IH].
  destruct (strings.spaceWidth (String c s)) as [|w]; [apply IH|].
  apply Forall_app. split; [apply Hflush | apply IH].
Qed.

Lemma postgresql_toIndexSQL_statements (s : store) :
  postgresqlBlueprint.toIndexSQL s
  = map (postgresqlBlueprint.formatIndexSQL (tableName (bp s))) (indexes (bp s)).
Proof.
  unfold postgresqlBlueprint.toIndexSQL.
  now rewrite (fold_left_append (postgresqlBlueprint.formatIndexSQL (tableName (bp s)))).
Qed.

Lemma ReplaceAll_backticksToQuotes (s : string) :
  strings.ReplaceAll s "`" DQ = backticksToQuotes s.
Proof.
  unfold strings.ReplaceAll.
  induction s as [|c s IH]; [reflexivity|].
  cbn [strings.replaceFrom String.prefix backticksToQuotes String.length Nat.sub].
  destruct (ascii_dec "`" c) as [<-|Hc].
  - replace (String.prefix "" s) with true by (now destruct s).
    rewrite IH. reflexivity.
  - rewrite IH. destruct (Ascii.eqb_spec c "`") as [->|_]; [now elim Hc|].
    reflexivity.
Qed.

Lemma backticksToQuotes_no_backtick (s : string) :
  strings.Contains (backticksToQuotes s) "`" = false.
Proof.
  induction s as [|c s IH]; [reflexivity|].
  cbn [backticksToQuotes strings.Contains String.prefix].
  rewrite IH, orb_false_r.
  destruct (Ascii.eqb_spec c "`") as [->|Hc]; [reflexivity|].
  destruct (ascii_dec "`" c) as [E|_]; [now elim Hc|reflexivity].
Qed.

(** C6 as stated fails: the fragment [Primary] stores for the columns
    [`a`] and [`b`] has no [INDEX] in it, so it is one of the other
    fragments, and it is not returned unmodified: its backticks come back
    as double quotes. *)
Lemma postgresql_other_fragment_not_unmodified :
  indexes (bp (blueprint.Primary ["`a`"; "`b`"] (newBlueprint (fun c => 2 * c) "t")))
  = ["PRIMARY KEY (`a`, `b`)"]
  /\ strings.Contains "PRIMARY KEY (`a`, `b`)" "INDEX" = false
  /\ postgresqlBlueprint.formatIndexSQL "t" "PRIMARY KEY (`a`, `b`)"
     <> "PRIMARY KEY (`a`, `b`)".
Proof.
  split; [reflexivity|]. split; [reflexivity|]. vm_compute. discriminate.
Qed.

(** C6, amended: the create path rewrites each index fragment on its own.
    First every backtick of the fragment is turned into a double quote,
    the other bytes kept.  The result is
    [CREATE INDEX second-field ON "table" rest], the rest being the third
    and later fields joined by single blanks, exactly when that text
    contains [INDEX] somewhere (inside a name too), contains [CREATE]
    nowhere, and has at least three white-space-separated fields; otherwise
    the result is that text: the fragment with its backticks replaced, which
    is the fragment itself exactly when it has no backtick.
    [Index("a","b")] on table [t] gives
    [CREATE INDEX a_b_index ON "t" (a, b)]; a [PRIMARY KEY (a, b)] fragment
    is returned as it is, and [PRIMARY KEY (`a`, `b`)] comes back as
    [PRIMARY KEY ("a", "b")]; the fragment of [Index("`a`")] is rewritten
    from the text with the double quotes; the fragment of
    [Index("CREATED_AT")] is left as stored, for the [CREATE] in its
    name. *)
Theorem postgresql_index_rewrite
  (t index : string) (s : store) (runtime : nat -> nat) :
  let text := strings.ReplaceAll index "`" DQ in
  let parts := strings.Fields text in
  postgresqlBlueprint.formatIndexSQL t index
  = (if strings.Contains text "INDEX"
        && negb (strings.Contains text "CREATE")
        && (3 <=? List.length parts)%nat
     then "CREATE INDEX " ++ nth 1 parts "" ++ " ON " ++ DQ ++ t ++ DQ ++ " "
            ++ strings.Join (skipn 2 parts) " "
     else text)
  /\ Forall (fun p => p <> "") parts
  /\ text = backticksToQuotes index
  /\ (text = index <-> strings.Contains index "`" = false)
  /\ postgresqlBlueprint.toIndexSQL s
     = map (postgresqlBlueprint.formatIndexSQL (tableName (bp s))) (indexes (bp s))
  /\ postgresqlBlueprint.toIndexSQL
       (blueprint.Index ["a"; "b"] (newBlueprint runtime t))
     = ["CREATE INDEX a_b_index ON " ++ DQ ++ t ++ DQ ++ " (a, b)"]
  /\ postgresqlBlueprint.toIndexSQL
       (blueprint.Primary ["a"; "b"] (newBlueprint runtime t))
     = ["PRIMARY KEY (a, b)"]
  /\ postgresqlBlueprint.toIndexSQL
       (blueprint.Primary ["`a`"; "`b`"] (newBlueprint runtime t))
     = ["PRIMARY KEY (" ++ DQ ++ "a" ++ DQ ++ ", " ++ DQ ++ "b" ++ DQ ++ ")"]
  /\ postgresqlBlueprint.toIndexSQL
       (blueprint.Index ["`a`"] (newBlueprint runtime t))
     = ["CREATE INDEX " ++ DQ ++ "a" ++ DQ ++ "_index ON " ++ DQ ++ t ++ DQ
        ++ " (" ++ DQ ++ "a" ++ DQ ++ ")"]
  /\ postgresqlBlueprint.toIndexSQL
       (blueprint.Index ["CREATED_AT"] (newBlueprint runtime t))
     = ["INDEX CREATED_AT_index (CREATED_AT)"].
Proof.
  intros text parts.
  split; [|split; [|split; [|split; [|split; [|split; [|split; [|split; [|split]]]]]]]].
  - unfold postgresqlBlueprint.formatIndexSQL. fold text parts.
    destruct (strings.Contains text "INDEX" && negb (strings.Contains text "CREATE"));
      [|reflexivity].
    rewrite andb_true_l. destruct (3 <=? List.length parts)%nat; reflexivity.
  - apply fieldsFrom_nonempty.
  - apply ReplaceAll_backticksToQuotes.
  - split.
    + intros E. rewrite <- E. unfold text.
      rewrite ReplaceAll_backticksToQuotes. apply backticksToQuotes_no_backtick.
    + apply ReplaceAll_no_backtick.
  - apply postgresql_toIndexSQL_statements.
  - reflexivity.
  - reflexivity.
  - reflexivity.
  - reflexivity.
  - reflexivity.
Qed.

(** ** Writes through slices and column builders *)

Lemma update_length {A : Type} (f : A -> A) (l : list A) (i : nat) :
  List.length (update i f l) = List.length l.
Proof.
  revert i; induction l as [|x l IH]; intros [|i]; simpl; auto.
Qed.

Lemma nth_update_same {A : Type} (f : A -> A) (l : list A) (i : nat) (d : A) :
  i < List.length l -> nth i (update i f l) d = f (nth i l d).
Proof.
  revert i; induction l as [|x l IH]; intros [|i] H; simpl in *; try lia; auto.
  apply IH. lia.
Qed.

Lemma update_last {A : Type} (f : A -> A) (l : list A) (x : A) :
  update (List.length l) f (l ++ [x])%list = (l ++ [f x])%list.
Proof. induction l as [|y l IH]; simpl; [reflexivity | now rewrite IH]. Qed.

Lemma update_id {A : Type} (l : list A) (i : nat) : update i (fun x => x) l = l.
Proof.
  revert i; induction l as [|x l IH]; intros [|i]; simpl; auto. now rewrite IH.
Qed.

(** [AddColumn] on a live slice: the new column is the last element of the
    slice, and the builder returned points at it. *)
Lemma AddColumn_live (name ty : string) (s : store) :
  live s ->
  let r := blueprint.AddColumn name ty s in
  live (snd r)
  /\ columnsOf (snd r)
     = append (columnsOf s) (mkColumn name ty None false None false false "" "")
  /\ column (fst r)
     = (ptr (columns (bp (snd r))), List.length (columnsOf s)).
Proof.
  intros Hlive. unfold live in *.
  unfold blueprint.AddColumn, appendColumn. simpl.
  destruct (_ <? _)%nat; simpl.
  - assert (Hc : columnsOf
                   (withArrays
                      (update (ptr (columns (bp s)))
                         (fun a => append a (mkColumn name ty None false None false false "" ""))
                         (arrays s)) s)
                 = append (columnsOf s)
                     (mkColumn name ty None false None false false "" "")).
    { unfold columnsOf; simpl. now rewrite nth_update_same. }
    rewrite Hc, update_length. unfold append at 2 3. rewrite length_app. simpl.
    repeat split; auto. f_equal. lia.
  - assert (Hc : columnsOf
                   (withBlueprint
                      (withColumns
                         (mkSlice (List.length (arrays s))
                            (Nat.max (List.length (columnsOf s) + 1)
                               (growslice s (cap (columns (bp s))))))
                         (bp s))
                      (withArrays
                         (append (arrays s)
                            (append (columnsOf s)
                               (mkColumn name ty None false None false false "" "")))
                         s))
                 = append (columnsOf s)
                     (mkColumn name ty None false None false false "" "")).
    { unfold columnsOf at 1; simpl. unfold append at 1.
      now rewrite app_nth2, Nat.sub_diag by lia. }
    rewrite Hc. unfold append at 1 3 4. rewrite !length_app. simpl.
    repeat split; try lia; auto.
    unfold append; rewrite length_app; simpl; f_equal; lia.
Qed.

(** A modifier called on a builder that points into the live array writes
    to the slice. *)
Lemma modify_live (m : Modifier) (cb : columnBuilder) (s : store) (i : nat) :
  live s ->
  column cb = (ptr (columns (bp s)), i) ->
  live (modify m cb s)
  /\ ptr (columns (bp (modify m cb s))) = ptr (columns (bp s))
  /\ columnsOf (modify m cb s) = update i (written m) (columnsOf s).
Proof.
  intros Hlive Hcb. unfold live in *.
  destruct m; simpl; unfold writeColumn, columnsOf; simpl;
    rewrite ?Hcb; simpl; rewrite ?update_length, ?update_id;
    repeat split; auto; now rewrite nth_update_same.
Qed.

Lemma modifiers_on_last (ms : list Modifier) (cb : columnBuilder) :
  forall (s : store) (before : list Column) (c : Column),
    live s ->
    column cb = (ptr (columns (bp s)), List.length before) ->
    columnsOf s = append before c ->
    columnsOf (fold_left (fun s m => modify m cb s) ms s)
    = append before (fold_left (fun c m => written m c) ms c).
Proof.
  induction ms as [|m ms IH]; intros s before c Hlive Hcb Hcols; simpl;
    [exact Hcols|].
  destruct (modify_live m cb s _ Hlive Hcb) as (Hlive' & Hptr & Hcols').
  apply IH; [exact Hlive' | now rewrite Hptr |].
  rewrite Hcols', Hcols. apply update_last.
Qed.

Lemma written_keeps_name_and_type (ms : list Modifier) (c : Column) :
  Name (fold_left (fun c m => written m c) ms c) = Name c
  /\ Type_ (fold_left (fun c m => written m c) ms c) = Type_ c.
Proof.
  revert c; induction ms as [|m ms IH]; intros c; simpl; [now split|].
  destruct (IH (written m c)) as [-> ->]. now destruct m.
Qed.

(** A column made by [AddColumn] and modified at once is the last column
    of the slice; the modifiers change neither its name nor its type. *)
Lemma chained_AddColumn (name ty : string) (ms : list Modifier) (s : store) :
  live s ->
  exists c,
    columnsOf (chained (blueprint.AddColumn name ty) ms s) = append (columnsOf s) c
    /\ Name c = name /\ Type_ c = ty.
Proof.
  intros Hlive. unfold chained.
  destruct (AddColumn_live name ty s Hlive) as (Hlive' & Hcols & Hcb).
  destruct (blueprint.AddColumn name ty s) as [cb s1]. simpl in *.
  exists (fold_left (fun c m => written m c) ms
            (mkColumn name ty None false None false false "" "")).
  split; [now apply modifiers_on_last|].
  apply written_keeps_name_and_type.
Qed.

Lemma newBlueprint_live (runtime : nat -> nat) (t : string) :
  live (newBlueprint runtime t).
Proof. unfold live; simpl; lia. Qed.

Lemma step_live (fr : frame) (c : Call) : live (st fr) -> live (st (step fr c)).
Proof.
  intros Hlive. destruct c as [name ty | k m | | | | | col | k c]; simpl; auto.
  - exact (proj1 (AddColumn_live name ty (st fr) Hlive)).
  - destruct (nth_error (columnBuilders fr) k) as [cb|]; [|exact Hlive].
    unfold live in *. destruct m; simpl; unfold writeColumn; simpl;
      now rewrite ?update_length.
  - destruct (nth_error (foreignBuilders fr) k) as [f|]; [|exact Hlive].
    unfold live in *. simpl.
    destruct (configure_only_foreigns c f (st fr)) as (_ & Ha & Hb).
    rewrite Ha.
    replace (ptr (columns (bp (configure c f (st fr)))))
      with (ptr (columns (withForeigns [] (bp (configure c f (st fr))))))
      by reflexivity.
    now rewrite Hb.
Qed.

Lemma run_live (calls : list Call) :
  forall fr, live (st fr) -> live (st (run calls fr)).
Proof.
  induction calls as [|c calls IH]; intros fr Hl; simpl; [exact Hl|].
  apply IH, step_live, Hl.
Qed.

Lemma callback_live (calls : list Call) (s : store) :
  live s -> live (callback calls s).
Proof. intros Hl. apply run_live. exact Hl. Qed.

(** ** NOT NULL in the PostgreSQL CREATE TABLE statement (C5) *)

Lemma postgresql_createColumnSQL_clauses (column : Column) :
  postgresqlBlueprint.createColumnSQL column
  = DQ ++ Name column ++ DQ ++ " " ++ Type_ column
      ++ (if strings.Contains (Type_ column) "SERIAL" then ""
          else if Nullable column then "" else " NOT NULL")
      ++ match Default column with
         | Some value => " DEFAULT " ++ postgresqlBlueprint.formatDefaultValue value
         | None => ""
         end.
Proof.
  unfold postgresqlBlueprint.createColumnSQL.
  destruct (strings.Contains (Type_ column) "SERIAL"), (Nullable column),
    (Default column); simpl; flatten_appends; reflexivity.
Qed.

Lemma postgresql_toCreateTableSQL_parts (s : store) :
  postgresqlBlueprint.toCreateTableSQL s
  = "CREATE TABLE " ++ DQ ++ tableName (bp s) ++ DQ ++ " (" ++ LF ++ "  "
      ++ strings.Join (map postgresqlBlueprint.createColumnSQL (columnsOf s))
                      ("," ++ LF ++ "  ")
      ++ LF ++ ")".
Proof.
  unfold postgresqlBlueprint.toCreateTableSQL.
  now rewrite (fold_left_append postgresqlBlueprint.createColumnSQL).
Qed.

(** C5: the PostgreSQL [CREATE TABLE] statement has one clause per column;
    a clause whose type literal contains [SERIAL] has no [NOT NULL],
    whatever the nullability flag, and any other clause has [NOT NULL]
    exactly when the flag is false.  A column made by [Serial(name)] has the
    type literal [SERIAL], with whatever modifiers chained to it, so its
    clause is the quoted name, [SERIAL] and the default, if any. *)
Theorem postgresql_not_null_unless_serial
  (runtime : nat -> nat) (t : string) (calls : list Call)
  (name : string) (ms : list Modifier) :
  let s := callback calls (newBlueprint runtime t) in
  let s' := chained (postgresqlBlueprint.Serial name) ms s in
  (forall column : Column,
      postgresqlBlueprint.createColumnSQL column
      = DQ ++ Name column ++ DQ ++ " " ++ Type_ column
          ++ (if strings.Contains (Type_ column) "SERIAL" then ""
              else if Nullable column then "" else " NOT NULL")
          ++ match Default column with
             | Some value =>
                 " DEFAULT " ++ postgresqlBlueprint.formatDefaultValue value
             | None => ""
             end)
  /\ (forall (column : Column) (flag : bool),
        strings.Contains (Type_ column) "SERIAL" = true ->
        postgresqlBlueprint.createColumnSQL (setNullable flag column)
        = postgresqlBlueprint.createColumnSQL column)
  /\ postgresqlBlueprint.toCreateTableSQL s'
     = "CREATE TABLE " ++ DQ ++ tableName (bp s') ++ DQ ++ " (" ++ LF ++ "  "
         ++ strings.Join (map postgresqlBlueprint.createColumnSQL (columnsOf s'))
                         ("," ++ LF ++ "  ")
         ++ LF ++ ")"
  /\ exists c : Column,
       columnsOf s' = append (columnsOf s) c
       /\ Name c = name
       /\ Type_ c = "SERIAL"
       /\ postgresqlBlueprint.createColumnSQL c
          = DQ ++ name ++ DQ ++ " SERIAL"
              ++ match Default c with
                 | Some value =>
                     " DEFAULT " ++ postgresqlBlueprint.formatDefaultValue value
                 | None => ""
                 end.
Proof.
  intros s s'. split; [apply postgresql_createColumnSQL_clauses|].
  split.
  { intros column flag H. rewrite !postgresql_createColumnSQL_clauses.
    simpl. now rewrite H. }
  split; [apply postgresql_toCreateTableSQL_parts|].
  assert (Hlive : live s) by apply callback_live, newBlueprint_live.
  destruct (chained_AddColumn name "SERIAL" ms s Hlive) as (c & Hcols & Hn & Ht).
  exists c. repeat split; auto.
  rewrite postgresql_createColumnSQL_clauses, Hn, Ht. reflexivity.
Qed.

(** ** The flags set by [Unique()] and [Primary()] are never rendered (C9) *)

Lemma map_update_absorb {A B : Type} (f : A -> B) (g : A -> A) (l : list A) (i : nat) :
  (forall x, f (g x) = f x) -> map f (update i g l) = map f l.
Proof.
  intros H. revert i; induction l as [|x l IH]; intros [|i]; simpl; auto.
  - now rewrite H.
  - now rewrite IH.
Qed.

Lemma map_update_commute {A : Type} (f g g' : A -> A) (l : list A) (i : nat) :
  (forall x, f (g x) = g' (f x)) -> map f (update i g l) = update i g' (map f l).
Proof.
  intros H. revert i; induction l as [|x l IH]; intros [|i]; simpl; auto.
  - now rewrite H.
  - now rewrite IH.
Qed.

Lemma clearFlag_idempotent (c : Column) : clearFlag (clearFlag c) = clearFlag c.
Proof. reflexivity. Qed.

Lemma forgetFlags_idempotent (fr : frame) :
  forgetFlags (forgetFlags fr) = forgetFlags fr.
Proof.
  unfold forgetFlags, withArrays; simpl. f_equal. f_equal.
  rewrite map_map. apply map_ext. intros a. rewrite map_map.
  apply map_ext. intros c. apply clearFlag_idempotent.
Qed.

Lemma columnsOf_clearFlag (s : store) :
  columnsOf (withArrays (map (map clearFlag) (arrays s)) s)
  = map clearFlag (columnsOf s).
Proof.
  unfold columnsOf; simpl.
  now rewrite <- (map_nth (map clearFlag)).
Qed.

Lemma columnsOf_forgetFlags (fr : frame) :
  columnsOf (st (forgetFlags fr)) = map clearFlag (columnsOf (st fr)).
Proof. apply columnsOf_clearFlag. Qed.

Lemma readColumn_forgetFlags (cb : columnBuilder) (fr : frame) :
  readColumn cb (st (forgetFlags fr)) = clearFlag (readColumn cb (st fr)).
Proof.
  unfold readColumn; simpl.
  change (@nil Column) with (map clearFlag []) at 1.
  rewrite (map_nth (map clearFlag)).
  now rewrite <- (map_nth clearFlag).
Qed.

Lemma build_withArrays (f : nat) (a : list (list Column)) (s : store) :
  foreignKeyBuilder.build f (withArrays a s)
  = withArrays a (foreignKeyBuilder.build f s).
Proof.
  unfold foreignKeyBuilder.build.
  change (fkBuilders (withArrays a s)) with (fkBuilders s).
  destruct (nth_error (fkBuilders s) f) as [fb|]; [|reflexivity].
  destruct ((foreignTable fb =? "") || (foreignColumn fb =? "")); reflexivity.
Qed.

Lemma configure_withArrays (c : FKCall) (f : nat) (a : list (list Column)) (s : store) :
  configure c f (withArrays a s) = withArrays a (configure c f s).
Proof.
  destruct c; unfold configure; simpl; [reflexivity | | |];
    match goal with
    | |- foreignKeyBuilder.build f (writeBuilder f ?g (withArrays a s)) = _ =>
        change (writeBuilder f g (withArrays a s))
          with (withArrays a (writeBuilder f g s))
    end; apply build_withArrays.
Qed.

(** A call that sets a flag is not seen once the flags are forgotten. *)
Lemma forgetFlags_dropped (fr : frame) (c : Call) :
  setsFlag c = true -> forgetFlags (step fr c) = forgetFlags fr.
Proof.
  destruct c as [| k m | | | | | |]; try discriminate.
  destruct m; try discriminate; intros _; simpl;
    (destruct (nth_error (columnBuilders fr) k) as [cb|]; [|reflexivity]);
    unfold forgetFlags, writeColumn, withArrays; simpl; f_equal; f_equal;
    apply map_update_absorb; intros a; apply map_update_absorb; reflexivity.
Qed.

Lemma written_clearFlag (m : Modifier) (c : Column) :
  setsFlag (CallColumn 0 m) = false ->
  clearFlag (written m c) = written m (clearFlag c).
Proof. destruct m; try discriminate; reflexivity. Qed.

Lemma appendColumn_forgetFlags (name ty : string) (fr : frame) :
  let c := mkColumn name ty None false None false false "" "" in
  st (forgetFlags (mkFrame (appendColumn c (st fr))
                           (columnBuilders fr) (foreignBuilders fr)))
  = appendColumn c (st (forgetFlags fr)).
Proof.
  intros c. unfold appendColumn.
  rewrite columnsOf_forgetFlags, length_map.
  change (cap (columns (bp (st (forgetFlags fr)))))
    with (cap (columns (bp (st fr)))).
  destruct (_ <? _)%nat; unfold forgetFlags, withArrays, withBlueprint; simpl.
  - f_equal. apply map_update_commute. intros a. unfold append.
    now rewrite map_app.
  - rewrite length_map. unfold append. rewrite !map_app. simpl.
    rewrite map_app. reflexivity.
Qed.

(** Every other call acts on the frame with its flags forgotten as it acts
    on the frame itself. *)
Lemma forgetFlags_commutes (fr : frame) (c : Call) :
  setsFlag c = false -> forgetFlags (step fr c) = step (forgetFlags fr) c.
Proof.
  intros Hc.
  destruct c as [name ty | k m | cols | cols | cols | cols | col | k c];
    try reflexivity.
  - simpl. unfold blueprint.AddColumn.
    pose proof (appendColumn_forgetFlags name ty fr) as H. simpl in H.
    rewrite <- H. unfold forgetFlags; simpl.
    now rewrite columnsOf_clearFlag, length_map.
  - simpl.
    destruct (nth_error (columnBuilders fr) k) as [cb|]; [|reflexivity].
    destruct m; try discriminate;
      unfold modify, columnBuilder.Nullable, columnBuilder.NotNullable,
        columnBuilder.Default, columnBuilder.Comment, columnBuilder.After,
        columnBuilder.Index; cbn [snd];
      try (unfold forgetFlags, writeColumn, withArrays; simpl; f_equal; f_equal;
           apply map_update_commute; intros a; apply map_update_commute;
           reflexivity).
    change (withArrays (map (map clearFlag) (arrays (st fr))) (st fr))
      with (st (forgetFlags fr)).
    rewrite readColumn_forgetFlags. reflexivity.
  - simpl.
    destruct (nth_error (foreignBuilders fr) k) as [f|]; [|reflexivity].
    unfold forgetFlags; simpl.
    rewrite configure_withArrays.
    destruct (configure_only_foreigns c f (st fr)) as (_ & Ha & _).
    now rewrite Ha.
Qed.

Lemma forgetFlags_kept (fr : frame) (c : Call) :
  setsFlag c = false ->
  forgetFlags (step fr c) = forgetFlags (step (forgetFlags fr) c).
Proof.
  intros Hc.
  now rewrite !forgetFlags_commutes, forgetFlags_idempotent by exact Hc.
Qed.

(** No renderer reads [Primary] or [Unique]. *)
Lemma column_renderers_ignore_flags (table : string) (c : Column) :
  mysqlBlueprint.createColumnSQL (clearFlag c) = mysqlBlueprint.createColumnSQL c
  /\ mysqlBlueprint.alterColumnSQL table (clearFlag c)
     = mysqlBlueprint.alterColumnSQL table c
  /\ postgresqlBlueprint.createColumnSQL (clearFlag c)
     = postgresqlBlueprint.createColumnSQL c
  /\ postgresqlBlueprint.alterColumnSQL table (clearFlag c)
     = postgresqlBlueprint.alterColumnSQL table c.
Proof. repeat split; reflexivity. Qed.

Lemma rendered_forgetFlags (fr : frame) :
  rendered (st (forgetFlags fr)) = rendered (st fr).
Proof.
  unfold rendered.
  rewrite !mysql_toCreateSQL_parts, !mysql_toAlterSQL_statements,
    !postgresql_toCreateTableSQL_parts, !postgresql_toAlterSQL_statements,
    !columnsOf_forgetFlags, !map_map.
  unfold postgresqlBlueprint.toIndexSQL, postgresqlBlueprint.toForeignKeySQL.
  reflexivity.
Qed.

Lemma rendered_without_flag_calls (calls1 calls2 : list Call) (s : store) :
  withoutFlagCalls calls1 = withoutFlagCalls calls2 ->
  rendered (callback calls1 s) = rendered (callback calls2 s).
Proof.
  intros Heq. unfold callback.
  rewrite <- (rendered_forgetFlags (run calls1 _)),
          <- (rendered_forgetFlags (run calls2 _)).
  f_equal. f_equal.
  apply (run_blind_same_kept forgetFlags setsFlag
           forgetFlags_dropped forgetFlags_kept).
  exact Heq.
Qed.

(** C9: two callbacks that make the same calls except for [Unique()] and
    [Primary()] on column builders lead to the same text on every path:
    the MySQL create statement and alter statements, the PostgreSQL create
    statement, index statements and foreign-key statements and the
    PostgreSQL alter statements are equal, and so the four operations do the
    same to any database handle. *)
Theorem flags_never_rendered
  {W E : Type} (Exec : Handle W E) (runtime : nat -> nat) (db : W) (t : string)
  (calls1 calls2 : list Call) :
  withoutFlagCalls calls1 = withoutFlagCalls calls2 ->
  let s1 := callback calls1 (newBlueprint runtime t) in
  let s2 := callback calls2 (newBlueprint runtime t) in
  mysqlBlueprint.toCreateSQL s1 = mysqlBlueprint.toCreateSQL s2
  /\ mysqlBlueprint.toAlterSQL s1 = mysqlBlueprint.toAlterSQL s2
  /\ postgresqlBlueprint.toCreateTableSQL s1 = postgresqlBlueprint.toCreateTableSQL s2
  /\ postgresqlBlueprint.toIndexSQL s1 = postgresqlBlueprint.toIndexSQL s2
  /\ postgresqlBlueprint.toForeignKeySQL s1 = postgresqlBlueprint.toForeignKeySQL s2
  /\ postgresqlBlueprint.toAlterSQL s1 = postgresqlBlueprint.toAlterSQL s2
  /\ mysqlProvider.Create Exec runtime db t (callback calls1)
     = mysqlProvider.Create Exec runtime db t (callback calls2)
  /\ mysqlProvider.Table Exec runtime db t (callback calls1)
     = mysqlProvider.Table Exec runtime db t (callback calls2)
  /\ postgresqlProvider.Create Exec runtime db t (callback calls1)
     = postgresqlProvider.Create Exec runtime db t (callback calls2)
  /\ postgresqlProvider.Table Exec runtime db t (callback calls1)
     = postgresqlProvider.Table Exec runtime db t (callback calls2).
Proof.
  intros Heq s1 s2.
  pose proof (rendered_without_flag_calls calls1 calls2
                (newBlueprint runtime t) Heq) as H.
  fold s1 s2 in H.
  pose proof (f_equal (fun r => fst (fst (fst r))) H) as H1.
  pose proof (f_equal (fun r => snd (fst (fst r))) H) as H2.
  pose proof (f_equal (fun r => fst (fst (snd (fst r)))) H) as H3.
  pose proof (f_equal (fun r => snd (fst (snd (fst r)))) H) as H4.
  pose proof (f_equal (fun r => snd (snd (fst r))) H) as H5.
  pose proof (f_equal (fun r => snd r) H) as H6.
  cbn [rendered fst snd] in H1, H2, H3, H4, H5, H6.
  unfold mysqlProvider.Create, mysqlProvider.Table,
    postgresqlProvider.Create, postgresqlProvider.Table.
  fold s1 s2. rewrite H1, H2, H3, H4, H5, H6.
  repeat split; reflexivity.
Qed.

(** A unique, primary e-mail column and the same column without the two
    calls. *)
Lemma flags_never_rendered_witness :
  let Exec : Handle nat string := fun _ n => (S n, None) in
  let calls1 := [CallAddColumn "email" "VARCHAR(255)";
                 CallColumn 0 DoUnique; CallColumn 0 DoPrimary] in
  let calls2 := [CallAddColumn "email" "VARCHAR(255)"] in
  let s1 := callback calls1 (newBlueprint (fun c => 2 * c) "users") in
  let s2 := callback calls2 (newBlueprint (fun c => 2 * c) "users") in
  mysqlBlueprint.toCreateSQL s1 = mysqlBlueprint.toCreateSQL s2
  /\ mysqlBlueprint.toAlterSQL s1 = mysqlBlueprint.toAlterSQL s2
  /\ postgresqlBlueprint.toCreateTableSQL s1 = postgresqlBlueprint.toCreateTableSQL s2
  /\ postgresqlBlueprint.toIndexSQL s1 = postgresqlBlueprint.toIndexSQL s2
  /\ postgresqlBlueprint.toForeignKeySQL s1 = postgresqlBlueprint.toForeignKeySQL s2
  /\ postgresqlBlueprint.toAlterSQL s1 = postgresqlBlueprint.toAlterSQL s2
  /\ mysqlProvider.Create Exec (fun c => 2 * c) 0 "users" (callback calls1)
     = mysqlProvider.Create Exec (fun c => 2 * c) 0 "users" (callback calls2)
  /\ mysqlProvider.Table Exec (fun c => 2 * c) 0 "users" (callback calls1)
     = mysqlProvider.Table Exec (fun c => 2 * c) 0 "users" (callback calls2)
  /\ postgresqlProvider.Create Exec (fun c => 2 * c) 0 "users" (callback calls1)
     = postgresqlProvider.Create Exec (fun c => 2 * c) 0 "users" (callback calls2)
  /\ postgresqlProvider.Table Exec (fun c => 2 * c) 0 "users" (callback calls1)
     = postgresqlProvider.Table Exec (fun c => 2 * c) 0 "users" (callback calls2).
Proof.
  intros Exec calls1 calls2.
  apply (flags_never_rendered Exec (fun c => 2 * c) 0 "users" calls1 calls2).
  reflexivity.
Defined.

(** ** The operations on a failing handle *)

(** PostgreSQL [Create] when the second statement fails: the table and the
    index statement were executed, the foreign-key statement was not, and
    the error of the index statement is returned. *)
Example postgresql_Create_second_fails :
  postgresqlProvider.Create (recording (failAt 1)) (fun c => 2 * c) (0, []) "posts"
    (callback postsExample)
  = ((2, [("CREATE TABLE " ++ DQ ++ "posts" ++ DQ ++ " (" ++ LF
             ++ "  " ++ DQ ++ "id" ++ DQ ++ " SERIAL" ++ LF ++ ")", None);
          ("CREATE INDEX a_index ON " ++ DQ ++ "posts" ++ DQ ++ " (a)",
           Some "boom")]),
     Some "boom").
Proof. reflexivity. Qed.

(** The same operation on a handle that never fails. *)
Example postgresql_Create_all_succeed :
  map fst (snd (fst (postgresqlProvider.Create (recording (failAt 7))
                       (fun c => 2 * c) (0, []) "posts" (callback postsExample))))
  = ["CREATE TABLE " ++ DQ ++ "posts" ++ DQ ++ " (" ++ LF
       ++ "  " ++ DQ ++ "id" ++ DQ ++ " SERIAL" ++ LF ++ ")";
     "CREATE INDEX a_index ON " ++ DQ ++ "posts" ++ DQ ++ " (a)";
     "ALTER TABLE " ++ DQ ++ "posts" ++ DQ
       ++ " ADD FOREIGN KEY (user_id) REFERENCES users (id)"].
Proof. reflexivity. Qed.

(** MySQL [Table] with the same callback: no foreign-key statement. *)
Example mysql_Table_statements :
  map fst (snd (fst (mysqlProvider.Table (recording (failAt 7))
                       (fun c => 2 * c) (0, []) "posts" (callback postsExample))))
  = ["ALTER TABLE `posts` ADD COLUMN `id` SERIAL NOT NULL";
     "ALTER TABLE `posts` ADD INDEX a_index (a)"].
Proof. reflexivity. Qed.

(** A modifier called through a builder after a later [AddColumn] moved the
    slice to a new backing array is lost: the builder still points into the
    old array. *)
Example stale_builder_write_is_lost :
  map Nullable
      (columnsOf (callback [CallAddColumn "a" "INT"; CallAddColumn "b" "INT";
                            CallColumn 0 DoNullable; CallColumn 1 DoNullable]
                           (newBlueprint (fun c => 2 * c) "t")))
  = [false; true].
Proof. reflexivity. Qed.

(** A record in which a statement follows the failing one is not the record
    of an operation that stops at the first error. *)
Example stopsAtFirstError_excludes_later_calls :
  ~ stopsAtFirstError ["a"; "b"] [("a", Some "boom"); ("b", None)] (Some "boom").
Proof.
  intros (n & _ & Hfst & m & -> & Hsnd).
  destruct m as [|[|m]]; simpl in *; discriminate.
Qed.

(** * Further properties of the package *)

(** ** Default values on the PostgreSQL create path *)

Lemma formatDefaultValue_string (v : string) :
  postgresqlBlueprint.formatDefaultValue (VString v) = "'" ++ v ++ "'".
Proof.
  unfold postgresqlBlueprint.formatDefaultValue.
  destruct (String.eqb_spec v "{}") as [->|_]; [reflexivity|].
  destruct (String.eqb_spec v "[]") as [->|_]; [reflexivity|].
  destruct (String.eqb_spec v "{user}") as [->|_]; [reflexivity|].
  destruct (strings.HasPrefix v "{" && strings.HasSuffix v "}"); reflexivity.
Qed.

(** X1: [formatDefaultValue] prints an [int], [int64] or [float64] as [%v]
    does and puts everything else between single quotes, as it is: the
    branches for the strings [{}], [[]], [{user}] and for brace-delimited
    strings give what the last branch gives, and no quote inside the value
    is escaped. *)
Theorem formatDefaultValue_quotes_all_but_numbers (value : Value) :
  postgresqlBlueprint.formatDefaultValue value
  = match value with
    | VInt _ | VInt64 _ | VFloat64 _ => fmt.v value
    | _ => "'" ++ fmt.v value ++ "'"
    end.
Proof.
  destruct value as [v| | | | |]; try reflexivity.
  apply formatDefaultValue_string.
Qed.

(** X2: on the PostgreSQL paths a string default is written between single
    quotes by [Create] and bare by [Table]: for a column with the default
    [v], a string, the create clause ends with [DEFAULT 'v'] and the
    statement of the alter path ends with [DEFAULT v]; up to the default the
    two are the same text. *)
Theorem postgresql_string_default_quoted_on_create_only
  (t v : string) (c : Column) :
  Default c = Some (VString v) ->
  let head :=
    DQ ++ Name c ++ DQ ++ " " ++ Type_ c
      ++ (if strings.Contains (Type_ c) "SERIAL" then ""
          else if Nullable c then "" else " NOT NULL") in
  postgresqlBlueprint.createColumnSQL c = head ++ " DEFAULT '" ++ v ++ "'"
  /\ postgresqlBlueprint.alterColumnSQL t c
     = "ALTER TABLE " ++ DQ ++ t ++ DQ ++ " ADD COLUMN " ++ head
         ++ " DEFAULT " ++ v.
Proof.
  intros Hd head. subst head.
  rewrite postgresql_createColumnSQL_clauses, Hd.
  rewrite formatDefaultValue_string.
  unfold postgresqlBlueprint.alterColumnSQL. rewrite Hd.
  destruct (strings.Contains (Type_ c) "SERIAL"), (Nullable c); simpl;
    flatten_appends; split; reflexivity.
Qed.

Lemma postgresql_string_default_witness :
  postgresqlBlueprint.createColumnSQL
    (mkColumn "status" "VARCHAR(20)" None false (Some (VString "active"))
              false false "" "")
  = DQ ++ "status" ++ DQ ++ " VARCHAR(20) NOT NULL DEFAULT 'active'"
  /\ postgresqlBlueprint.alterColumnSQL "users"
       (mkColumn "status" "VARCHAR(20)" None false (Some (VString "active"))
                 false false "" "")
     = "ALTER TABLE " ++ DQ ++ "users" ++ DQ ++ " ADD COLUMN "
         ++ DQ ++ "status" ++ DQ ++ " VARCHAR(20) NOT NULL DEFAULT active".
Proof.
  exact (postgresql_string_default_quoted_on_create_only "users" "active"
           (mkColumn "status" "VARCHAR(20)" None false (Some (VString "active"))
                     false false "" "")
           eq_refl).
Defined.

(** ** Column fields a renderer does not read *)

Lemma Modifier_eq_DoIndex (m : Modifier) : m = DoIndex \/ m <> DoIndex.
Proof. destruct m; (now left) || (right; discriminate). Qed.

Section Unread.

Variable clear : Column -> Column.
Variable dropM : Modifier -> bool.

Hypothesis clear_idempotent : forall c, clear (clear c) = clear c.
Hypothesis clear_new :
  forall name ty,
    clear (mkColumn name ty None false None false false "" "")
    = mkColumn name ty None false None false false "" "".
Hypothesis clear_name : forall c, Name (clear c) = Name c.
Hypothesis clear_zero :
  clear (mkColumn "" "" None false None false false "" "")
  = mkColumn "" "" None false None false false "" "".
Hypothesis dropped_absorbed :
  forall m c, dropM m = true -> clear (written m c) = clear c.
Hypothesis dropped_not_index : dropM DoIndex = false.
Hypothesis kept_commutes :
  forall m c, dropM m = false -> clear (written m c) = written m (clear c).

Lemma modify_written (m : Modifier) (cb : columnBuilder) (s : store) :
  m <> DoIndex -> modify m cb s = writeColumn cb (written m) s.
Proof. destruct m; try reflexivity. now intros H. Qed.

Lemma forgetFields_idempotent (fr : frame) :
  forgetFields clear (forgetFields clear fr) = forgetFields clear fr.
Proof.
  unfold forgetFields, withArrays; simpl. f_equal. f_equal.
  rewrite map_map. apply map_ext. intros a. rewrite map_map.
  apply map_ext. intros c. apply clear_idempotent.
Qed.

Lemma columnsOf_clear (s : store) :
  columnsOf (withArrays (map (map clear) (arrays s)) s)
  = map clear (columnsOf s).
Proof.
  unfold columnsOf; simpl.
  now rewrite <- (map_nth (map clear)).
Qed.

Lemma columnsOf_forgetFields (fr : frame) :
  columnsOf (st (forgetFields clear fr)) = map clear (columnsOf (st fr)).
Proof. apply columnsOf_clear. Qed.

Lemma readColumn_forgetFields (cb : columnBuilder) (fr : frame) :
  readColumn cb (st (forgetFields clear fr)) = clear (readColumn cb (st fr)).
Proof.
  unfold readColumn; simpl.
  change (@nil Column) with (map clear []) at 1.
  rewrite (map_nth (map clear)).
  rewrite <- clear_zero at 1.
  now rewrite (map_nth clear).
Qed.

Lemma forgetFields_dropped (fr : frame) (c : Call) :
  dropsModifier dropM c = true ->
  forgetFields clear (step fr c) = forgetFields clear fr.
Proof.
  destruct c as [| k m | | | | | |]; try discriminate. simpl. intros Hm.
  destruct (nth_error (columnBuilders fr) k) as [cb|]; [|reflexivity].
  rewrite modify_written by (intros ->; congruence).
  unfold forgetFields, writeColumn, withArrays; simpl. f_equal. f_equal.
  apply map_update_absorb. intros a. apply map_update_absorb.
  intros x. now apply dropped_absorbed.
Qed.

Lemma appendColumn_forgetFields (name ty : string) (fr : frame) :
  let c := mkColumn name ty None false None false false "" "" in
  st (forgetFields clear (mkFrame (appendColumn c (st fr))
                                  (columnBuilders fr) (foreignBuilders fr)))
  = appendColumn c (st (forgetFields clear fr)).
Proof.
  intros c. unfold appendColumn.
  rewrite columnsOf_forgetFields, length_map.
  change (cap (columns (bp (st (forgetFields clear fr)))))
    with (cap (columns (bp (st fr)))).
  destruct (_ <? _)%nat; unfold forgetFields, withArrays, withBlueprint; simpl.
  - f_equal. apply map_update_commute. intros a. unfold append.
    rewrite map_app. simpl. unfold c. now rewrite clear_new.
  - rewrite length_map. unfold append. rewrite !map_app. simpl.
    rewrite map_app. simpl. unfold c. now rewrite clear_new.
Qed.

Lemma forgetFields_commutes (fr : frame) (c : Call) :
  dropsModifier dropM c = false ->
  forgetFields clear (step fr c) = step (forgetFields clear fr) c.
Proof.
  intros Hc.
  destruct c as [name ty | k m | cols | cols | cols | cols | col | k c];
    try reflexivity.
  - simpl. unfold blueprint.AddColumn.
    pose proof (appendColumn_forgetFields name ty fr) as H. simpl in H.
    rewrite <- H. unfold forgetFields; simpl.
    now rewrite columnsOf_clear, length_map.
  - simpl in *.
    destruct (nth_error (columnBuilders fr) k) as [cb|]; [|reflexivity].
    destruct (Modifier_eq_DoIndex m) as [->|Hm].
    + unfold modify, columnBuilder.Index; cbn [snd].
      change (withArrays (map (map clear) (arrays (st fr))) (st fr))
        with (st (forgetFields clear fr)).
      rewrite readColumn_forgetFields, clear_name. reflexivity.
    + rewrite !modify_written by exact Hm.
      unfold forgetFields, writeColumn, withArrays; simpl. f_equal. f_equal.
      apply map_update_commute. intros a. apply map_update_commute.
      intros x. now apply kept_commutes.
  - simpl.
    destruct (nth_error (foreignBuilders fr) k) as [f|]; [|reflexivity].
    unfold forgetFields; simpl.
    rewrite configure_withArrays.
    destruct (configure_only_foreigns c f (st fr)) as (_ & Ha & _).
    now rewrite Ha.
Qed.

Lemma forgetFields_kept (fr : frame) (c : Call) :
  dropsModifier dropM c = false ->
  forgetFields clear (step fr c)
  = forgetFields clear (step (forgetFields clear fr) c).
Proof.
  intros Hc.
  now rewrite !forgetFields_commutes, forgetFields_idempotent by exact Hc.
Qed.

(** Two callbacks with the same calls but for the dropped modifiers end in
    the same frame, up to the cleared fields. *)
Lemma forgetFields_same_kept (calls1 calls2 : list Call) (fr : frame) :
  filter (fun c => negb (dropsModifier dropM c)) calls1
  = filter (fun c => negb (dropsModifier dropM c)) calls2 ->
  forgetFields clear (run calls1 fr) = forgetFields clear (run calls2 fr).
Proof.
  apply (run_blind_same_kept (forgetFields clear) (dropsModifier dropM)
           forgetFields_dropped forgetFields_kept).
Qed.

End Unread.

Lemma postgresql_rendered_forgetCommentAfter (fr : frame) :
  let s' := st (forgetFields clearCommentAfter fr) in
  postgresqlBlueprint.toCreateTableSQL s' = postgresqlBlueprint.toCreateTableSQL (st fr)
  /\ postgresqlBlueprint.toIndexSQL s' = postgresqlBlueprint.toIndexSQL (st fr)
  /\ postgresqlBlueprint.toForeignKeySQL s'
     = postgresqlBlueprint.toForeignKeySQL (st fr)
  /\ postgresqlBlueprint.toAlterSQL s' = postgresqlBlueprint.toAlterSQL (st fr).
Proof.
  intros s'. subst s'.
  rewrite !postgresql_toCreateTableSQL_parts, !postgresql_toAlterSQL_statements,
    !columnsOf_forgetFields, !map_map.
  repeat split; reflexivity.
Qed.

Lemma forgetCommentAfter_same_kept (calls1 calls2 : list Call) (fr : frame) :
  filter (fun c => negb (dropsModifier isCommentOrAfter c)) calls1
  = filter (fun c => negb (dropsModifier isCommentOrAfter c)) calls2 ->
  forgetFields clearCommentAfter (run calls1 fr)
  = forgetFields clearCommentAfter (run calls2 fr).
Proof.
  apply forgetFields_same_kept; try reflexivity.
  - intros m c Hm. destruct m; try discriminate; reflexivity.
  - intros m c Hm. destruct m; try discriminate; reflexivity.
Qed.

(** X3: PostgreSQL renders neither [Comment(text)] nor [After(column)]:
    two callbacks that make the same calls except for [Comment] and [After]
    on column builders give the same [CREATE TABLE] statement, index
    statements, foreign-key statements and alter statements, and so
    [Create] and [Table] do the same to any handle. *)
Theorem postgresql_ignores_comment_and_after
  {W E : Type} (Exec : Handle W E) (runtime : nat -> nat) (db : W) (t : string)
  (calls1 calls2 : list Call) :
  filter (fun c => negb (dropsModifier isCommentOrAfter c)) calls1
  = filter (fun c => negb (dropsModifier isCommentOrAfter c)) calls2 ->
  let s1 := callback calls1 (newBlueprint runtime t) in
  let s2 := callback calls2 (newBlueprint runtime t) in
  postgresqlBlueprint.toCreateTableSQL s1 = postgresqlBlueprint.toCreateTableSQL s2
  /\ postgresqlBlueprint.toIndexSQL s1 = postgresqlBlueprint.toIndexSQL s2
  /\ postgresqlBlueprint.toForeignKeySQL s1 = postgresqlBlueprint.toForeignKeySQL s2
  /\ postgresqlBlueprint.toAlterSQL s1 = postgresqlBlueprint.toAlterSQL s2
  /\ postgresqlProvider.Create Exec runtime db t (callback calls1)
     = postgresqlProvider.Create Exec runtime db t (callback calls2)
  /\ postgresqlProvider.Table Exec runtime db t (callback calls1)
     = postgresqlProvider.Table Exec runtime db t (callback calls2).
Proof.
  intros Heq s1 s2.
  set (fr := mkFrame (newBlueprint runtime t) [] []).
  pose proof (forgetCommentAfter_same_kept calls1 calls2 fr Heq) as H.
  destruct (postgresql_rendered_forgetCommentAfter (run calls1 fr))
    as (A1 & B1 & C1 & D1).
  destruct (postgresql_rendered_forgetCommentAfter (run calls2 fr))
    as (A2 & B2 & C2 & D2).
  rewrite H in A1, B1, C1, D1.
  change (st (run calls1 fr)) with s1 in A1, B1, C1, D1.
  change (st (run calls2 fr)) with s2 in A2, B2, C2, D2.
  assert (HA : postgresqlBlueprint.toCreateTableSQL s1
               = postgresqlBlueprint.toCreateTableSQL s2) by congruence.
  assert (HB : postgresqlBlueprint.toIndexSQL s1
               = postgresqlBlueprint.toIndexSQL s2) by congruence.
  assert (HC : postgresqlBlueprint.toForeignKeySQL s1
               = postgresqlBlueprint.toForeignKeySQL s2) by congruence.
  assert (HD : postgresqlBlueprint.toAlterSQL s1
               = postgresqlBlueprint.toAlterSQL s2) by congruence.
  unfold postgresqlProvider.Create, postgresqlProvider.Table.
  fold s1 s2. rewrite HA, HB, HC, HD. repeat split; reflexivity.
Qed.

Lemma postgresql_ignores_comment_and_after_witness :
  let Exec : Handle nat string := fun _ n => (S n, None) in
  let calls1 := [CallAddColumn "email" "VARCHAR(255)";
                 CallColumn 0 (DoComment "login"); CallColumn 0 (DoAfter "id")] in
  let calls2 := [CallAddColumn "email" "VARCHAR(255)"] in
  let s1 := callback calls1 (newBlueprint (fun c => 2 * c) "users") in
  let s2 := callback calls2 (newBlueprint (fun c => 2 * c) "users") in
  postgresqlBlueprint.toCreateTableSQL s1 = postgresqlBlueprint.toCreateTableSQL s2
  /\ postgresqlBlueprint.toIndexSQL s1 = postgresqlBlueprint.toIndexSQL s2
  /\ postgresqlBlueprint.toForeignKeySQL s1 = postgresqlBlueprint.toForeignKeySQL s2
  /\ postgresqlBlueprint.toAlterSQL s1 = postgresqlBlueprint.toAlterSQL s2
  /\ postgresqlProvider.Create Exec (fun c => 2 * c) 0 "users" (callback calls1)
     = postgresqlProvider.Create Exec (fun c => 2 * c) 0 "users" (callback calls2)
  /\ postgresqlProvider.Table Exec (fun c => 2 * c) 0 "users" (callback calls1)
     = postgresqlProvider.Table Exec (fun c => 2 * c) 0 "users" (callback calls2).
Proof.
  intros Exec calls1 calls2.
  apply (postgresql_ignores_comment_and_after Exec (fun c => 2 * c) 0 "users"
           calls1 calls2).
  reflexivity.
Defined.

Lemma mysql_toCreateSQL_forgetAfter (fr : frame) :
  mysqlBlueprint.toCreateSQL (st (forgetFields clearAfter fr))
  = mysqlBlueprint.toCreateSQL (st fr).
Proof.
  rewrite !mysql_toCreateSQL_parts, columnsOf_forgetFields, map_map.
  reflexivity.
Qed.

Lemma mysql_toAlterSQL_forgetComment (fr : frame) :
  mysqlBlueprint.toAlterSQL (st (forgetFields clearComment fr))
  = mysqlBlueprint.toAlterSQL (st fr).
Proof.
  rewrite !mysql_toAlterSQL_statements, columnsOf_forgetFields, map_map.
  reflexivity.
Qed.

(** X4: MySQL writes [AFTER] on the alter path only and [COMMENT] on the
    create path only: callbacks that differ only in [After] calls give the
    same [CREATE TABLE] statement, and callbacks that differ only in
    [Comment] calls give the same alter statements. *)
Theorem mysql_after_on_alter_comment_on_create
  (runtime : nat -> nat) (t : string) (calls1 calls2 : list Call) :
  (filter (fun c => negb (dropsModifier isAfter c)) calls1
   = filter (fun c => negb (dropsModifier isAfter c)) calls2 ->
   mysqlBlueprint.toCreateSQL (callback calls1 (newBlueprint runtime t))
   = mysqlBlueprint.toCreateSQL (callback calls2 (newBlueprint runtime t)))
  /\ (filter (fun c => negb (dropsModifier isComment c)) calls1
      = filter (fun c => negb (dropsModifier isComment c)) calls2 ->
      mysqlBlueprint.toAlterSQL (callback calls1 (newBlueprint runtime t))
      = mysqlBlueprint.toAlterSQL (callback calls2 (newBlueprint runtime t))).
Proof.
  set (fr := mkFrame (newBlueprint runtime t) [] []). unfold callback. fold fr.
  split; intros Heq.
  - rewrite <- (mysql_toCreateSQL_forgetAfter (run calls1 fr)),
            <- (mysql_toCreateSQL_forgetAfter (run calls2 fr)).
    f_equal. f_equal.
    apply (forgetFields_same_kept clearAfter isAfter); try reflexivity; auto;
      intros m c Hm; destruct m; try discriminate; reflexivity.
  - rewrite <- (mysql_toAlterSQL_forgetComment (run calls1 fr)),
            <- (mysql_toAlterSQL_forgetComment (run calls2 fr)).
    f_equal. f_equal.
    apply (forgetFields_same_kept clearComment isComment); try reflexivity; auto;
      intros m c Hm; destruct m; try discriminate; reflexivity.
Qed.

Lemma mysql_after_on_alter_comment_on_create_witness :
  mysqlBlueprint.toCreateSQL
    (callback [CallAddColumn "email" "VARCHAR(255)"; CallColumn 0 (DoAfter "id")]
              (newBlueprint (fun c => 2 * c) "users"))
  = mysqlBlueprint.toCreateSQL
      (callback [CallAddColumn "email" "VARCHAR(255)"]
                (newBlueprint (fun c => 2 * c) "users"))
  /\ mysqlBlueprint.toAlterSQL
       (callback [CallAddColumn "email" "VARCHAR(255)";
                  CallColumn 0 (DoComment "login")]
                 (newBlueprint (fun c => 2 * c) "users"))
     = mysqlBlueprint.toAlterSQL
         (callback [CallAddColumn "email" "VARCHAR(255)"]
                   (newBlueprint (fun c => 2 * c) "users")).
Proof.
  split.
  - apply (proj1 (mysql_after_on_alter_comment_on_create (fun c => 2 * c) "users"
                    [CallAddColumn "email" "VARCHAR(255)";
                     CallColumn 0 (DoAfter "id")]
                    [CallAddColumn "email" "VARCHAR(255)"])).
    reflexivity.
  - apply (proj2 (mysql_after_on_alter_comment_on_create (fun c => 2 * c) "users"
                    [CallAddColumn "email" "VARCHAR(255)";
                     CallColumn 0 (DoComment "login")]
                    [CallAddColumn "email" "VARCHAR(255)"])).
    reflexivity.
Defined.

(** ** Modifiers chained to a new column *)

Lemma chained_AddColumn_written (name ty : string) (ms : list Modifier) (s : store) :
  live s ->
  columnsOf (chained (blueprint.AddColumn name ty) ms s)
  = append (columnsOf s)
      (fold_left (fun c m => written m c) ms
         (mkColumn name ty None false None false false "" "")).
Proof.
  intros Hlive. unfold chained.
  destruct (AddColumn_live name ty s Hlive) as (Hlive' & Hcols & Hcb).
  destruct (blueprint.AddColumn name ty s) as [cb s1]. simpl in *.
  now apply modifiers_on_last.
Qed.

(** X5: [Nullable()] and [NotNullable()] chained to a new column are
    idempotent and the last one wins: whatever modifiers come before, the
    column ends nullable when the chain ends with [Nullable()] and not
    nullable when it ends with [NotNullable()], calling either twice is
    calling it once, and a column with no modifier is not nullable.  The
    columns declared before are not touched. *)
Theorem nullable_last_call_wins
  (name ty : string) (ms : list Modifier) (s : store) :
  live s ->
  let cols ms := columnsOf (chained (blueprint.AddColumn name ty) ms s) in
  (exists c, cols (ms ++ [DoNullable])%list = append (columnsOf s) c
             /\ Nullable c = true)
  /\ (exists c, cols (ms ++ [DoNotNullable])%list = append (columnsOf s) c
                /\ Nullable c = false)
  /\ cols (ms ++ [DoNullable; DoNullable])%list = cols (ms ++ [DoNullable])%list
  /\ cols (ms ++ [DoNotNullable; DoNotNullable])%list
     = cols (ms ++ [DoNotNullable])%list
  /\ (exists c, cols [] = append (columnsOf s) c /\ Nullable c = false).
Proof.
  intros Hlive cols. subst cols. cbv beta.
  rewrite !chained_AddColumn_written by exact Hlive.
  rewrite !fold_left_app. simpl.
  repeat split; eexists; split; reflexivity.
Qed.

Lemma nullable_last_call_wins_witness :
  let s := newBlueprint (fun c => 2 * c) "users" in
  let cols ms := columnsOf (chained (blueprint.AddColumn "age" "INT") ms s) in
  (exists c, cols [DoNotNullable; DoNullable] = append (columnsOf s) c
             /\ Nullable c = true)
  /\ (exists c, cols [DoNotNullable; DoNotNullable] = append (columnsOf s) c
                /\ Nullable c = false)
  /\ cols [DoNotNullable; DoNullable; DoNullable] = cols [DoNotNullable; DoNullable]
  /\ cols [DoNotNullable; DoNotNullable; DoNotNullable]
     = cols [DoNotNullable; DoNotNullable]
  /\ (exists c, cols [] = append (columnsOf s) c /\ Nullable c = false).
Proof.
  intros s cols.
  refine (nullable_last_call_wins "age" "INT" [DoNotNullable] s _).
  unfold live; simpl; lia.
Defined.

(** ** Column builders and the backing array of [columns] *)

Lemma nth_update_other {A : Type} (f : A -> A) (l : list A) (i j : nat) (d : A) :
  i <> j -> nth j (update i f l) d = nth j l d.
Proof.
  revert i j; induction l as [|x l IH]; intros [|i] [|j] H; simpl; auto;
    try congruence.
Qed.

(** A write through a builder that points into another array than the one
    [columns] uses does not reach the slice. *)
Lemma writeColumn_elsewhere (cb : columnBuilder) (f : Column -> Column) (s : store) :
  fst (column cb) <> ptr (columns (bp s)) ->
  columnsOf (writeColumn cb f s) = columnsOf s.
Proof.
  intros H. unfold columnsOf, writeColumn; simpl.
  now apply nth_update_other.
Qed.

Lemma modify_columns_elsewhere (m : Modifier) (cb : columnBuilder) (s : store) :
  fst (column cb) <> ptr (columns (bp s)) ->
  columnsOf (modify m cb s) = columnsOf s.
Proof.
  intros H. destruct m; try (now apply writeColumn_elsewhere). reflexivity.
Qed.

(** X6: a column builder points into the backing array its column was
    written to.  When [AddColumn] finds the slice full it moves the columns
    to a new array, and from then on no call on a builder obtained before
    changes the columns of the blueprint (the write goes to the old array);
    when there is room, a builder that points into the array in use still
    writes to its column. *)
Theorem builders_cut_off_by_reallocation
  (name ty : string) (m : Modifier) (cb : columnBuilder) (s : store) :
  live s ->
  let s1 := snd (blueprint.AddColumn name ty s) in
  (cap (columns (bp s)) <= List.length (columnsOf s) ->
   fst (column cb) < List.length (arrays s) ->
   columnsOf (modify m cb s1) = columnsOf s1)
  /\ (List.length (columnsOf s) < cap (columns (bp s)) ->
      fst (column cb) = ptr (columns (bp s)) ->
      columnsOf (modify m cb s1) = update (snd (column cb)) (written m) (columnsOf s1)).
Proof.
  intros Hlive s1. split.
  - intros Hfull Hold. apply modify_columns_elsewhere.
    subst s1. unfold blueprint.AddColumn, appendColumn. simpl.
    destruct (Nat.ltb_spec (List.length (columnsOf s)) (cap (columns (bp s))));
      [lia|]. simpl. lia.
  - intros Hroom Hcb.
    assert (Hptr : ptr (columns (bp s1)) = ptr (columns (bp s))).
    { subst s1. unfold blueprint.AddColumn, appendColumn. simpl.
      destruct (Nat.ltb_spec (List.length (columnsOf s)) (cap (columns (bp s))));
        [reflexivity | lia]. }
    assert (Hlive1 : live s1)
      by exact (proj1 (AddColumn_live name ty s Hlive)).
    destruct (modify_live m cb s1 (snd (column cb)) Hlive1) as (_ & _ & H).
    + rewrite Hptr, <- Hcb. now destruct (column cb).
    + exact H.
Qed.

(** After the first column of a fresh blueprint (capacity 1 under doubling)
    the second [AddColumn] reallocates: [Nullable()] on the first builder is
    lost. *)
Lemma builders_cut_off_by_reallocation_witness :
  let r := blueprint.AddColumn "a" "INT" (newBlueprint (fun c => 2 * c) "t") in
  let s1 := snd (blueprint.AddColumn "b" "INT" (snd r)) in
  columnsOf (modify DoNullable (fst r) s1) = columnsOf s1.
Proof.
  intros r s1.
  refine (proj1 (builders_cut_off_by_reallocation
                   "b" "INT" DoNullable (fst r) (snd r) _) _ _);
    unfold live, r; simpl; lia.
Defined.

(** ** What a callback leaves in the blueprint *)

Lemma columnsOf_writeColumn_view {B : Type} (g : Column -> B)
  (cb : columnBuilder) (f : Column -> Column) (s : store) :
  (forall x, g (f x) = g x) ->
  map g (columnsOf (writeColumn cb f s)) = map g (columnsOf s).
Proof.
  intros H. unfold columnsOf, writeColumn; simpl.
  change (@nil B) with (map g []).
  rewrite <- !(map_nth (map g)).
  f_equal. apply map_update_absorb. intros a. now apply map_update_absorb.
Qed.

Lemma modify_nameAndType (m : Modifier) (cb : columnBuilder) (s : store) :
  map nameAndType (columnsOf (modify m cb s)) = map nameAndType (columnsOf s).
Proof.
  destruct m; try reflexivity;
    apply columnsOf_writeColumn_view; reflexivity.
Qed.

Lemma configure_columnsOf (c : FKCall) (f : nat) (s : store) :
  columnsOf (configure c f s) = columnsOf s.
Proof.
  destruct (configure_only_foreigns c f s) as (_ & Ha & Hb).
  unfold columnsOf. rewrite Ha.
  replace (ptr (columns (bp (configure c f s))))
    with (ptr (columns (withForeigns [] (bp (configure c f s)))))
    by reflexivity.
  now rewrite Hb.
Qed.

Lemma step_declared (fr : frame) (c : Call) :
  live (st fr) ->
  map nameAndType (columnsOf (st (step fr c)))
  = (map nameAndType (columnsOf (st fr)) ++ declared [c])%list.
Proof.
  intros Hlive.
  destruct c as [name ty | k m | | | | | col | k c]; simpl;
    rewrite ?app_nil_r; try reflexivity.
  - destruct (AddColumn_live name ty (st fr) Hlive) as (_ & Hcols & _).
    simpl in Hcols. rewrite Hcols. unfold append. now rewrite map_app.
  - destruct (nth_error (columnBuilders fr) k) as [cb|]; [|reflexivity].
    apply modify_nameAndType.
  - destruct (nth_error (foreignBuilders fr) k) as [f|]; [|reflexivity].
    simpl. now rewrite configure_columnsOf.
Qed.

Lemma run_declared (calls : list Call) :
  forall fr,
    live (st fr) ->
    map nameAndType (columnsOf (st (run calls fr)))
    = (map nameAndType (columnsOf (st fr)) ++ declared calls)%list.
Proof.
  induction calls as [|c calls IH]; intros fr Hlive; simpl.
  - now rewrite app_nil_r.
  - change (fold_left step calls (step fr c)) with (run calls (step fr c)).
    rewrite IH by (apply step_live; exact Hlive).
    rewrite step_declared by exact Hlive.
    simpl. rewrite <- app_assoc. f_equal.
    destruct c; simpl; reflexivity.
Qed.

(** X7: whatever a callback does, the columns of the blueprint are the
    columns of its [AddColumn] calls (every typed helper is one), each once
    and in call order, with the name and type literal given: no modifier,
    index or foreign-key call adds, removes, reorders, renames or retypes a
    column, even when it is made through a builder that was cut off. *)
Theorem columns_are_the_declared_ones
  (runtime : nat -> nat) (t : string) (calls : list Call) :
  map nameAndType (columnsOf (callback calls (newBlueprint runtime t)))
  = declared calls.
Proof.
  unfold callback.
  rewrite run_declared by apply newBlueprint_live.
  reflexivity.
Qed.

(** ** The index a column builder registers *)

Lemma appendColumn_keeps_elements (c : Column) (s : store) (a i : nat) (d : Column) :
  a < List.length (arrays s) ->
  i < List.length (nth a (arrays s) []) ->
  a < List.length (arrays (appendColumn c s))
  /\ i < List.length (nth a (arrays (appendColumn c s)) [])
  /\ nth i (nth a (arrays (appendColumn c s)) []) d = nth i (nth a (arrays s) []) d.
Proof.
  intros Ha Hi. unfold appendColumn.
  destruct (_ <? _)%nat; simpl.
  - rewrite update_length. split; [exact Ha|].
    destruct (Nat.eq_dec (ptr (columns (bp s))) a) as [->|Hne].
    + rewrite nth_update_same by exact Ha. unfold append.
      rewrite length_app, app_nth1 by exact Hi. split; [lia | reflexivity].
    + rewrite nth_update_other by exact Hne. split; [exact Hi | reflexivity].
  - unfold append. rewrite length_app, !(app_nth1 (arrays s)) by exact Ha.
    simpl. split; [lia|]. split; [exact Hi | reflexivity].
Qed.

Lemma writeColumn_keeps_names (cb : columnBuilder) (f : Column -> Column)
  (s : store) (a i : nat) :
  (forall x, Name (f x) = Name x) ->
  List.length (arrays (writeColumn cb f s)) = List.length (arrays s)
  /\ List.length (nth a (arrays (writeColumn cb f s)) [])
     = List.length (nth a (arrays s) [])
  /\ Name (nth i (nth a (arrays (writeColumn cb f s)) [])
               (mkColumn "" "" None false None false false "" ""))
     = Name (nth i (nth a (arrays s) [])
                 (mkColumn "" "" None false None false false "" "")).
Proof.
  intros Hf. unfold writeColumn; simpl.
  assert (Hview : map Name (nth a (update (fst (column cb))
                                      (update (snd (column cb)) f) (arrays s)) [])
                  = map Name (nth a (arrays s) [])).
  { change (@nil string) with (map Name []).
    rewrite <- !(map_nth (map Name)). f_equal.
    apply map_update_absorb. intros l. now apply map_update_absorb. }
  split; [apply update_length|]. split.
  - rewrite <- (length_map Name), Hview. apply length_map.
  - now rewrite <- !(map_nth Name), Hview.
Qed.

Lemma written_keeps_name (m : Modifier) (x : Column) : Name (written m x) = Name x.
Proof. now destruct m. Qed.

Lemma step_buildersNamed (added : list (string * string)) (fr : frame) (c : Call) :
  live (st fr) ->
  buildersNamed added fr ->
  buildersNamed (added ++ declared [c])%list (step fr c).
Proof.
  intros Hlive [Hlen Hall].
  destruct c as [name ty | k m | cols | cols | cols | cols | col | k c];
    simpl declared; rewrite ?app_nil_r.
  - (* AddColumn *)
    destruct (AddColumn_live name ty (st fr) Hlive) as (Hlive' & Hcols & Hcb).
    simpl step. unfold blueprint.AddColumn in *. simpl in Hlive', Hcols, Hcb.
    set (c0 := mkColumn name ty None false None false false "" "") in *.
    set (s' := appendColumn c0 (st fr)) in *.
    split.
    + simpl. unfold append. rewrite !length_app. simpl. lia.
    + intros j cb Hj. simpl in Hj. unfold append in Hj.
      destruct (Nat.lt_ge_cases j (List.length (columnBuilders fr))) as [Hlt|Hge].
      * rewrite nth_error_app1 in Hj by exact Hlt.
        destruct (Hall j cb Hj) as (Ha & Hi & ty0 & Hn).
        destruct (appendColumn_keeps_elements c0 (st fr) _ _
                    (mkColumn "" "" None false None false false "" "") Ha Hi)
          as (Ha' & Hi' & Hread).
        simpl. fold s'. repeat split; [exact Ha' | exact Hi' |].
        exists ty0. unfold readColumn. fold s' in Hread. rewrite Hread.
        rewrite nth_error_app1; [exact Hn|].
        apply nth_error_Some. now rewrite Hn.
      * rewrite nth_error_app2 in Hj by exact Hge.
        destruct (j - List.length (columnBuilders fr)) as [|n] eqn:Hd;
          [|destruct n; discriminate].
        simpl in Hj. injection Hj as <-. simpl.
        assert (Hj' : j = List.length added) by lia.
        unfold live in Hlive'. fold s'.
        assert (Hidx : List.length (columnsOf s') - 1 = List.length (columnsOf (st fr))).
        { rewrite Hcols. unfold append. rewrite length_app. simpl. lia. }
        rewrite Hidx.
        assert (Harr : nth (ptr (columns (bp s'))) (arrays s') []
                       = append (columnsOf (st fr)) c0) by exact Hcols.
        repeat split; [exact Hlive' | |].
        -- rewrite Harr. unfold append. rewrite length_app. simpl. lia.
        -- exists ty. unfold readColumn. simpl. rewrite Harr.
           unfold append. rewrite app_nth2, Nat.sub_diag by lia. simpl.
           rewrite Hj'. now rewrite nth_error_app2, Nat.sub_diag by lia.
  - (* a modifier *)
    simpl step.
    destruct (nth_error (columnBuilders fr) k) as [cb0|]; [|now split].
    split; [exact Hlen|]. intros j cb Hj. simpl in Hj.
    destruct (Hall j cb Hj) as (Ha & Hi & ty0 & Hn).
    destruct (Modifier_eq_DoIndex m) as [->|Hm].
    + simpl. repeat split; [exact Ha | exact Hi |]. exists ty0. exact Hn.
    + rewrite modify_written by exact Hm. cbn [st].
      destruct (writeColumn_keeps_names cb0 (written m) (st fr)
                  (fst (column cb)) (snd (column cb)) (written_keeps_name m))
        as (Hl1 & Hl2 & Hname).
      rewrite Hl1, Hl2. repeat split; [exact Ha | exact Hi |].
      exists ty0. unfold readColumn. rewrite Hname. exact Hn.
  - now split.
  - now split.
  - now split.
  - now split.
  - now split.
  - simpl step.
    destruct (nth_error (foreignBuilders fr) k) as [f|]; [|now split].
    split; [exact Hlen|]. intros j cb Hj. simpl in Hj.
    destruct (Hall j cb Hj) as (Ha & Hi & ty0 & Hn).
    destruct (configure_only_foreigns c f (st fr)) as (_ & Harr & _).
    simpl. unfold readColumn. rewrite Harr.
    repeat split; [exact Ha | exact Hi |]. exists ty0. exact Hn.
Qed.

Lemma run_buildersNamed (calls : list Call) :
  forall added fr,
    live (st fr) ->
    buildersNamed added fr ->
    buildersNamed (added ++ declared calls)%list (run calls fr).
Proof.
  induction calls as [|c calls IH]; intros added fr Hlive Hb; simpl.
  - now rewrite app_nil_r.
  - change (fold_left step calls (step fr c)) with (run calls (step fr c)).
    replace (added ++ (match c with
                       | CallAddColumn name columnType => [(name, columnType)]
                       | _ => []
                       end ++ declared calls))%list
      with ((added ++ declared [c]) ++ declared calls)%list.
    + apply IH; [apply step_live; exact Hlive | now apply step_buildersNamed].
    + rewrite <- app_assoc. simpl. now rewrite app_nil_r.
Qed.

(** X8: [Index()] on the builder of a column registers the single-column
    index of that column, [INDEX name_index (name)], whatever the callback
    did before and whether or not the builder still points into the array
    in use (the name is read through the builder, and no call changes a
    name). *)
Theorem builder_Index_names_own_column
  (runtime : nat -> nat) (t : string) (pre : list Call) (k : nat)
  (name ty : string) :
  nth_error (declared pre) k = Some (name, ty) ->
  indexes (bp (callback (pre ++ [CallColumn k DoIndex])
                        (newBlueprint runtime t)))
  = append (indexes (bp (callback pre (newBlueprint runtime t))))
           ("INDEX " ++ name ++ "_index (" ++ name ++ ")").
Proof.
  intros Hk. unfold callback, run. rewrite fold_left_app. simpl.
  set (fr := fold_left step pre (mkFrame (newBlueprint runtime t) [] [])).
  assert (Hb : buildersNamed (declared pre) fr).
  { apply (run_buildersNamed pre [] (mkFrame (newBlueprint runtime t) [] [])).
    - apply newBlueprint_live.
    - split; [reflexivity|]. intros j cb Hj. destruct j; discriminate. }
  destruct Hb as [Hlen Hall].
  destruct (nth_error (columnBuilders fr) k) as [cb|] eqn:Hcb.
  - destruct (Hall k cb Hcb) as (_ & _ & ty0 & Hn).
    rewrite Hk in Hn. injection Hn as Hname _.
    simpl. rewrite <- Hname. unfold append. f_equal. f_equal.
    flatten_appends. reflexivity.
  - apply nth_error_None in Hcb.
    assert (k < List.length (declared pre))
      by (apply nth_error_Some; now rewrite Hk).
    lia.
Qed.

Lemma builder_Index_names_own_column_witness :
  indexes (bp (callback ([CallAddColumn "a" "INT"; CallAddColumn "b" "INT"]
                           ++ [CallColumn 0 DoIndex])
                        (newBlueprint (fun c => 2 * c) "t")))
  = append (indexes (bp (callback [CallAddColumn "a" "INT"; CallAddColumn "b" "INT"]
                                  (newBlueprint (fun c => 2 * c) "t"))))
           "INDEX a_index (a)".
Proof.
  apply (builder_Index_names_own_column (fun c => 2 * c) "t"
           [CallAddColumn "a" "INT"; CallAddColumn "b" "INT"] 0 "a" "INT").
  reflexivity.
Defined.

Lemma configure_bp (c : FKCall) (f : nat) (s : store) :
  exists added,
    bp (configure c f s)
    = withForeigns (foreigns (bp s) ++ added)%list (bp s).
Proof.
  assert (Hb : forall x, exists added,
               bp (foreignKeyBuilder.build f x)
               = withForeigns (foreigns (bp x) ++ added)%list (bp x)).
  { intros x. unfold foreignKeyBuilder.build.
    destruct (nth_error (fkBuilders x) f) as [fb|];
      [|exists []; rewrite app_nil_r; now destruct (bp x)].
    destruct ((foreignTable fb =? "") || (foreignColumn fb =? ""));
      [exists []; rewrite app_nil_r; now destruct (bp x)|].
    eexists [_]. reflexivity. }
  destruct c; unfold configure; simpl;
    try apply (Hb (writeBuilder f _ s)).
  exists []. rewrite app_nil_r. now destruct (bp s).
Qed.

Lemma step_only_appends (fr : frame) (c : Call) :
  exists newIndexes newForeigns,
    indexes (bp (st (step fr c))) = (indexes (bp (st fr)) ++ newIndexes)%list
    /\ foreigns (bp (st (step fr c))) = (foreigns (bp (st fr)) ++ newForeigns)%list
    /\ tableName (bp (st (step fr c))) = tableName (bp (st fr)).
Proof.
  assert (Hsame : forall s : store,
             bp s = bp (st fr) ->
             exists newIndexes newForeigns,
               indexes (bp s) = (indexes (bp (st fr)) ++ newIndexes)%list
               /\ foreigns (bp s) = (foreigns (bp (st fr)) ++ newForeigns)%list
               /\ tableName (bp s) = tableName (bp (st fr))).
  { intros s ->. exists [], []. now rewrite !app_nil_r. }
  assert (Hidx : forall frag,
             exists newIndexes newForeigns,
               indexes (bp (blueprint.appendIndex frag (st fr)))
               = (indexes (bp (st fr)) ++ newIndexes)%list
               /\ foreigns (bp (blueprint.appendIndex frag (st fr)))
                  = (foreigns (bp (st fr)) ++ newForeigns)%list
               /\ tableName (bp (blueprint.appendIndex frag (st fr)))
                  = tableName (bp (st fr))).
  { intros frag. exists [frag], []. now rewrite app_nil_r. }
  destruct c as [name ty | k m | cols | cols | cols | cols | col | k c];
    simpl step; try apply Hidx.
  - unfold blueprint.AddColumn, appendColumn. simpl.
    destruct (_ <? _)%nat; simpl.
    + apply Hsame. reflexivity.
    + exists [], []. now rewrite !app_nil_r.
  - destruct (nth_error (columnBuilders fr) k) as [cb|]; [|now apply Hsame].
    destruct m; simpl; try (apply Hsame; reflexivity). apply Hidx.
  - apply Hsame. reflexivity.
  - destruct (nth_error (foreignBuilders fr) k) as [f|]; [|now apply Hsame].
    simpl. destruct (configure_bp c f (st fr)) as [added ->].
    exists [], added. now rewrite app_nil_r.
Qed.

(** X9: the index list and the foreign-key list only grow, and the table
    name stays: after any sequence of calls, from any state, the fragments
    that were there are still there, unchanged and in the same order, in
    front of the new ones. *)
Theorem fragments_are_only_appended (calls : list Call) (fr : frame) :
  exists newIndexes newForeigns,
    indexes (bp (st (run calls fr))) = (indexes (bp (st fr)) ++ newIndexes)%list
    /\ foreigns (bp (st (run calls fr)))
       = (foreigns (bp (st fr)) ++ newForeigns)%list
    /\ tableName (bp (st (run calls fr))) = tableName (bp (st fr)).
Proof.
  revert fr. induction calls as [|c calls IH]; intros fr; simpl.
  - exists [], []. now rewrite !app_nil_r.
  - destruct (IH (step fr c)) as (i2 & f2 & Hi2 & Hf2 & Ht2).
    destruct (step_only_appends fr c) as (i1 & f1 & Hi1 & Hf1 & Ht1).
    exists (i1 ++ i2)%list, (f1 ++ f2)%list.
    change (fold_left step calls (step fr c)) with (run calls (step fr c)).
    rewrite Hi2, Hf2, Ht2, Hi1, Hf1, Ht1, !app_assoc. now repeat split.
Qed.

(** ** Foreign keys: lost keys and repeated fragments *)

Lemma fkSession_app (col : string) (cs1 cs2 : list FKCall) (s : store) :
  fkSession col (cs1 ++ cs2) s
  = fold_left (fun x c => configure c (List.length (fkBuilders s)) x) cs2
              (fkSession col cs1 s).
Proof. unfold fkSession; simpl. now rewrite fold_left_app. Qed.

Lemma references_only_keep_foreigns (f : nat) (refs : list FKCall) :
  forallb isReferences refs = true ->
  forall s,
    foreigns (bp (fold_left (fun x c => configure c f x) refs s))
    = foreigns (bp s).
Proof.
  induction refs as [|c refs IH]; intros H s; simpl; [reflexivity|].
  simpl in H. apply andb_true_iff in H. destruct H as [Hc Hr].
  rewrite IH by exact Hr. destruct c; try discriminate. reflexivity.
Qed.

(** X10: [References] never materializes a key.  When every [On],
    [OnDelete] and [OnUpdate] call on a builder comes before its first
    [References] call, the builder appends nothing at all: a key written as
    [Foreign(c).On(t).References(r)] is silently left out of the blueprint. *)
Theorem foreign_key_lost_when_References_comes_last
  (col : string) (pre refs : list FKCall) (s : store) :
  existsb isReferences pre = false ->
  forallb isReferences refs = true ->
  foreigns (bp (fkSession col (pre ++ refs) s)) = foreigns (bp s).
Proof.
  intros Hpre Hrefs.
  rewrite fkSession_app, references_only_keep_foreigns by exact Hrefs.
  destruct (fkSession_invariant col pre s)
    as (fb & added & _ & _ & _ & _ & Hf & Hall).
  rewrite Hf. destruct added as [|frag added]; [apply app_nil_r|].
  inversion Hall as [|? ? (t & c & _ & _ & _ & HRef & _) _]; subst.
  assert (existsb isReferences pre = true)
    by (apply existsb_exists; exists (DoReferences c); now split).
  congruence.
Qed.

Lemma foreign_key_lost_witness :
  foreigns (bp (fkSession "user_id"
                  ([DoOn "users"; DoOnDelete "CASCADE"] ++ [DoReferences "id"])
                  (newBlueprint (fun c => 2 * c) "posts")))
  = foreigns (bp (newBlueprint (fun c => 2 * c) "posts")).
Proof.
  apply (foreign_key_lost_when_References_comes_last "user_id"
           [DoOn "users"; DoOnDelete "CASCADE"] [DoReferences "id"]);
    reflexivity.
Defined.

(** A call other than [References] on a complete key appends exactly one
    fragment, provided it leaves the key complete. *)
Lemma configure_appends_one (c : FKCall) (f : nat) (s : store) (fb : foreignKeyBuilder) :
  nth_error (fkBuilders s) f = Some fb ->
  isReferences c = false ->
  foreignTable (assign c fb) <> "" -> foreignColumn (assign c fb) <> "" ->
  exists frag,
    foreigns (bp (configure c f s)) = append (foreigns (bp s)) frag
    /\ String.prefix
         (fkHeader (localColumn fb) (foreignTable (assign c fb))
                   (foreignColumn (assign c fb))) frag = true.
Proof.
  intros Hfb Hc Ht Hcol.
  assert (Hfb' : nth_error (fkBuilders (writeBuilder f (assign c) s)) f
                 = Some (assign c fb))
    by (rewrite writeBuilder_at, Hfb; reflexivity).
  destruct (build_complete f _ _ Hfb' Ht Hcol) as (frag & Happ & Hpre).
  exists frag. split.
  - destruct c; try discriminate; exact Happ.
  - replace (localColumn fb) with (localColumn (assign c fb))
      by (now destruct c). exact Hpre.
Qed.

Lemma actions_append_each (f : nat) (rest : list FKCall) :
  forallb isAction rest = true ->
  forall s fb,
    nth_error (fkBuilders s) f = Some fb ->
    foreignTable fb <> "" -> foreignColumn fb <> "" ->
    exists added,
      foreigns (bp (fold_left (fun x c => configure c f x) rest s))
      = (foreigns (bp s) ++ added)%list
      /\ List.length added = List.length rest
      /\ Forall (fun frag =>
                   String.prefix
                     (fkHeader (localColumn fb) (foreignTable fb) (foreignColumn fb))
                     frag = true) added.
Proof.
  induction rest as [|c rest IH]; intros H s fb Hfb Ht Hc; simpl.
  - exists []. now rewrite app_nil_r.
  - simpl in H. apply andb_true_iff in H. destruct H as [Hact Hrest].
    assert (Hkeep : foreignTable (assign c fb) = foreignTable fb
                    /\ foreignColumn (assign c fb) = foreignColumn fb
                    /\ localColumn (assign c fb) = localColumn fb
                    /\ isReferences c = false)
      by (destruct c; try discriminate; now repeat split).
    destruct Hkeep as (Et & Ec & El & Hnr).
    destruct (configure_appends_one c f s fb Hfb Hnr) as (frag & Happ & Hpre);
      [now rewrite Et | now rewrite Ec |].
    rewrite Et, Ec in Hpre.
    assert (Hfb' : nth_error (fkBuilders (configure c f s)) f = Some (assign c fb))
      by (rewrite configure_at, Hfb; reflexivity).
    destruct (IH Hrest (configure c f s) (assign c fb) Hfb')
      as (added & Hf & Hlen & Hall); [now rewrite Et | now rewrite Ec |].
    rewrite Et, Ec, El in Hall.
    exists (frag :: added). rewrite Hf, Happ. unfold append.
    rewrite <- app_assoc. simpl. repeat split; [now rewrite Hlen|].
    constructor; assumption.
Qed.

Lemma fkSession_builder (col : string) (cs : list FKCall) (s : store) :
  nth_error (fkBuilders (fkSession col cs s)) (List.length (fkBuilders s))
  = Some (fold_left (fun fb c => assign c fb) cs
                    (mkForeignKeyBuilder col "" "" "" "")).
Proof.
  induction cs as [|c cs IH] using rev_ind.
  - unfold fkSession; simpl. unfold append.
    now rewrite nth_error_app2, Nat.sub_diag by lia.
  - rewrite fkSession_app, fold_left_app. simpl.
    now rewrite configure_at, IH.
Qed.

Lemma fkSession_nil_foreigns (col : string) (s : store) :
  foreigns (bp (fkSession col [] s)) = foreigns (bp s).
Proof. reflexivity. Qed.

(** X11: one logical key, several fragments.  With a non-empty column [c]
    and table [t], the chain [References(c).On(t)] followed by [k] calls of
    [OnDelete] or [OnUpdate] appends [k + 1] fragments, and the chain
    [On(t).References(c)] followed by the same calls appends [k]; all of
    them start with [FOREIGN KEY (col) REFERENCES t (c)]. *)
Theorem one_fragment_per_call_on_complete_key
  (col c t : string) (rest : list FKCall) (s : store) :
  c <> "" -> t <> "" -> forallb isAction rest = true ->
  (exists added,
      foreigns (bp (fkSession col (DoReferences c :: DoOn t :: rest) s))
      = (foreigns (bp s) ++ added)%list
      /\ List.length added = S (List.length rest)
      /\ Forall (fun frag => String.prefix (fkHeader col t c) frag = true) added)
  /\ (exists added,
        foreigns (bp (fkSession col (DoOn t :: DoReferences c :: rest) s))
        = (foreigns (bp s) ++ added)%list
        /\ List.length added = List.length rest
        /\ Forall (fun frag => String.prefix (fkHeader col t c) frag = true) added).
Proof.
  intros Hc Ht Hrest.
  set (f := List.length (fkBuilders s)).
  split.
  - change (DoReferences c :: DoOn t :: rest)
      with ([DoReferences c; DoOn t] ++ rest)%list.
    rewrite fkSession_app. fold f.
    assert (Hfb : nth_error (fkBuilders (fkSession col [DoReferences c; DoOn t] s)) f
                  = Some (mkForeignKeyBuilder col t c "" ""))
      by exact (fkSession_builder col [DoReferences c; DoOn t] s).
    destruct (actions_append_each f rest Hrest _ _ Hfb) as (added & Hf & Hlen & Hall);
      [exact Ht | exact Hc |]. simpl in Hall.
    assert (Hfb1 : nth_error (fkBuilders (fkSession col [DoReferences c] s)) f
                   = Some (mkForeignKeyBuilder col "" c "" ""))
      by exact (fkSession_builder col [DoReferences c] s).
    destruct (configure_appends_one (DoOn t) f (fkSession col [DoReferences c] s)
                _ Hfb1 eq_refl) as (frag & Happ & Hpre);
      [exact Ht | exact Hc |]. simpl in Hpre.
    assert (Happ' : foreigns (bp (fkSession col [DoReferences c; DoOn t] s))
                    = append (foreigns (bp s)) frag) by exact Happ.
    exists (frag :: added). rewrite Hf, Happ'. unfold append.
    rewrite <- app_assoc.
    simpl. repeat split; [now rewrite Hlen|]. constructor; assumption.
  - change (DoOn t :: DoReferences c :: rest)
      with ([DoOn t; DoReferences c] ++ rest)%list.
    rewrite fkSession_app. fold f.
    assert (Hfb : nth_error (fkBuilders (fkSession col [DoOn t; DoReferences c] s)) f
                  = Some (mkForeignKeyBuilder col t c "" ""))
      by exact (fkSession_builder col [DoOn t; DoReferences c] s).
    destruct (actions_append_each f rest Hrest _ _ Hfb) as (added & Hf & Hlen & Hall);
      [exact Ht | exact Hc |]. simpl in Hall.
    assert (Hsame : foreigns (bp (fkSession col [DoOn t; DoReferences c] s))
                    = foreigns (bp s)).
    { change (fkSession col [DoOn t; DoReferences c] s)
        with (configure (DoReferences c) f
                (configure (DoOn t) f (fkSession col [] s))).
      change (foreigns (bp (configure (DoReferences c) f
                              (configure (DoOn t) f (fkSession col [] s)))))
        with (foreigns (bp (configure (DoOn t) f (fkSession col [] s)))).
      assert (Hfb0 : nth_error (fkBuilders (fkSession col [] s)) f
                     = Some (mkForeignKeyBuilder col "" "" "" ""))
        by exact (fkSession_builder col [] s).
      unfold configure, foreignKeyBuilder.On. cbn [snd].
      erewrite build_incomplete.
      - reflexivity.
      - rewrite writeBuilder_at, Hfb0. reflexivity.
      - right. reflexivity. }
    rewrite Hsame in Hf. exists added. now repeat split.
Qed.

Lemma one_fragment_per_call_witness :
  (exists added,
      foreigns (bp (fkSession "user_id"
                      [DoReferences "id"; DoOn "users";
                       DoOnDelete "CASCADE"; DoOnUpdate "CASCADE"]
                      (newBlueprint (fun c => 2 * c) "posts")))
      = (foreigns (bp (newBlueprint (fun c => 2 * c) "posts")) ++ added)%list
      /\ List.length added = 3
      /\ Forall (fun frag =>
                   String.prefix (fkHeader "user_id" "users" "id") frag = true)
                added)
  /\ (exists added,
        foreigns (bp (fkSession "user_id"
                        [DoOn "users"; DoReferences "id";
                         DoOnDelete "CASCADE"; DoOnUpdate "CASCADE"]
                        (newBlueprint (fun c => 2 * c) "posts")))
        = (foreigns (bp (newBlueprint (fun c => 2 * c) "posts")) ++ added)%list
        /\ List.length added = 2
        /\ Forall (fun frag =>
                     String.prefix (fkHeader "user_id" "users" "id") frag = true)
                  added).
Proof.
  apply (one_fragment_per_call_on_complete_key "user_id" "id" "users"
           [DoOnDelete "CASCADE"; DoOnUpdate "CASCADE"]);
    (discriminate || reflexivity).
Defined.

(** ** The alter path with nothing but foreign keys *)

Lemma withoutForeignCalls_all (calls : list Call) :
  forallb isForeignCall calls = true -> withoutForeignCalls calls = [].
Proof.
  induction calls as [|c calls IH]; simpl; [reflexivity|].
  intros H. apply andb_true_iff in H. destruct H as [Hc Hr].
  rewrite Hc. simpl. now apply IH.
Qed.

(** X12: [Table] with a callback that only declares foreign keys executes
    nothing and returns nil on both dialects: the handle is never called and
    the keys are dropped without an error. *)
Theorem alter_with_only_foreign_keys_does_nothing
  {W E : Type} (Exec : Handle W E) (runtime : nat -> nat) (db : W) (t : string)
  (calls : list Call) :
  forallb isForeignCall calls = true ->
  mysqlProvider.Table Exec runtime db t (callback calls) = (db, None)
  /\ postgresqlProvider.Table Exec runtime db t (callback calls) = (db, None)
  /\ snd (fst (mysqlProvider.Table (recording Exec) runtime (db, []) t
                 (callback calls))) = []
  /\ snd (fst (postgresqlProvider.Table (recording Exec) runtime (db, []) t
                 (callback calls))) = [].
Proof.
  intros Hall.
  set (fr := mkFrame (newBlueprint runtime t) [] []).
  assert (Hm : mysqlBlueprint.toAlterSQL (callback calls (newBlueprint runtime t)) = []
               /\ postgresqlBlueprint.toAlterSQL
                    (callback calls (newBlueprint runtime t)) = []).
  { unfold callback. fold fr.
    destruct (toAlterSQL_forgetForeign (run calls fr)) as [<- <-].
    rewrite forgetForeign_run, withoutForeignCalls_all by exact Hall.
    split; reflexivity. }
  destruct Hm as [Hm Hp].
  unfold mysqlProvider.Table, postgresqlProvider.Table.
  rewrite Hm, Hp. repeat split; reflexivity.
Qed.

Lemma alter_with_only_foreign_keys_witness :
  mysqlProvider.Table (failAt 0) (fun c => 2 * c) 0 "posts"
    (callback [CallForeign "user_id"; CallFK 0 (DoReferences "id");
               CallFK 0 (DoOn "users")]) = (0, None)
  /\ postgresqlProvider.Table (failAt 0) (fun c => 2 * c) 0 "posts"
       (callback [CallForeign "user_id"; CallFK 0 (DoReferences "id");
                  CallFK 0 (DoOn "users")]) = (0, None)
  /\ snd (fst (mysqlProvider.Table (recording (failAt 0)) (fun c => 2 * c)
                 (0, []) "posts"
                 (callback [CallForeign "user_id"; CallFK 0 (DoReferences "id");
                            CallFK 0 (DoOn "users")]))) = []
  /\ snd (fst (postgresqlProvider.Table (recording (failAt 0)) (fun c => 2 * c)
                 (0, []) "posts"
                 (callback [CallForeign "user_id"; CallFK 0 (DoReferences "id");
                            CallFK 0 (DoOn "users")]))) = [].
Proof.
  apply (alter_with_only_foreign_keys_does_nothing (failAt 0) (fun c => 2 * c)
           0 "posts").
  reflexivity.
Defined.

(** ** Fields and substrings of texts made of plain characters *)

Lemma allChars_app (p : ascii -> bool) (a b : string) :
  allChars p (a ++ b) = allChars p a && allChars p b.
Proof.
  induction a as [|x a IH]; simpl; [reflexivity|].
  now rewrite IH, andb_assoc.
Qed.

Lemma allChars_impl (p q : ascii -> bool) (s : string) :
  (forall c, p c = true -> q c = true) ->
  allChars p s = true -> allChars q s = true.
Proof.
  intros H. induction s as [|x s IH]; simpl; [reflexivity|].
  intros Hs. apply andb_true_iff in Hs. destruct Hs as [Hx Hr].
  now rewrite (H x Hx), IH.
Qed.

Lemma allChars_Join (p : ascii -> bool) (cols : list string) (sep : string) :
  forallb (allChars p) cols = true -> allChars p sep = true ->
  allChars p (strings.Join cols sep) = true.
Proof.
  intros Hc Hs. induction cols as [|c cols IH]; [reflexivity|].
  simpl in Hc. apply andb_true_iff in Hc. destruct Hc as [Hc Hr].
  destruct cols as [|c' cols]; [exact Hc|].
  change (strings.Join (c :: c' :: cols) sep)
    with (c ++ sep ++ strings.Join (c' :: cols) sep).
  now rewrite !allChars_app, Hc, Hs, IH.
Qed.

(** A plain character is no white space and starts no white-space rune. *)
Lemma spaceWidth_plainChar (c : ascii) (s : string) :
  plainChar c = true -> strings.spaceWidth (String c s) = 0.
Proof.
  destruct c as [[] [] [] [] [] [] [] []]; try discriminate; intros _;
    destruct s as [|c1 [|c2 s]]; reflexivity.
Qed.

Lemma plainChar_not_backtick (c : ascii) :
  plainChar c = true -> negb (Ascii.eqb c "`") = true.
Proof.
  destruct c as [[] [] [] [] [] [] [] []]; try discriminate; reflexivity.
Qed.

(** Reading a plain word adds it to the field being read. *)
Lemma fieldsFrom_plain (tok : string) :
  plain tok = true ->
  forall cur rest,
    strings.fieldsFrom 0 cur (tok ++ rest) = strings.fieldsFrom 0 (cur ++ tok) rest.
Proof.
  unfold plain. induction tok as [|c tok IH]; intros H cur rest; simpl.
  - now rewrite string_append_nil_r.
  - simpl in H. apply andb_true_iff in H. destruct H as [Hc Ht].
    change (match strings.spaceWidth (String c (tok ++ rest)) with
            | 0 => strings.fieldsFrom 0 (cur ++ String c "") (tok ++ rest)
            | S w => (strings.flush cur ++ strings.fieldsFrom w "" (tok ++ rest))%list
            end
            = strings.fieldsFrom 0 (cur ++ String c tok) rest).
    rewrite spaceWidth_plainChar by exact Hc.
    rewrite IH by exact Ht. now rewrite string_append_assoc.
Qed.

(** The fields of plain, non-empty words joined by single blanks are the
    words. *)
Lemma Fields_Join_plain (toks : list string) :
  forallb (fun w => plain w && negb (w =? "")) toks = true ->
  strings.Fields (strings.Join toks " ") = toks.
Proof.
  unfold strings.Fields.
  induction toks as [|w toks IH]; intros H; [reflexivity|].
  simpl in H. apply andb_true_iff in H. destruct H as [Hw Hr].
  apply andb_true_iff in Hw. destruct Hw as [Hp Hne].
  assert (Hflush : strings.flush w = [w]) by (destruct w; [discriminate | reflexivity]).
  destruct toks as [|w' toks].
  - simpl strings.Join. rewrite <- (string_append_nil_r w) at 1.
    rewrite fieldsFrom_plain by exact Hp. simpl. exact Hflush.
  - change (strings.Join (w :: w' :: toks) " ")
      with (w ++ String " " (strings.Join (w' :: toks) " ")).
    rewrite fieldsFrom_plain by exact Hp. simpl.
    rewrite Hflush. simpl. f_equal. apply IH. exact Hr.
Qed.

Lemma Join_closedList (cols : list string) :
  strings.Join (closedList cols) " " = strings.Join cols ", " ++ ")".
Proof.
  induction cols as [|c [|c' cols] IH]; try reflexivity.
  change (closedList (c :: c' :: cols)) with ((c ++ ",") :: closedList (c' :: cols)).
  assert (Hne : exists p ps, closedList (c' :: cols) = p :: ps)
    by (destruct cols; simpl; eauto).
  destruct Hne as (p & ps & Hp).
  change (strings.Join (c :: c' :: cols) ", ")
    with (c ++ ", " ++ strings.Join (c' :: cols) ", ").
  replace (strings.Join ((c ++ ",") :: closedList (c' :: cols)) " ")
    with ((c ++ ",") ++ " " ++ strings.Join (closedList (c' :: cols)) " ")
    by (rewrite Hp; reflexivity).
  rewrite IH. flatten_appends. reflexivity.
Qed.

Lemma Join_columnList (cols : list string) :
  strings.Join (columnList cols) " " = "(" ++ strings.Join cols ", " ++ ")".
Proof.
  rewrite <- Join_closedList. unfold columnList.
  assert (Hne : exists p ps, closedList cols = p :: ps)
    by (destruct cols as [|c [|c' cols]]; simpl; eauto).
  destruct Hne as (p & ps & ->). destruct ps; reflexivity.
Qed.

Lemma closedList_plain (cols : list string) :
  forallb plain cols = true ->
  forallb (fun w => plain w && negb (w =? "")) (closedList cols) = true.
Proof.
  assert (Hne : forall c tail, negb (c ++ String tail "" =? "") = true)
    by (intros [|x c] tail; reflexivity).
  induction cols as [|c [|c' cols] IH]; intros H; [reflexivity | |].
  - simpl in *. rewrite andb_true_r in H. unfold plain in *.
    now rewrite allChars_app, H, Hne.
  - change (closedList (c :: c' :: cols)) with ((c ++ ",") :: closedList (c' :: cols)).
    simpl in H. apply andb_true_iff in H. destruct H as [Hc Hr].
    change (forallb (fun w => plain w && negb (w =? ""))
              ((c ++ ",") :: closedList (c' :: cols)))
      with ((plain (c ++ ",") && negb (c ++ "," =? ""))
            && forallb (fun w => plain w && negb (w =? ""))
                       (closedList (c' :: cols))).
    rewrite IH by exact Hr. unfold plain in *.
    now rewrite allChars_app, Hc, Hne.
Qed.

Lemma columnList_plain (cols : list string) :
  forallb plain cols = true ->
  forallb (fun w => plain w && negb (w =? "")) (columnList cols) = true
  /\ columnList cols <> [].
Proof.
  intros H. pose proof (closedList_plain cols H) as Hc. unfold columnList.
  destruct (closedList cols) as [|p ps] eqn:E.
  - destruct cols as [|c [|c' cols]]; discriminate.
  - simpl in Hc. apply andb_true_iff in Hc. destruct Hc as [Hp Hps].
    apply andb_true_iff in Hp. destruct Hp as [Hp _].
    split; [|discriminate]. unfold plain in *. simpl. now rewrite Hp, Hps.
Qed.

(** Replacing backticks in a text that has none. *)
Lemma ReplaceAll_lacks_backtick (s : string) :
  lacks "`" s = true -> strings.ReplaceAll s "`" DQ = s.
Proof.
  unfold strings.ReplaceAll, lacks.
  induction s as [|c s IH]; [reflexivity|].
  cbn [allChars strings.replaceFrom String.prefix].
  intros H. apply andb_true_iff in H. destruct H as [Hc Hs].
  destruct (ascii_dec "`" c) as [<-|_]; [discriminate|].
  now rewrite (IH Hs).
Qed.

(** A text in which [d] does not occur starts at no offset that reaches
    over a [d]. *)
Lemma prefix_before_separator (d : ascii) (x y : string) :
  forall sub,
    lacks d sub = true ->
    String.prefix sub (x ++ String d y) = String.prefix sub x.
Proof.
  unfold lacks. induction x as [|a x IH]; intros [|b sub] H; simpl in *;
    try reflexivity.
  - apply andb_true_iff in H. destruct H as [Hb _].
    destruct (ascii_dec b d) as [->|_]; [|reflexivity].
    rewrite Ascii.eqb_refl in Hb. discriminate.
  - apply andb_true_iff in H. destruct H as [_ Hs].
    destruct (ascii_dec b a); [now apply IH | reflexivity].
Qed.

(** So it occurs in [x ++ d ++ y] only inside [x] or inside [y]. *)
Lemma Contains_separator (d : ascii) (sub x y : string) :
  sub <> "" -> lacks d sub = true ->
  strings.Contains (x ++ String d y) sub
  = strings.Contains x sub || strings.Contains y sub.
Proof.
  intros Hne Hd.
  assert (Hempty : String.prefix sub "" = false)
    by (destruct sub; [congruence | reflexivity]).
  assert (Hhead : String.prefix sub (String d y) = false).
  { exact (eq_trans (prefix_before_separator d "" y sub Hd) Hempty). }
  induction x as [|a x IH].
  - cbn [String.append strings.Contains]. now rewrite Hhead, Hempty.
  - cbn [String.append strings.Contains].
    change (String a (x ++ String d y)) with (String a x ++ String d y).
    rewrite (prefix_before_separator d (String a x) y sub Hd), IH.
    now rewrite orb_assoc.
Qed.

Lemma Contains_empty (sub : string) : sub <> "" -> strings.Contains "" sub = false.
Proof. destruct sub; [congruence | reflexivity]. Qed.

(** Joined with a one-byte separator that does not occur in [sub]. *)
Lemma Contains_Join1 (d : ascii) (sub : string) (cols : list string) :
  sub <> "" -> lacks d sub = true ->
  strings.Contains (strings.Join cols (String d "")) sub
  = existsb (fun c => strings.Contains c sub) cols.
Proof.
  intros Hne Hd.
  induction cols as [|c [|c' cols] IH].
  - now apply Contains_empty.
  - simpl. now rewrite orb_false_r.
  - change (strings.Join (c :: c' :: cols) (String d ""))
      with (c ++ String d (strings.Join (c' :: cols) (String d ""))).
    rewrite Contains_separator by assumption.
    now rewrite IH.
Qed.

(** Joined with a two-byte separator neither byte of which occurs in
    [sub]. *)
Lemma Contains_Join2 (d e : ascii) (sub : string) (cols : list string) :
  sub <> "" -> lacks d sub = true -> lacks e sub = true ->
  strings.Contains (strings.Join cols (String d (String e ""))) sub
  = existsb (fun c => strings.Contains c sub) cols.
Proof.
  intros Hne Hd He.
  induction cols as [|c [|c' cols] IH].
  - now apply Contains_empty.
  - simpl. now rewrite orb_false_r.
  - change (strings.Join (c :: c' :: cols) (String d (String e "")))
      with (c ++ String d
              ("" ++ String e (strings.Join (c' :: cols) (String d (String e ""))))).
    rewrite !Contains_separator by assumption.
    now rewrite IH, Contains_empty.
Qed.

Lemma existsb_closedList (sub : string) (cols : list string) :
  sub <> "" -> lacks "," sub = true -> lacks ")" sub = true ->
  existsb (fun w => strings.Contains w sub) (closedList cols)
  = existsb (fun c => strings.Contains c sub) cols.
Proof.
  intros Hne Hcomma Hclose.
  assert (Hlast : forall c d, lacks d sub = true ->
             strings.Contains (c ++ String d "") sub = strings.Contains c sub).
  { intros c d Hd. rewrite Contains_separator by assumption.
    now rewrite Contains_empty, orb_false_r. }
  induction cols as [|c [|c' cols] IH].
  - change (existsb (fun w => strings.Contains w sub) (closedList []))
      with (strings.Contains ("" ++ String ")" "") sub || false).
    rewrite Hlast by assumption. now rewrite Contains_empty.
  - change (existsb (fun w => strings.Contains w sub) (closedList [c]))
      with (strings.Contains (c ++ String ")" "") sub || false).
    rewrite Hlast by assumption. reflexivity.
  - change (closedList (c :: c' :: cols)) with ((c ++ ",") :: closedList (c' :: cols)).
    change (existsb (fun w => strings.Contains w sub)
              ((c ++ ",") :: closedList (c' :: cols)))
      with (strings.Contains (c ++ ",") sub
            || existsb (fun w => strings.Contains w sub) (closedList (c' :: cols))).
    now rewrite IH, Hlast by assumption.
Qed.

Lemma existsb_columnList (sub : string) (cols : list string) :
  sub <> "" -> lacks "(" sub = true -> lacks "," sub = true ->
  lacks ")" sub = true ->
  existsb (fun w => strings.Contains w sub) (columnList cols)
  = existsb (fun c => strings.Contains c sub) cols.
Proof.
  intros Hne Hopen Hcomma Hclose.
  rewrite <- (existsb_closedList sub cols) by assumption.
  unfold columnList. destruct (closedList cols) as [|p ps]; [reflexivity|].
  change (strings.Contains ("" ++ String "(" p) sub
          || existsb (fun w => strings.Contains w sub) ps
          = strings.Contains p sub
            || existsb (fun w => strings.Contains w sub) ps).
  rewrite Contains_separator by assumption. now rewrite Contains_empty.
Qed.

(** The rewrite of a text that consists of plain words and single blanks. *)
Lemma formatIndexSQL_words (t : string) (toks : list string) :
  forallb (fun w => plain w && negb (w =? "")) toks = true ->
  let text := strings.Join toks " " in
  postgresqlBlueprint.formatIndexSQL t text
  = if existsb (fun w => strings.Contains w "INDEX") toks
       && negb (existsb (fun w => strings.Contains w "CREATE") toks)
       && (3 <=? List.length toks)%nat
    then "CREATE INDEX " ++ nth 1 toks "" ++ " ON " ++ DQ ++ t ++ DQ ++ " "
           ++ strings.Join (skipn 2 toks) " "
    else text.
Proof.
  intros H text.
  assert (Hbt : lacks "`" text = true).
  { unfold lacks, text. apply allChars_Join; [|reflexivity].
    rewrite forallb_forall in *. intros w Hw. specialize (H w Hw).
    apply andb_true_iff in H. destruct H as [Hp _].
    exact (allChars_impl _ _ w plainChar_not_backtick Hp). }
  assert (HF : strings.Fields text = toks) by exact (Fields_Join_plain toks H).
  assert (HI : strings.Contains text "INDEX"
               = existsb (fun w => strings.Contains w "INDEX") toks)
    by (apply (Contains_Join1 " "); discriminate || reflexivity).
  assert (HC : strings.Contains text "CREATE"
               = existsb (fun w => strings.Contains w "CREATE") toks)
    by (apply (Contains_Join1 " "); discriminate || reflexivity).
  unfold postgresqlBlueprint.formatIndexSQL. cbv zeta.
  rewrite (ReplaceAll_lacks_backtick text Hbt), !HF, HI, HC.
  destruct (existsb (fun w => strings.Contains w "INDEX") toks
            && negb (existsb (fun w => strings.Contains w "CREATE") toks));
    [|reflexivity].
  rewrite andb_true_l. destruct (3 <=? List.length toks)%nat; reflexivity.
Qed.

Lemma Join_cons (a : string) (rest : list string) (sep : string) :
  rest <> [] ->
  strings.Join (a :: rest) sep = a ++ sep ++ strings.Join rest sep.
Proof. destruct rest; [congruence | reflexivity]. Qed.

Lemma append_char_nonempty (x : string) (c : ascii) (y : string) :
  negb (x ++ String c y =? "") = true.
Proof. destruct x; reflexivity. Qed.

Lemma toIndexSQL_appendIndex (frag : string) (s : store) :
  postgresqlBlueprint.toIndexSQL (blueprint.appendIndex frag s)
  = append (postgresqlBlueprint.toIndexSQL s)
           (postgresqlBlueprint.formatIndexSQL (tableName (bp s)) frag).
Proof.
  rewrite !postgresql_toIndexSQL_statements. simpl. unfold append.
  now rewrite map_app.
Qed.

(** The name [Index] and its siblings synthesize is a plain word, and a
    text occurs in it only inside a column name (when it has no
    underscore and is not part of the suffix). *)
Lemma indexName_plain (cols : list string) (suffix : string) :
  forallb plain cols = true -> plain suffix = true ->
  plain (strings.Join cols "_" ++ String "_" suffix) = true.
Proof.
  intros Hc Hs. unfold plain in *.
  rewrite allChars_app. simpl. rewrite Hs, andb_true_r.
  now apply allChars_Join.
Qed.

Lemma indexName_Contains (cols : list string) (suffix sub : string) :
  sub <> "" -> lacks "_" sub = true -> strings.Contains suffix sub = false ->
  strings.Contains (strings.Join cols "_" ++ String "_" suffix) sub
  = existsb (fun c => strings.Contains c sub) cols.
Proof.
  intros Hne Hu Hs.
  rewrite Contains_separator, Hs, orb_false_r by assumption.
  now apply (Contains_Join1 "_").
Qed.

(** The fragment of [Index(cols)], for plain column names. *)
Lemma formatIndexSQL_Index (t : string) (cols : list string) :
  forallb plain cols = true ->
  postgresqlBlueprint.formatIndexSQL t
    ("INDEX " ++ (strings.Join cols "_" ++ "_index")
       ++ " (" ++ strings.Join cols ", " ++ ")")
  = if existsb (fun c => strings.Contains c "CREATE") cols
    then "INDEX " ++ strings.Join cols "_" ++ "_index ("
           ++ strings.Join cols ", " ++ ")"
    else "CREATE INDEX " ++ strings.Join cols "_" ++ "_index ON "
           ++ DQ ++ t ++ DQ ++ " (" ++ strings.Join cols ", " ++ ")".
Proof.
  intros Hp.
  destruct (columnList_plain cols Hp) as [Hcl Hne].
  pose (name := strings.Join cols "_" ++ String "_" "index").
  pose (toks := "INDEX" :: name :: columnList cols).
  assert (Htext : "INDEX " ++ (strings.Join cols "_" ++ "_index")
                    ++ " (" ++ strings.Join cols ", " ++ ")"
                  = strings.Join toks " ").
  { unfold toks. rewrite !Join_cons by (discriminate || exact Hne).
    rewrite Join_columnList. unfold name. flatten_appends. reflexivity. }
  assert (Htoks : forallb (fun w => plain w && negb (w =? "")) toks = true).
  { unfold toks. cbn [forallb]. rewrite Hcl. unfold name.
    now rewrite indexName_plain, append_char_nonempty by (exact Hp || reflexivity). }
  rewrite Htext, (formatIndexSQL_words t toks Htoks).
  unfold toks at 1 2.
  cbn [existsb]. unfold name at 1 2.
  rewrite !indexName_Contains, !existsb_columnList
    by (discriminate || reflexivity).
  replace (strings.Contains "INDEX" "INDEX") with true by reflexivity.
  replace (strings.Contains "INDEX" "CREATE") with false by reflexivity.
  rewrite orb_true_l, andb_true_l, orb_false_l, orb_diag.
  assert (Hlen : (3 <=? List.length toks)%nat = true).
  { unfold toks. destruct (columnList cols); [congruence | reflexivity]. }
  rewrite Hlen, andb_true_r.
  destruct (existsb (fun c => strings.Contains c "CREATE") cols); cbn [negb].
  - rewrite <- Htext. flatten_appends. reflexivity.
  - unfold toks. cbn [nth skipn]. rewrite Join_columnList. unfold name.
    flatten_appends. reflexivity.
Qed.

(** The fragment of [UniqueIndex(cols)] and [FullTextIndex(cols)]: a kind
    word, [INDEX], the name and the column list. *)
Lemma formatIndexSQL_kind_Index (t kind suffix : string) (cols : list string) :
  plain kind = true -> negb (kind =? "") = true ->
  strings.Contains kind "CREATE" = false ->
  plain suffix = true -> strings.Contains suffix "CREATE" = false ->
  forallb plain cols = true ->
  postgresqlBlueprint.formatIndexSQL t
    (kind ++ " INDEX " ++ (strings.Join cols "_" ++ String "_" suffix)
       ++ " (" ++ strings.Join cols ", " ++ ")")
  = if existsb (fun c => strings.Contains c "CREATE") cols
    then kind ++ " INDEX " ++ strings.Join cols "_" ++ String "_" suffix
           ++ " (" ++ strings.Join cols ", " ++ ")"
    else "CREATE INDEX INDEX ON " ++ DQ ++ t ++ DQ ++ " "
           ++ strings.Join cols "_" ++ String "_" suffix
           ++ " (" ++ strings.Join cols ", " ++ ")".
Proof.
  intros Hk Hkne HkC Hs HsC Hp.
  destruct (columnList_plain cols Hp) as [Hcl Hne].
  pose (name := strings.Join cols "_" ++ String "_" suffix).
  pose (toks := kind :: "INDEX" :: name :: columnList cols).
  assert (Htext : kind ++ " INDEX " ++ (strings.Join cols "_" ++ String "_" suffix)
                    ++ " (" ++ strings.Join cols ", " ++ ")"
                  = strings.Join toks " ").
  { unfold toks. rewrite !Join_cons by (discriminate || exact Hne).
    rewrite Join_columnList. unfold name. flatten_appends. reflexivity. }
  assert (Htoks : forallb (fun w => plain w && negb (w =? "")) toks = true).
  { unfold toks. cbn [forallb]. rewrite Hcl, Hk, Hkne. unfold name.
    now rewrite indexName_plain, append_char_nonempty by assumption. }
  rewrite Htext, (formatIndexSQL_words t toks Htoks).
  unfold toks at 1 2.
  cbn [existsb]. unfold name at 1 2.
  rewrite (indexName_Contains cols suffix "CREATE")
    by (discriminate || reflexivity || assumption).
  rewrite !existsb_columnList by (discriminate || reflexivity).
  replace (strings.Contains "INDEX" "INDEX") with true by reflexivity.
  replace (strings.Contains "INDEX" "CREATE") with false by reflexivity.
  rewrite HkC, orb_true_l, orb_true_r, andb_true_l, !orb_false_l, orb_diag.
  assert (Hlen : (3 <=? List.length toks)%nat = true) by reflexivity.
  rewrite Hlen, andb_true_r.
  destruct (existsb (fun c => strings.Contains c "CREATE") cols); cbn [negb].
  - rewrite <- Htext. flatten_appends. reflexivity.
  - unfold toks. cbn [nth skipn].
    rewrite Join_cons by exact Hne. rewrite Join_columnList. unfold name.
    flatten_appends. reflexivity.
Qed.

(** The fragment of [Primary(cols)]. *)
Lemma formatIndexSQL_Primary (t : string) (cols : list string) :
  forallb plain cols = true ->
  postgresqlBlueprint.formatIndexSQL t
    ("PRIMARY KEY (" ++ strings.Join cols ", " ++ ")")
  = if existsb (fun c => strings.Contains c "INDEX") cols
       && negb (existsb (fun c => strings.Contains c "CREATE") cols)
    then "CREATE INDEX KEY ON " ++ DQ ++ t ++ DQ
           ++ " (" ++ strings.Join cols ", " ++ ")"
    else "PRIMARY KEY (" ++ strings.Join cols ", " ++ ")".
Proof.
  intros Hp.
  destruct (columnList_plain cols Hp) as [Hcl Hne].
  pose (toks := "PRIMARY" :: "KEY" :: columnList cols).
  assert (Htext : "PRIMARY KEY (" ++ strings.Join cols ", " ++ ")"
                  = strings.Join toks " ").
  { unfold toks. rewrite !Join_cons by (discriminate || exact Hne).
    rewrite Join_columnList. flatten_appends. reflexivity. }
  assert (Htoks : forallb (fun w => plain w && negb (w =? "")) toks = true).
  { unfold toks. cbn [forallb]. now rewrite Hcl. }
  rewrite Htext, (formatIndexSQL_words t toks Htoks).
  unfold toks at 1 2.
  cbn [existsb].
  rewrite !existsb_columnList by (discriminate || reflexivity).
  replace (strings.Contains "PRIMARY" "INDEX") with false by reflexivity.
  replace (strings.Contains "KEY" "INDEX") with false by reflexivity.
  replace (strings.Contains "PRIMARY" "CREATE") with false by reflexivity.
  replace (strings.Contains "KEY" "CREATE") with false by reflexivity.
  rewrite !orb_false_l.
  assert (Hlen : (3 <=? List.length toks)%nat = true).
  { unfold toks. destruct (columnList cols); [congruence | reflexivity]. }
  rewrite Hlen, andb_true_r.
  destruct (existsb (fun c => strings.Contains c "INDEX") cols
            && negb (existsb (fun c => strings.Contains c "CREATE") cols)).
  - unfold toks. cbn [nth skipn]. rewrite Join_columnList.
    flatten_appends. reflexivity.
  - reflexivity.
Qed.

(** ** What PostgreSQL [Create] makes of the registered indexes *)

(** X13: for column names made of visible ASCII characters other than the
    backtick, the index registered by [Index(cols)] becomes the statement
    [CREATE INDEX cols_index ON "table" (cols)] on the PostgreSQL create
    path, unless a column name contains the text [CREATE]: then the stored
    fragment [INDEX cols_index (cols)] is executed as it is. *)
Theorem postgresql_statement_of_Index (cols : list string) (s : store) :
  forallb plain cols = true ->
  postgresqlBlueprint.toIndexSQL (blueprint.Index cols s)
  = append (postgresqlBlueprint.toIndexSQL s)
      (if existsb (fun c => strings.Contains c "CREATE") cols
       then "INDEX " ++ strings.Join cols "_" ++ "_index ("
              ++ strings.Join cols ", " ++ ")"
       else "CREATE INDEX " ++ strings.Join cols "_" ++ "_index ON "
              ++ DQ ++ tableName (bp s) ++ DQ
              ++ " (" ++ strings.Join cols ", " ++ ")").
Proof.
  intros Hp. unfold blueprint.Index.
  rewrite toIndexSQL_appendIndex. f_equal.
  now apply formatIndexSQL_Index.
Qed.

Lemma postgresql_statement_of_Index_witness :
  postgresqlBlueprint.toIndexSQL
    (blueprint.Index ["user_id"; "CREATED_AT"] (newBlueprint (fun c => 2 * c) "posts"))
  = ["INDEX user_id_CREATED_AT_index (user_id, CREATED_AT)"]
  /\ postgresqlBlueprint.toIndexSQL
       (blueprint.Index ["user_id"; "created_at"]
                        (newBlueprint (fun c => 2 * c) "posts"))
     = ["CREATE INDEX user_id_created_at_index ON " ++ DQ ++ "posts" ++ DQ
          ++ " (user_id, created_at)"].
Proof.
  split.
  - apply (postgresql_statement_of_Index ["user_id"; "CREATED_AT"]
             (newBlueprint (fun c => 2 * c) "posts")).
    reflexivity.
  - apply (postgresql_statement_of_Index ["user_id"; "created_at"]
             (newBlueprint (fun c => 2 * c) "posts")).
    reflexivity.
Defined.

(** X14: under the same condition on the names, [UniqueIndex(cols)] and
    [FullTextIndex(cols)] both become a plain index named [INDEX]: the
    statement is [CREATE INDEX INDEX ON "table" name (cols)], with the
    synthesized name where the column list should start and nothing left of
    [UNIQUE] or [FULLTEXT]; when a column name contains [CREATE] the stored
    fragment is executed as it is. *)
Theorem postgresql_statement_of_UniqueIndex_and_FullTextIndex
  (cols : list string) (s : store) :
  forallb plain cols = true ->
  postgresqlBlueprint.toIndexSQL (blueprint.UniqueIndex cols s)
  = append (postgresqlBlueprint.toIndexSQL s)
      (if existsb (fun c => strings.Contains c "CREATE") cols
       then "UNIQUE INDEX " ++ strings.Join cols "_" ++ "_unique ("
              ++ strings.Join cols ", " ++ ")"
       else "CREATE INDEX INDEX ON " ++ DQ ++ tableName (bp s) ++ DQ ++ " "
              ++ strings.Join cols "_" ++ "_unique ("
              ++ strings.Join cols ", " ++ ")")
  /\ postgresqlBlueprint.toIndexSQL (blueprint.FullTextIndex cols s)
     = append (postgresqlBlueprint.toIndexSQL s)
         (if existsb (fun c => strings.Contains c "CREATE") cols
          then "FULLTEXT INDEX " ++ strings.Join cols "_" ++ "_fulltext ("
                 ++ strings.Join cols ", " ++ ")"
          else "CREATE INDEX INDEX ON " ++ DQ ++ tableName (bp s) ++ DQ ++ " "
                 ++ strings.Join cols "_" ++ "_fulltext ("
                 ++ strings.Join cols ", " ++ ")").
Proof.
  intros Hp. unfold blueprint.UniqueIndex, blueprint.FullTextIndex.
  rewrite !toIndexSQL_appendIndex. split; f_equal.
  - pose proof (formatIndexSQL_kind_Index (tableName (bp s)) "UNIQUE" "unique" cols
                  eq_refl eq_refl eq_refl eq_refl eq_refl Hp) as H.
    etransitivity; [etransitivity; [|exact H]|].
    + f_equal; flatten_appends; reflexivity.
    + destruct (existsb _ cols); flatten_appends; reflexivity.
  - pose proof (formatIndexSQL_kind_Index (tableName (bp s)) "FULLTEXT" "fulltext"
                  cols eq_refl eq_refl eq_refl eq_refl eq_refl Hp) as H.
    etransitivity; [etransitivity; [|exact H]|].
    + f_equal; flatten_appends; reflexivity.
    + destruct (existsb _ cols); flatten_appends; reflexivity.
Qed.

Lemma postgresql_statement_of_UniqueIndex_witness :
  postgresqlBlueprint.toIndexSQL
    (blueprint.UniqueIndex ["email"; "tenant"] (newBlueprint (fun c => 2 * c) "users"))
  = ["CREATE INDEX INDEX ON " ++ DQ ++ "users" ++ DQ
       ++ " email_tenant_unique (email, tenant)"]
  /\ postgresqlBlueprint.toIndexSQL
       (blueprint.FullTextIndex ["email"; "tenant"]
                                (newBlueprint (fun c => 2 * c) "users"))
     = ["CREATE INDEX INDEX ON " ++ DQ ++ "users" ++ DQ
          ++ " email_tenant_fulltext (email, tenant)"].
Proof.
  apply (postgresql_statement_of_UniqueIndex_and_FullTextIndex
           ["email"; "tenant"] (newBlueprint (fun c => 2 * c) "users")).
  reflexivity.
Defined.

(** X15: under the same condition on the names, the fragment of
    [Primary(cols)] is executed by PostgreSQL [Create] as a statement of its
    own, [PRIMARY KEY (cols)], as stored; only when a column name contains
    [INDEX] and none contains [CREATE] is it rewritten, to
    [CREATE INDEX KEY ON "table" (cols)]. *)
Theorem postgresql_statement_of_Primary (cols : list string) (s : store) :
  forallb plain cols = true ->
  postgresqlBlueprint.toIndexSQL (blueprint.Primary cols s)
  = append (postgresqlBlueprint.toIndexSQL s)
      (if existsb (fun c => strings.Contains c "INDEX") cols
          && negb (existsb (fun c => strings.Contains c "CREATE") cols)
       then "CREATE INDEX KEY ON " ++ DQ ++ tableName (bp s) ++ DQ
              ++ " (" ++ strings.Join cols ", " ++ ")"
       else "PRIMARY KEY (" ++ strings.Join cols ", " ++ ")").
Proof.
  intros Hp. unfold blueprint.Primary.
  rewrite toIndexSQL_appendIndex. f_equal.
  now apply formatIndexSQL_Primary.
Qed.

Lemma postgresql_statement_of_Primary_witness :
  postgresqlBlueprint.toIndexSQL
    (blueprint.Primary ["tenant"; "id"] (newBlueprint (fun c => 2 * c) "users"))
  = ["PRIMARY KEY (tenant, id)"]
  /\ postgresqlBlueprint.toIndexSQL
       (blueprint.Primary ["INDEX_no"] (newBlueprint (fun c => 2 * c) "users"))
     = ["CREATE INDEX KEY ON " ++ DQ ++ "users" ++ DQ ++ " (INDEX_no)"].
Proof.
  split.
  - apply (postgresql_statement_of_Primary ["tenant"; "id"]
             (newBlueprint (fun c => 2 * c) "users")).
    reflexivity.
  - apply (postgresql_statement_of_Primary ["INDEX_no"]
             (newBlueprint (fun c => 2 * c) "users")).
    reflexivity.
Defined.

(** * Properties of package routing *)

Section RoutingProperties.

Context {HandlerFunc : Type}.
Variable growslice : nat -> nat -> nat.

Local Abbreviation MiddlewareFunc := (@routing.MiddlewareFunc HandlerFunc).
Local Abbreviation Route := (@routing.Route HandlerFunc).
Local Abbreviation RouteGroup := (@routing.RouteGroup HandlerFunc).
Local Abbreviation Heap := (@routing.Heap HandlerFunc).

(** Induction on a group with the property at hand for its subgroups. *)
Section GroupInduction.

Variable P : RouteGroup -> Prop.
Hypothesis step_group :
  forall p mws routes groups,
    Forall P groups -> P (routing.mkRouteGroup p mws routes groups).

Lemma RouteGroup_induction : forall g : RouteGroup, P g.
Proof.
  fix IH 1. intros [p mws routes groups]. apply step_group.
  induction groups as [|sub rest IHrest]; constructor;
    [apply IH | exact IHrest].
Qed.

End GroupInduction.

Lemma flatten_unfold (p : string) (mws : list MiddlewareFunc)
  (routes : list Route) (groups : list RouteGroup)
  (parentPrefix : string) (parentMiddlewares : routing.Slice) (h : Heap) :
  routing.flatten growslice (routing.mkRouteGroup p mws routes groups)
                  parentPrefix parentMiddlewares h
  = let fullPrefix := parentPrefix ++ p in
    let (allMiddlewares, h1) := routing.appendTo growslice parentMiddlewares mws h in
    let (result, h2) :=
      routing.flattenRoutes growslice fullPrefix allMiddlewares routes h1 in
    routing.flattenGroups growslice groups fullPrefix allMiddlewares result h2.
Proof.
  cbn [routing.flatten]. cbv zeta.
  destruct (routing.appendTo growslice parentMiddlewares mws h) as [allMw h1].
  destruct (routing.flattenRoutes growslice (parentPrefix ++ p) allMw routes h1)
    as [result h2].
  revert result h2. induction groups as [|sub rest IH]; intros result h2;
    [reflexivity|].
  cbn [routing.flattenGroups].
  destruct (routing.flatten growslice sub (parentPrefix ++ p) allMw h2) as [r h3].
  apply IH.
Qed.

(** ** [handle]: the first middleware is the outermost *)

Lemma applyReverse_firstn (mws : list MiddlewareFunc) (i : nat) :
  i <= List.length mws ->
  forall hd,
    routing.applyReverse mws i hd = fold_right (fun mw k => mw k) hd (firstn i mws).
Proof.
  induction i as [|j IH]; intros Hi hd; [reflexivity|].
  cbn [routing.applyReverse]. rewrite IH by lia.
  assert (Hsplit : firstn (S j) mws = (firstn j mws ++ [nth j mws (fun x => x)])%list).
  { clear IH hd. revert j Hi. induction mws as [|m mws IHm]; intros j Hi;
      simpl in Hi; [lia|].
    destruct j as [|j]; [reflexivity|].
    cbn [firstn nth app]. f_equal. apply (IHm j). lia. }
  rewrite Hsplit, fold_right_app. reflexivity.
Qed.

(** X16: [handle] wraps the handler of a route in its middlewares so that
    the first middleware of the slice is the outermost and the last one is
    applied to the handler itself: [m1 (m2 (... (mk handler)))]; the same
    holds for the global middlewares [Handler] applies on top. *)
Theorem handle_applies_first_middleware_outermost
  (r : Route) (heap : Heap) (globals : list MiddlewareFunc) (hd : HandlerFunc) :
  routing.handle r heap
  = fold_right (fun mw k => mw k) (routing.handler r)
               (routing.elems (routing.middlewares r) heap)
  /\ routing.applyReverse globals (List.length globals) hd
     = fold_right (fun mw k => mw k) hd globals.
Proof.
  unfold routing.handle. split.
  - rewrite applyReverse_firstn by lia. now rewrite firstn_all.
  - rewrite applyReverse_firstn by lia. now rewrite firstn_all.
Qed.

(** ** [flatten]: which routes, under which patterns *)

Lemma flattenRoutes_keys (full : string) (allMw : routing.Slice)
  (routes : list Route) :
  forall (acc : list Route) (h : Heap),
    map routing.routeKey
        (fst (fold_left
                (fun acc route =>
                   let (result, h) := acc : list Route * Heap in
                   let (mws, h) :=
                     routing.appendTo growslice allMw
                       (routing.elems (routing.middlewares route) h) h in
                   (append result
                      (routing.mkRoute (routing.method route)
                         (full ++ routing.pattern route)
                         (routing.handler route) mws), h))
                routes (acc, h)))
    = app (map routing.routeKey acc)
          (map (fun r => (routing.method r, full ++ routing.pattern r,
                          routing.handler r)) routes).
Proof.
  induction routes as [|r routes IH]; intros acc h; simpl.
  - now rewrite app_nil_r.
  - destruct (routing.appendTo growslice allMw
                (routing.elems (routing.middlewares r) h) h) as [mws h'].
    rewrite IH. unfold append. rewrite map_app. simpl.
    now rewrite <- app_assoc.
Qed.

Lemma flattenGroups_keys (full : string) (allMw : routing.Slice)
  (groups : list RouteGroup) :
  Forall (fun g => forall pp pm h,
              map routing.routeKey (fst (routing.flatten growslice g pp pm h))
              = map (routing.under pp) (routing.paths g)) groups ->
  forall (result : list Route) (h : Heap),
    map routing.routeKey (fst (routing.flattenGroups growslice groups full allMw result h))
    = app (map routing.routeKey result)
          (flat_map (fun sub => map (routing.under full) (routing.paths sub)) groups).
Proof.
  induction groups as [|sub rest IH]; intros Hall result h; simpl.
  - now rewrite app_nil_r.
  - inversion Hall as [|? ? Hsub Hrest]; subst.
    specialize (Hsub full allMw h).
    destruct (routing.flatten growslice sub full allMw h) as [r h'].
    rewrite IH by exact Hrest. simpl in Hsub.
    now rewrite map_app, Hsub, <- app_assoc.
Qed.

Lemma flatten_keys (g : RouteGroup) :
  forall pp pm h,
    map routing.routeKey (fst (routing.flatten growslice g pp pm h))
    = map (routing.under pp) (routing.paths g).
Proof.
  induction g as [p mws routes groups IH] using RouteGroup_induction.
  intros pp pm h. rewrite flatten_unfold. cbv zeta.
  destruct (routing.appendTo growslice pm mws h) as [allMw h1].
  unfold routing.flattenRoutes.
  pose proof (flattenRoutes_keys (pp ++ p) allMw routes [] h1) as Hr.
  destruct (fold_left _ routes ([], h1)) as [result h2].
  rewrite (flattenGroups_keys (pp ++ p) allMw groups IH).
  simpl in Hr. rewrite Hr. cbn [routing.paths].
  rewrite map_app, map_map. f_equal.
  - apply map_ext. intros r. unfold routing.under. simpl.
    now rewrite string_append_assoc.
  - clear. induction groups as [|sub rest IHg]; [reflexivity|].
    simpl. rewrite map_app, IHg. f_equal.
    rewrite !map_map. apply map_ext. intros [[m q] hd]. unfold routing.under. simpl.
    now rewrite string_append_assoc.
Qed.

(** X17: the routes [flatten] returns, their methods, patterns and
    handlers and their order do not depend on any middleware nor on the
    state of the heap: they are the direct routes of the group, then the
    routes of each subgroup in turn, each pattern behind the prefixes of the
    groups above it and the parent prefix; a route is never dropped or
    doubled. *)
Theorem flatten_routes_and_patterns
  (g : RouteGroup) (parentPrefix : string) (parentMiddlewares : routing.Slice)
  (h : Heap) :
  map routing.routeKey (fst (routing.flatten growslice g parentPrefix parentMiddlewares h))
  = map (routing.under parentPrefix) (routing.paths g)
  /\ List.length (fst (routing.flatten growslice g parentPrefix parentMiddlewares h))
     = List.length (routing.paths g).
Proof.
  pose proof (flatten_keys g parentPrefix parentMiddlewares h) as H.
  split; [exact H|].
  rewrite <- (length_map routing.routeKey), H. apply length_map.
Qed.

(** ** [flatten]: which middlewares *)

(** What a slice needs of the heap is kept: no array is lost, its own array
    keeps its elements, every other array is as it was. *)
Definition keeps (s : routing.Slice) (h h' : Heap) : Prop :=
  List.length h <= List.length h'
  /\ forall q, q < List.length h ->
       (routing.base s = Some q ->
        firstn (routing.len s) (nth q h' []) = firstn (routing.len s) (nth q h []))
       /\ (routing.base s <> Some q -> nth q h' [] = nth q h []).

Lemma keeps_refl (s : routing.Slice) (h : Heap) : keeps s h h.
Proof. split; [lia|]. intros q _. split; reflexivity. Qed.

Lemma keeps_elems (s : routing.Slice) (h h' : Heap) :
  routing.valid s h -> keeps s h h' -> routing.elems s h' = routing.elems s h.
Proof.
  unfold routing.valid, routing.elems. intros Hv [_ Hk].
  destruct (routing.base s) as [p|] eqn:Hb; [|reflexivity].
  destruct Hv as [Hp _]. destruct (Hk p Hp) as [Hsame _]. now apply Hsame.
Qed.

Lemma valid_elems_length (s : routing.Slice) (h : Heap) :
  routing.valid s h -> List.length (routing.elems s h) = routing.len s.
Proof.
  unfold routing.valid, routing.elems. intros Hv.
  destruct (routing.base s) as [p|]; [|now rewrite Hv].
  destruct Hv as [_ Hl]. rewrite length_firstn. lia.
Qed.

Lemma appendTo_nothing (s : routing.Slice) (h : Heap) :
  routing.appendTo growslice s [] h = (s, h).
Proof. reflexivity. Qed.

Lemma firstn_written (len : nat) (xs a : list MiddlewareFunc) (n : nat) :
  len <= List.length a -> n <= len + List.length xs ->
  firstn n (firstn len a ++ xs ++ skipn (len + List.length xs) a)%list
  = firstn n (firstn len a ++ xs)%list.
Proof.
  intros Ha Hn. rewrite app_assoc, firstn_app.
  replace (n - List.length (firstn len a ++ xs)%list) with 0
    by (rewrite length_app, length_firstn; lia).
  now rewrite firstn_O, app_nil_r.
Qed.

Lemma firstn_prefix (len : nat) (xs a : list MiddlewareFunc) :
  len <= List.length a ->
  firstn len (firstn len a ++ xs)%list = firstn len a.
Proof.
  intros Ha. rewrite firstn_app.
  replace (len - List.length (firstn len a)) with 0
    by (rewrite length_firstn; lia).
  rewrite firstn_O, app_nil_r. apply firstn_all2. rewrite length_firstn. lia.
Qed.

Lemma appendTo_grown (s : routing.Slice) (xs : list MiddlewareFunc) (h : Heap) :
  routing.valid s h ->
  let s' := routing.mkSlice (Some (List.length h))
              (routing.len s + List.length xs)
              (Nat.max (routing.len s + List.length xs)
                 (growslice (routing.cap s) (routing.len s + List.length xs))) in
  let h1 := append h (routing.elems s h ++ xs)%list in
  keeps s h h1 /\ routing.valid s' h1
  /\ routing.elems s' h1 = (routing.elems s h ++ xs)%list
  /\ forall h2, keeps s' h1 h2 -> keeps s h h2.
Proof.
  intros Hv. cbv zeta. unfold append.
  assert (Hlen : List.length (routing.elems s h ++ xs)%list
                 = routing.len s + List.length xs).
  { now rewrite length_app, valid_elems_length. }
  split; [|split; [|split]].
  - split; [rewrite length_app; simpl; lia|].
    intros q Hq. split; intros _; now rewrite app_nth1.
  - unfold routing.valid. cbn [routing.base routing.len].
    rewrite length_app, nth_middle. simpl. lia.
  - unfold routing.elems at 1. cbn [routing.base routing.len].
    rewrite nth_middle, <- Hlen. apply firstn_all.
  - intros h2 [Hl Hk]. rewrite length_app in Hl, Hk. simpl in Hl, Hk.
    split; [lia|]. intros q Hq.
    destruct (Hk q ltac:(lia)) as [_ Hother]. cbn [routing.base] in Hother.
    rewrite Hother by (intros E; inversion E; lia).
    rewrite app_nth1 by exact Hq. split; reflexivity.
Qed.

Lemma appendTo_in_place (s : routing.Slice) (xs : list MiddlewareFunc)
  (h : Heap) (p : nat) :
  routing.valid s h -> routing.base s = Some p ->
  let needed := routing.len s + List.length xs in
  let s' := routing.mkSlice (Some p) needed (routing.cap s) in
  let h1 := update p (fun a => (firstn (routing.len s) a ++ xs
                                ++ skipn needed a)%list) h in
  keeps s h h1 /\ routing.valid s' h1
  /\ routing.elems s' h1 = (routing.elems s h ++ xs)%list
  /\ forall h2, keeps s' h1 h2 -> keeps s h h2.
Proof.
  intros Hv Hb. cbv zeta. unfold routing.valid in Hv. rewrite Hb in Hv.
  destruct Hv as [Hp Hl].
  split; [|split; [|split]].
  - split; [rewrite update_length; lia|].
    intros q Hq. split.
    + intros E. rewrite Hb in E. injection E as <-.
      rewrite nth_update_same by exact Hp.
      rewrite firstn_written by (exact Hl || lia).
      now apply firstn_prefix.
    + intros E. apply nth_update_other. intros E'. apply E. now subst.
  - unfold routing.valid. cbn [routing.base routing.len].
    rewrite update_length. split; [exact Hp|].
    rewrite nth_update_same by exact Hp.
    rewrite !length_app, length_firstn. lia.
  - unfold routing.elems. cbn [routing.base routing.len]. rewrite Hb.
    rewrite nth_update_same by exact Hp.
    rewrite firstn_written by (exact Hl || lia).
    apply firstn_all2. rewrite length_app, length_firstn. lia.
  - intros h2 [Hl2 Hk]. rewrite update_length in Hl2, Hk.
    split; [exact Hl2|]. intros q Hq. cbn [routing.base routing.len] in Hk.
    destruct (Hk q Hq) as [Hsame Hother]. split.
    + intros E. rewrite Hb in E. injection E as <-.
      specialize (Hsame eq_refl).
      rewrite nth_update_same in Hsame by exact Hp.
      rewrite firstn_written in Hsame by (exact Hl || lia).
      apply (f_equal (firstn (routing.len s))) in Hsame.
      rewrite !firstn_firstn in Hsame.
      replace (Nat.min (routing.len s) (routing.len s + List.length xs))
        with (routing.len s) in Hsame by lia.
      rewrite Hsame. now apply firstn_prefix.
    + intros E. rewrite Hb in E.
      rewrite Hother by exact E.
      apply nth_update_other. intros E'. apply E. now subst.
Qed.

Lemma appendTo_keeps (s : routing.Slice) (xs : list MiddlewareFunc) (h : Heap) :
  routing.valid s h ->
  keeps s h (snd (routing.appendTo growslice s xs h))
  /\ routing.valid (fst (routing.appendTo growslice s xs h))
                   (snd (routing.appendTo growslice s xs h))
  /\ routing.elems (fst (routing.appendTo growslice s xs h))
                   (snd (routing.appendTo growslice s xs h))
     = (routing.elems s h ++ xs)%list
  /\ forall h2, keeps (fst (routing.appendTo growslice s xs h))
                      (snd (routing.appendTo growslice s xs h)) h2 ->
                keeps s h h2.
Proof.
  intros Hv. destruct xs as [|x xs'].
  { cbn [routing.appendTo fst snd]. rewrite app_nil_r.
    split; [apply keeps_refl|]. split; [exact Hv|]. split; [reflexivity|].
    intros h2 Hk. exact Hk. }
  unfold routing.appendTo.
  destruct (routing.base s) as [p|] eqn:Hb;
    [|exact (appendTo_grown s (x :: xs') h Hv)].
  destruct (routing.len s + List.length (x :: xs') <=? routing.cap s)%nat;
    [|exact (appendTo_grown s (x :: xs') h Hv)].
  exact (appendTo_in_place s (x :: xs') h p Hv Hb).
Qed.

Lemma flattenRoutes_builder (full : string) (allMw : routing.Slice)
  (routes : list Route) (h : Heap) :
  forallb (fun r => routing.isNil (routing.middlewares r)) routes = true ->
  routing.flattenRoutes growslice full allMw routes h
  = (map (fun r => routing.mkRoute (routing.method r)
                     (full ++ routing.pattern r) (routing.handler r) allMw)
         routes, h).
Proof.
  unfold routing.flattenRoutes.
  change (@nil Route) with (@nil Route) at 1.
  rewrite <- (app_nil_l (map _ routes)). generalize (@nil Route) as acc.
  induction routes as [|r routes IH]; intros acc Hnil.
  - simpl. now rewrite app_nil_r.
  - cbn [forallb] in Hnil. apply andb_prop in Hnil as [Hr Hrest].
    cbn [fold_left map].
    assert (He : routing.elems (routing.middlewares r) h = []).
    { unfold routing.elems. unfold routing.isNil in Hr.
      now destruct (routing.base (routing.middlewares r)). }
    rewrite He, appendTo_nothing. rewrite IH by exact Hrest.
    unfold append. now rewrite <- app_assoc.
Qed.

Lemma middlewaresIn_app (h : Heap) (rs rs' : list Route) :
  routing.middlewaresIn h (rs ++ rs')%list
  = (routing.middlewaresIn h rs ++ routing.middlewaresIn h rs')%list.
Proof. apply map_app. Qed.

Lemma middlewaresIn_direct (h : Heap) (full : string) (allMw : routing.Slice)
  (routes : list Route) :
  routing.middlewaresIn h
    (map (fun r => routing.mkRoute (routing.method r)
                     (full ++ routing.pattern r) (routing.handler r) allMw)
         routes)
  = map (fun _ => routing.elems allMw h) routes.
Proof. unfold routing.middlewaresIn. rewrite map_map. reflexivity. Qed.

(** A group without middlewares anywhere hands the slice it was given to
    each of its routes and leaves the heap alone. *)
Definition handsDown (g : RouteGroup) : Prop :=
  routing.writes g = false -> routing.builderRoutes g = true ->
  forall pp pm h,
    snd (routing.flatten growslice g pp pm h) = h
    /\ forall h' above,
         routing.elems pm h' = above ->
         routing.middlewaresIn h' (fst (routing.flatten growslice g pp pm h))
         = routing.intended g above.

Lemma flattenGroups_handDown (full : string) (allMw : routing.Slice)
  (gs : list RouteGroup) :
  Forall handsDown gs ->
  existsb routing.writes gs = false ->
  forallb routing.builderRoutes gs = true ->
  forall res h,
    snd (routing.flattenGroups growslice gs full allMw res h) = h
    /\ exists new,
         fst (routing.flattenGroups growslice gs full allMw res h)
         = (res ++ new)%list
         /\ forall h' above,
              routing.elems allMw h' = above ->
              routing.middlewaresIn h' new
              = flat_map (fun sub => routing.intended sub above) gs.
Proof.
  induction gs as [|sub rest IH]; intros Hall Hw Hb res h.
  - split; [reflexivity|]. exists []. split; [now rewrite app_nil_r|].
    reflexivity.
  - inversion Hall as [|? ? Hsub Hrest]; subst.
    cbn [existsb] in Hw. apply orb_false_elim in Hw as [Hw1 Hw2].
    cbn [forallb] in Hb. apply andb_prop in Hb as [Hb1 Hb2].
    destruct (Hsub Hw1 Hb1 full allMw h) as [Hheap Hmws].
    cbn [routing.flattenGroups].
    destruct (routing.flatten growslice sub full allMw h) as [rs h1].
    cbn [fst snd] in Hheap, Hmws. subst h1.
    destruct (IH Hrest Hw2 Hb2 (res ++ rs)%list h) as [Hh [new [Hnew Hrd]]].
    split; [exact Hh|]. exists (rs ++ new)%list.
    split; [now rewrite Hnew, app_assoc|].
    intros h' above Ha. cbn [flat_map].
    now rewrite middlewaresIn_app, (Hmws h' above Ha), (Hrd h' above Ha).
Qed.

Lemma flatten_handsDown (g : RouteGroup) : handsDown g.
Proof.
  induction g as [p mws routes groups IH] using RouteGroup_induction.
  intros Hw Hb pp pm h. cbn [routing.writes] in Hw.
  destruct mws as [|mw mws]; [|discriminate].
  cbn [routing.builderRoutes] in Hb. apply andb_prop in Hb as [Hb1 Hb2].
  rewrite flatten_unfold. cbv zeta. rewrite appendTo_nothing.
  rewrite flattenRoutes_builder by exact Hb1.
  destruct (flattenGroups_handDown (pp ++ p) pm groups IH Hw Hb2
              (map (fun r => routing.mkRoute (routing.method r)
                               ((pp ++ p) ++ routing.pattern r)
                               (routing.handler r) pm) routes) h)
    as [Hh [new [Hnew Hrd]]].
  split; [exact Hh|]. intros h' above Ha.
  rewrite Hnew, middlewaresIn_app, middlewaresIn_direct, (Hrd h' above Ha).
  cbn [routing.intended]. rewrite Ha, app_nil_r. reflexivity.
Qed.

(** With one writing subgroup at most, what [flatten] does to the heap
    keeps the slice handed down, and each route reads the middlewares meant
    for it. *)
Definition readsIntended (g : RouteGroup) : Prop :=
  routing.singleWriter g = true -> routing.builderRoutes g = true ->
  forall pp pm h,
    routing.valid pm h ->
    keeps pm h (snd (routing.flatten growslice g pp pm h))
    /\ routing.middlewaresIn (snd (routing.flatten growslice g pp pm h))
                             (fst (routing.flatten growslice g pp pm h))
       = routing.intended g (routing.elems pm h).

Lemma filter_nil_existsb {A : Type} (f : A -> bool) (l : list A) :
  filter f l = [] -> existsb f l = false.
Proof.
  induction l as [|x l IH]; [reflexivity|]. simpl.
  destruct (f x); [discriminate|]. exact IH.
Qed.

Lemma flattenGroups_readIntended (full : string) (allMw : routing.Slice)
  (gs : list RouteGroup) :
  Forall readsIntended gs ->
  List.length (filter routing.writes gs) <= 1 ->
  forallb routing.singleWriter gs = true ->
  forallb routing.builderRoutes gs = true ->
  forall res h,
    routing.valid allMw h ->
    keeps allMw h (snd (routing.flattenGroups growslice gs full allMw res h))
    /\ exists new,
         fst (routing.flattenGroups growslice gs full allMw res h)
         = (res ++ new)%list
         /\ routing.middlewaresIn
              (snd (routing.flattenGroups growslice gs full allMw res h)) new
            = flat_map (fun sub => routing.intended sub (routing.elems allMw h)) gs.
Proof.
  induction gs as [|sub rest IH]; intros Hall Hone Hs Hb res h Hv.
  - split; [apply keeps_refl|]. exists []. split; [now rewrite app_nil_r|].
    reflexivity.
  - inversion Hall as [|? ? Hsub Hrest]; subst.
    cbn [forallb] in Hs, Hb.
    apply andb_prop in Hs as [Hs1 Hs2]. apply andb_prop in Hb as [Hb1 Hb2].
    cbn [filter] in Hone. cbn [routing.flattenGroups flat_map].
    destruct (routing.writes sub) eqn:Hw.
    + (* the writer: the subgroups after it hand the slice down *)
      assert (Hnone : existsb routing.writes rest = false).
      { apply filter_nil_existsb.
        destruct (filter routing.writes rest); [reflexivity|simpl in Hone; lia]. }
      destruct (Hsub Hs1 Hb1 full allMw h Hv) as [Hk Hrd].
      destruct (routing.flatten growslice sub full allMw h) as [rs h1].
      cbn [fst snd] in Hk, Hrd.
      destruct (flattenGroups_handDown full allMw rest
                  ltac:(apply Forall_forall; intros; apply flatten_handsDown)
                  Hnone Hb2 (res ++ rs)%list h1) as [Hh [new [Hnew Hrest']]].
      rewrite Hh. split; [exact Hk|]. exists (rs ++ new)%list.
      split; [now rewrite Hnew, app_assoc|].
      rewrite middlewaresIn_app, Hrd.
      now rewrite (Hrest' h1 (routing.elems allMw h) (keeps_elems _ _ _ Hv Hk)).
    + (* a subgroup that hands the slice down *)
      destruct (flatten_handsDown sub Hw Hb1 full allMw h) as [Hh Hrd].
      destruct (routing.flatten growslice sub full allMw h) as [rs h1].
      cbn [fst snd] in Hh, Hrd. subst h1.
      destruct (IH Hrest Hone Hs2 Hb2 (res ++ rs)%list h Hv)
        as [Hk [new [Hnew Hrest']]].
      split; [exact Hk|]. exists (rs ++ new)%list.
      split; [now rewrite Hnew, app_assoc|].
      rewrite middlewaresIn_app, Hrest'.
      now rewrite (Hrd _ (routing.elems allMw h) (keeps_elems _ _ _ Hv Hk)).
Qed.

Lemma flatten_readsIntended (g : RouteGroup) : readsIntended g.
Proof.
  induction g as [p mws routes groups IH] using RouteGroup_induction.
  intros Hs Hb pp pm h Hv.
  cbn [routing.singleWriter] in Hs. apply andb_prop in Hs as [Hone Hs].
  apply Nat.leb_le in Hone.
  cbn [routing.builderRoutes] in Hb. apply andb_prop in Hb as [Hb1 Hb2].
  rewrite flatten_unfold. cbv zeta.
  destruct (appendTo_keeps pm mws h Hv) as [Hk1 [Hv1 [He1 Hback]]].
  destruct (routing.appendTo growslice pm mws h) as [allMw h1].
  cbn [fst snd] in Hk1, Hv1, He1, Hback.
  rewrite flattenRoutes_builder by exact Hb1.
  destruct (flattenGroups_readIntended (pp ++ p) allMw groups IH Hone Hs Hb2
              (map (fun r => routing.mkRoute (routing.method r)
                               ((pp ++ p) ++ routing.pattern r)
                               (routing.handler r) allMw) routes) h1 Hv1)
    as [Hk [new [Hnew Hrd]]].
  split; [now apply Hback|].
  rewrite Hnew, middlewaresIn_app, middlewaresIn_direct, Hrd.
  rewrite (keeps_elems _ _ _ Hv1 Hk), He1. reflexivity.
Qed.

(** X18: when the routes come from the builders and, at every level of the
    nesting, at most one subgroup has middlewares in it, each route
    [flatten] returns carries the middlewares of the slice handed in and
    then those of the groups on its way down, outermost group first,
    whatever capacity the runtime gives the slices; and the elements of the
    slice handed in are still in place. *)
Theorem flatten_middlewares_with_one_writing_subgroup
  (g : RouteGroup) (parentPrefix : string) (parentMiddlewares : routing.Slice)
  (h : Heap) :
  routing.singleWriter g = true ->
  routing.builderRoutes g = true ->
  routing.valid parentMiddlewares h ->
  routing.middlewaresIn
    (snd (routing.flatten growslice g parentPrefix parentMiddlewares h))
    (fst (routing.flatten growslice g parentPrefix parentMiddlewares h))
  = routing.intended g (routing.elems parentMiddlewares h)
  /\ routing.elems parentMiddlewares
       (snd (routing.flatten growslice g parentPrefix parentMiddlewares h))
     = routing.elems parentMiddlewares h.
Proof.
  intros Hs Hb Hv.
  destruct (flatten_readsIntended g Hs Hb parentPrefix parentMiddlewares h Hv)
    as [Hk Hrd].
  split; [exact Hrd|]. now apply keeps_elems.
Qed.

Lemma keeps_valid (s : routing.Slice) (h h' : Heap) :
  routing.valid s h -> keeps s h h' -> routing.valid s h'.
Proof.
  unfold routing.valid. intros Hv [Hl Hk].
  destruct (routing.base s) as [p|] eqn:Hb; [|exact Hv].
  destruct Hv as [Hp Hlen]. split; [lia|].
  destruct (Hk p Hp) as [Hsame _]. specialize (Hsame eq_refl).
  apply (f_equal (@List.length _)) in Hsame.
  rewrite !length_firstn in Hsame. lia.
Qed.

Lemma appendTo_nil_grows (xs : list MiddlewareFunc) (h : Heap) :
  xs <> [] ->
  routing.appendTo growslice routing.nilSlice xs h
  = (routing.mkSlice (Some (List.length h)) (List.length xs)
       (Nat.max (List.length xs) (growslice 0 (List.length xs))),
     (h ++ [xs])%list).
Proof. destruct xs as [|x xs]; [congruence|]. reflexivity. Qed.

Lemma appendTo_spare (s : routing.Slice) (xs : list MiddlewareFunc) (h : Heap)
  (p : nat) :
  xs <> [] -> routing.base s = Some p ->
  routing.len s + List.length xs <= routing.cap s ->
  routing.appendTo growslice s xs h
  = (routing.mkSlice (Some p) (routing.len s + List.length xs) (routing.cap s),
     update p (fun a => (firstn (routing.len s) a ++ xs
                         ++ skipn (routing.len s + List.length xs) a)%list) h).
Proof.
  intros Hxs Hb Hcap. destruct xs as [|x xs]; [congruence|].
  unfold routing.appendTo. rewrite Hb.
  apply Nat.leb_le in Hcap. now rewrite Hcap.
Qed.

(** X19: two subgroups with middlewares of their own under a group with
    middlewares, flattened as [Handler] does it: when the array the runtime
    allocates for the middlewares of the group has room for those of a
    subgroup, the second subgroup writes its middlewares over those of the
    first, and the routes of both run behind the middlewares of the
    second. *)
Theorem sibling_subgroups_share_the_array
  (parentPrefix p p1 p2 : string) (P A B : list MiddlewareFunc)
  (direct : list Route) (r1 r2 : Route) (h : Heap) :
  P <> [] -> A <> [] -> List.length B = List.length A ->
  List.length P + List.length A <= growslice 0 (List.length P) ->
  routing.builderRoutes (routing.twoSubgroups p P direct p1 A r1 p2 B r2) = true ->
  routing.middlewaresIn
    (snd (routing.flatten growslice
            (routing.twoSubgroups p P direct p1 A r1 p2 B r2)
            parentPrefix routing.nilSlice h))
    (fst (routing.flatten growslice
            (routing.twoSubgroups p P direct p1 A r1 p2 B r2)
            parentPrefix routing.nilSlice h))
  = (map (fun _ => P) direct ++ [P ++ B; P ++ B])%list
  /\ routing.intended (routing.twoSubgroups p P direct p1 A r1 p2 B r2) []
     = (map (fun _ => P) direct ++ [P ++ A; P ++ B])%list.
Proof.
  intros HP HA HAB Hroom Hb. split.
  2:{ cbn [routing.intended routing.twoSubgroups flat_map map List.app].
      reflexivity. }
  unfold routing.twoSubgroups in *.
  cbn [routing.builderRoutes forallb] in Hb.
  rewrite !andb_true_r in Hb. apply andb_prop in Hb as [Hd Hb].
  apply andb_prop in Hb as [Hr1 Hr2].
  rewrite flatten_unfold. cbv zeta.
  assert (Hnil : routing.valid routing.nilSlice h) by reflexivity.
  destruct (appendTo_grown routing.nilSlice P h Hnil) as [_ [Hv1 [He1 _]]].
  rewrite (appendTo_nil_grows P h HP).
  cbn [routing.nilSlice routing.len routing.cap Nat.add] in Hv1, He1.
  change (routing.elems routing.nilSlice h) with (@nil MiddlewareFunc) in Hv1, He1.
  unfold append in Hv1, He1. cbn [List.app] in Hv1, He1.
  set (allMw := routing.mkSlice (Some (List.length h)) (List.length P)
                  (Nat.max (List.length P) (growslice 0 (List.length P)))) in *.
  set (h1 := (h ++ [P])%list) in *.
  rewrite flattenRoutes_builder by exact Hd.
  cbn [routing.flattenGroups].
  (* the first subgroup *)
  rewrite flatten_unfold. cbv zeta.
  assert (HcapA : routing.len allMw + List.length A <= routing.cap allMw).
  { unfold allMw. cbn [routing.len routing.cap]. lia. }
  assert (HcapB : routing.len allMw + List.length B <= routing.cap allMw).
  { rewrite HAB. exact HcapA. }
  destruct (appendTo_in_place allMw A h1 (List.length h) Hv1 eq_refl)
    as [Hk1 _].
  rewrite (appendTo_spare allMw A h1 (List.length h) HA eq_refl HcapA).
  set (h2 := update (List.length h) _ h1) in *.
  rewrite flattenRoutes_builder by (cbn [forallb]; now rewrite Hr1).
  cbn [routing.flattenGroups map].
  (* the second subgroup *)
  rewrite flatten_unfold. cbv zeta.
  assert (HB : B <> []).
  { intros ->. destruct A; [congruence|discriminate]. }
  assert (Hv2 : routing.valid allMw h2) by exact (keeps_valid _ _ _ Hv1 Hk1).
  destruct (appendTo_in_place allMw B h2 (List.length h) Hv2 eq_refl)
    as [Hk2 [_ [He3 _]]].
  rewrite (appendTo_spare allMw B h2 (List.length h) HB eq_refl HcapB).
  set (h3 := update (List.length h) _ h2) in *.
  rewrite flattenRoutes_builder by (cbn [forallb]; now rewrite Hr2).
  cbn [routing.flattenGroups map fst snd].
  assert (HeP2 : routing.elems allMw h2 = P).
  { now rewrite (keeps_elems _ _ _ Hv1 Hk1). }
  assert (HeP3 : routing.elems allMw h3 = P).
  { now rewrite (keeps_elems _ _ _ Hv2 Hk2). }
  rewrite HeP2 in He3.
  rewrite !middlewaresIn_app, middlewaresIn_direct, HeP3.
  unfold routing.middlewaresIn. cbn [map routing.middlewares].
  rewrite <- HAB, He3. now rewrite <- app_assoc.
Qed.

(** ** [Handler]: what is registered *)

Lemma combine_map_map {A B C : Type} (f : A -> B) (g : A -> C) (l : list A) :
  combine (map f l) (map g l) = map (fun x => (f x, g x)) l.
Proof. induction l as [|x l IH]; [reflexivity|]. simpl. now rewrite IH. Qed.

Lemma combine_app_same {A B : Type} (l1 l2 : list A) (m1 m2 : list B) :
  List.length l1 = List.length m1 ->
  combine (l1 ++ l2)%list (m1 ++ m2)%list
  = (combine l1 m1 ++ combine l2 m2)%list.
Proof.
  revert m1. induction l1 as [|x l1 IH]; intros [|y m1] Hl; try discriminate.
  - reflexivity.
  - simpl. rewrite IH; [reflexivity|]. simpl in Hl. lia.
Qed.

Lemma intended_length (g : RouteGroup) :
  forall above,
    List.length (routing.intended g above) = List.length (routing.paths g).
Proof.
  induction g as [p mws routes groups IH] using RouteGroup_induction.
  intros above. cbn [routing.intended routing.paths].
  rewrite !length_app, !length_map. f_equal.
  induction IH as [|sub rest Hsub _ IHrest]; [reflexivity|].
  cbn [flat_map]. now rewrite !length_app, length_map, Hsub, IHrest.
Qed.

(** The pattern and the handler registered for a route with its
    middlewares. *)
Definition entry (globals : list MiddlewareFunc)
  (e : string * string * HandlerFunc * list MiddlewareFunc)
  : string * HandlerFunc :=
  (fst (fst (fst e)) ++ " " ++ snd (fst (fst e)),
   routing.wrap (globals ++ snd e)%list (snd (fst e))).

Lemma under_under (pre p : string) (l : list (string * string * HandlerFunc)) :
  map (routing.under pre) (map (routing.under p) l)
  = map (routing.under (pre ++ p)) l.
Proof.
  rewrite map_map. apply map_ext. intros [[m q] hd]. unfold routing.under.
  simpl. now rewrite string_append_assoc.
Qed.

Lemma served_entries (globals : list MiddlewareFunc) (g : RouteGroup) :
  forall pre above,
    routing.served g pre (globals ++ above)%list
    = map (entry globals)
          (combine (map (routing.under pre) (routing.paths g))
                   (routing.intended g above)).
Proof.
  induction g as [p mws routes groups IH] using RouteGroup_induction.
  intros pre above.
  cbn [routing.served routing.paths routing.intended].
  rewrite map_app, combine_app_same by (now rewrite !length_map).
  rewrite map_app. f_equal.
  - rewrite map_map, combine_map_map, map_map. apply map_ext. intros r.
    unfold entry, routing.under. cbn [fst snd].
    now rewrite string_append_assoc, app_assoc.
  - change (fun e : string * string * HandlerFunc =>
              (fst (fst e), p ++ snd (fst e), snd e))
      with (@routing.under HandlerFunc p).
    induction IH as [|sub rest Hsub _ IHrest]; [reflexivity|].
    cbn [flat_map]. rewrite (map_app (routing.under pre)).
    rewrite combine_app_same by (now rewrite !length_map, intended_length).
    rewrite map_app, <- IHrest. f_equal.
    rewrite under_under, <- Hsub. now rewrite app_assoc.
Qed.

Lemma handle_wrap (r : Route) (h : Heap) :
  routing.handle r h
  = routing.wrap (routing.elems (routing.middlewares r) h) (routing.handler r).
Proof.
  unfold routing.handle, routing.wrap. cbv zeta.
  rewrite applyReverse_firstn by lia. now rewrite firstn_all.
Qed.

Lemma registered_entries (globals : list MiddlewareFunc) (h : Heap)
  (rs : list Route) :
  map (fun route =>
         (routing.method route ++ " " ++ routing.pattern route,
          routing.applyReverse globals (List.length globals)
            (routing.handle route h))) rs
  = map (entry globals)
        (combine (map routing.routeKey rs) (routing.middlewaresIn h rs)).
Proof.
  unfold routing.middlewaresIn. rewrite combine_map_map, map_map.
  apply map_ext. intros r. unfold entry, routing.routeKey. cbn [fst snd].
  f_equal. rewrite applyReverse_firstn by lia. rewrite firstn_all, handle_wrap.
  unfold routing.wrap. now rewrite fold_right_app.
Qed.

Lemma inRange_mono (s : routing.Slice) (h h' : Heap) :
  routing.inRange s h -> List.length h <= List.length h' -> routing.inRange s h'.
Proof.
  unfold routing.inRange. destruct (routing.base s); [lia|trivial].
Qed.

Lemma appendTo_inRange (s : routing.Slice) (xs : list MiddlewareFunc) (h : Heap) :
  routing.inRange s h ->
  List.length h <= List.length (snd (routing.appendTo growslice s xs h))
  /\ routing.inRange (fst (routing.appendTo growslice s xs h))
                     (snd (routing.appendTo growslice s xs h)).
Proof.
  intros Hr. destruct xs as [|x xs]; [split; [simpl; lia|exact Hr]|].
  assert (Hgrown :
    forall c,
      List.length h
      <= List.length (append h (routing.elems s h ++ x :: xs)%list)
      /\ routing.inRange
           (routing.mkSlice (Some (List.length h))
              (routing.len s + List.length (x :: xs)) c)
           (append h (routing.elems s h ++ x :: xs)%list)).
  { intros c. unfold append, routing.inRange. cbn [routing.base].
    rewrite length_app. simpl. lia. }
  unfold routing.appendTo, routing.inRange in *.
  destruct (routing.base s) as [p|] eqn:Hb; [|apply Hgrown].
  destruct (routing.len s + List.length (x :: xs) <=? routing.cap s)%nat;
    [|apply Hgrown].
  cbn [fst snd routing.base]. rewrite update_length. split; [lia|exact Hr].
Qed.

(** The routes [flatten] returns have their middlewares in the heap it
    leaves, which has every array of the heap it found. *)
Definition staysInRange (g : RouteGroup) : Prop :=
  routing.builderRoutes g = true ->
  forall pp pm h,
    routing.inRange pm h ->
    List.length h <= List.length (snd (routing.flatten growslice g pp pm h))
    /\ Forall (fun r => routing.inRange (routing.middlewares r)
                          (snd (routing.flatten growslice g pp pm h)))
              (fst (routing.flatten growslice g pp pm h)).

Lemma Forall_inRange_mono (rs : list Route) (h h' : Heap) :
  List.length h <= List.length h' ->
  Forall (fun r => routing.inRange (routing.middlewares r) h) rs ->
  Forall (fun r => routing.inRange (routing.middlewares r) h') rs.
Proof.
  intros Hl. apply Forall_impl. intros r Hr. now apply (inRange_mono _ h).
Qed.

Lemma flattenGroups_stayInRange (full : string) (allMw : routing.Slice)
  (gs : list RouteGroup) :
  Forall staysInRange gs ->
  forallb routing.builderRoutes gs = true ->
  forall res h,
    routing.inRange allMw h ->
    Forall (fun r => routing.inRange (routing.middlewares r) h) res ->
    List.length h
    <= List.length (snd (routing.flattenGroups growslice gs full allMw res h))
    /\ Forall (fun r => routing.inRange (routing.middlewares r)
                          (snd (routing.flattenGroups growslice gs full allMw res h)))
              (fst (routing.flattenGroups growslice gs full allMw res h)).
Proof.
  induction gs as [|sub rest IH]; intros Hall Hb res h Hr Hres.
  - split; [simpl; lia|exact Hres].
  - inversion Hall as [|? ? Hsub Hrest]; subst.
    cbn [forallb] in Hb. apply andb_prop in Hb as [Hb1 Hb2].
    cbn [routing.flattenGroups].
    destruct (Hsub Hb1 full allMw h Hr) as [Hl Hnew].
    destruct (routing.flatten growslice sub full allMw h) as [rs h1].
    cbn [fst snd] in Hl, Hnew.
    destruct (IH Hrest Hb2 (res ++ rs)%list h1 (inRange_mono _ _ _ Hr Hl))
      as [Hl' Hall'].
    { apply Forall_app. split; [|exact Hnew].
      now apply (Forall_inRange_mono res h). }
    split; [lia|exact Hall'].
Qed.

Lemma flatten_staysInRange (g : RouteGroup) : staysInRange g.
Proof.
  induction g as [p mws routes groups IH] using RouteGroup_induction.
  intros Hb pp pm h Hr.
  cbn [routing.builderRoutes] in Hb. apply andb_prop in Hb as [Hb1 Hb2].
  rewrite flatten_unfold. cbv zeta.
  destruct (appendTo_inRange pm mws h Hr) as [Hl1 Hr1].
  destruct (routing.appendTo growslice pm mws h) as [allMw h1].
  cbn [fst snd] in Hl1, Hr1.
  rewrite flattenRoutes_builder by exact Hb1.
  destruct (flattenGroups_stayInRange (pp ++ p) allMw groups IH Hb2
              (map (fun r => routing.mkRoute (routing.method r)
                               ((pp ++ p) ++ routing.pattern r)
                               (routing.handler r) allMw) routes) h1 Hr1)
    as [Hl Hall].
  { apply Forall_forall. intros r Hin. apply in_map_iff in Hin as [r0 [<- _]].
    exact Hr1. }
  split; [lia|exact Hall].
Qed.

Lemma middlewaresIn_kept (h h' : Heap) (rs : list Route) :
  keeps routing.nilSlice h h' ->
  Forall (fun r => routing.inRange (routing.middlewares r) h) rs ->
  routing.middlewaresIn h' rs = routing.middlewaresIn h rs.
Proof.
  intros [_ Hk] Hall. unfold routing.middlewaresIn. apply map_ext_in.
  intros r Hin. rewrite Forall_forall in Hall. specialize (Hall r Hin).
  unfold routing.inRange in Hall. unfold routing.elems.
  destruct (routing.base (routing.middlewares r)) as [p|]; [|reflexivity].
  destruct (Hk p Hall) as [_ Hother]. rewrite Hother; [reflexivity|].
  discriminate.
Qed.

Lemma under_empty (l : list (string * string * HandlerFunc)) :
  map (routing.under "") l = l.
Proof.
  rewrite <- (map_id l) at 2. apply map_ext. now intros [[m q] hd].
Qed.

Lemma app_same_length {A : Type} (l1 l2 m1 m2 : list A) :
  List.length l1 = List.length m1 ->
  (l1 ++ l2)%list = (m1 ++ m2)%list -> l1 = m1 /\ l2 = m2.
Proof.
  revert m1. induction l1 as [|x l1 IH]; intros [|y m1] Hl E; try discriminate.
  - now split.
  - simpl in E, Hl. injection E as -> E. injection Hl as Hl.
    destruct (IH m1 Hl E) as [-> ->]. now split.
Qed.

Lemma collect_reads (gs : list RouteGroup) :
  forallb routing.singleWriter gs = true ->
  forallb routing.builderRoutes gs = true ->
  forall acc h,
    Forall (fun r => routing.inRange (routing.middlewares r) h) acc ->
    exists new h',
      fold_left
        (fun acc group =>
           let (allRoutes, h) := acc : list Route * Heap in
           let (sub, h) := routing.flatten growslice group "" routing.nilSlice h in
           ((allRoutes ++ sub)%list, h))
        gs (acc, h)
      = ((acc ++ new)%list, h')
      /\ routing.middlewaresIn h' acc = routing.middlewaresIn h acc
      /\ routing.middlewaresIn h' new
         = flat_map (fun g => routing.intended g []) gs
      /\ map routing.routeKey new = flat_map (@routing.paths HandlerFunc) gs.
Proof.
  induction gs as [|g rest IH]; intros Hs Hb acc h Hacc.
  - exists [], h. cbn [fold_left]. rewrite app_nil_r. repeat split.
  - cbn [forallb] in Hs, Hb.
    apply andb_prop in Hs as [Hs1 Hs2]. apply andb_prop in Hb as [Hb1 Hb2].
    cbn [fold_left].
    assert (Hnil : routing.valid routing.nilSlice h) by reflexivity.
    destruct (flatten_readsIntended g Hs1 Hb1 "" routing.nilSlice h Hnil)
      as [Hk Hrd].
    destruct (flatten_staysInRange g Hb1 "" routing.nilSlice h I) as [Hl Hin].
    pose proof (flatten_keys g "" routing.nilSlice h) as Hkeys.
    destruct (routing.flatten growslice g "" routing.nilSlice h) as [sub h1].
    cbn [fst snd] in Hk, Hrd, Hl, Hin, Hkeys.
    destruct (IH Hs2 Hb2 (acc ++ sub)%list h1) as [new [h' [Hfold [Hold [Hnew Hk']]]]].
    { apply Forall_app. split; [|exact Hin].
      now apply (Forall_inRange_mono acc h). }
    exists (sub ++ new)%list, h'. rewrite Hfold, <- app_assoc.
    rewrite !middlewaresIn_app in Hold.
    apply app_same_length in Hold as [Hold1 Hold2];
      [|unfold routing.middlewaresIn; now rewrite !length_map].
    split; [reflexivity|]. split; [|split].
    + rewrite Hold1. now apply middlewaresIn_kept.
    + rewrite middlewaresIn_app, Hold2, Hrd, Hnew. reflexivity.
    + rewrite map_app, Hkeys, Hk', under_empty. reflexivity.
Qed.

Lemma served_groups (globals : list MiddlewareFunc) (gs : list RouteGroup) :
  map (entry globals)
      (combine (flat_map (@routing.paths HandlerFunc) gs)
               (flat_map (fun g => routing.intended g []) gs))
  = flat_map (fun g => routing.served g "" globals) gs.
Proof.
  induction gs as [|g rest IH]; [reflexivity|].
  cbn [flat_map].
  rewrite combine_app_same by (now rewrite intended_length).
  rewrite map_app, IH. f_equal.
  rewrite <- (app_nil_r globals) at 2.
  now rewrite served_entries, under_empty.
Qed.

Lemma register_entries {Mux : Type}
  (HandleFunc : string -> HandlerFunc -> Mux -> option Mux)
  (globals : list MiddlewareFunc) (h : Heap) (rs : list Route) :
  forall mux,
    routing.register HandleFunc globals h rs mux
    = routing.registerAll HandleFunc
        (map (fun route =>
                (routing.method route ++ " " ++ routing.pattern route,
                 routing.applyReverse globals (List.length globals)
                   (routing.handle route h))) rs)
        mux.
Proof.
  induction rs as [|r rs IH]; intros mux; [reflexivity|].
  cbn [routing.register routing.registerAll map]. cbv zeta.
  destruct (HandleFunc _ _ mux) as [mux'|]; [apply IH|reflexivity].
Qed.

(** X20: when the routes come from the builders and, at every level of the
    nesting of each group, at most one subgroup has middlewares in it,
    [Handler] calls [mux.HandleFunc] on a new multiplexer for the routes of
    the application and then for those of each group, in this order: each
    with its method, a space and its pattern behind the prefixes of the
    groups around it, and with its handler behind the middlewares of the
    application and then those of the groups around it, the outermost
    first.  At the first of these calls that panics [Handler] panics and the
    calls after it are not made; when none panics it returns the
    multiplexer they have made.  The heap it starts from and the capacities
    the runtime chooses make no difference. *)
Theorem Handler_registers_what_the_groups_serve
  {Mux : Type} (NewServeMux : Mux)
  (HandleFunc : string -> HandlerFunc -> Mux -> option Mux)
  (a : @routing.NetHTTPApp HandlerFunc) (h : Heap) :
  forallb (fun r => routing.isNil (routing.middlewares r))
          (routing.appRoutes a) = true ->
  forallb routing.singleWriter (routing.appGroups a) = true ->
  forallb routing.builderRoutes (routing.appGroups a) = true ->
  routing.Handler growslice NewServeMux HandleFunc a h
  = routing.registerAll HandleFunc
      (List.app
         (map (fun r => (routing.method r ++ " " ++ routing.pattern r,
                         routing.wrap (routing.appMiddlewares a)
                                      (routing.handler r)))
              (routing.appRoutes a))
         (flat_map (fun g => routing.served g "" (routing.appMiddlewares a))
                   (routing.appGroups a)))
      NewServeMux.
Proof.
  intros Hnil Hs Hb. unfold routing.Handler, routing.collect.
  assert (Hacc : Forall (fun r => routing.inRange (routing.middlewares r) h)
                        (routing.appRoutes a)).
  { apply Forall_forall. intros r Hin.
    rewrite forallb_forall in Hnil. specialize (Hnil r Hin).
    unfold routing.isNil in Hnil. unfold routing.inRange.
    now destruct (routing.base (routing.middlewares r)). }
  destruct (collect_reads (routing.appGroups a) Hs Hb (routing.appRoutes a)
              h Hacc) as [new [h' [Hfold [_ [Hnew Hkeys]]]]].
  rewrite Hfold, register_entries, map_app. f_equal. f_equal.
  - apply map_ext_in. intros r Hin.
    rewrite forallb_forall in Hnil. specialize (Hnil r Hin).
    rewrite applyReverse_firstn by lia. rewrite firstn_all, handle_wrap.
    unfold routing.elems. unfold routing.isNil in Hnil.
    destruct (routing.base (routing.middlewares r)); [discriminate|].
    reflexivity.
  - rewrite registered_entries, Hnew, Hkeys. apply served_groups.
Qed.

(** ** [Group] and [Routes]: the arguments by kind *)

Lemma Group_from (p : string) (items : list (@routing.Item HandlerFunc)) :
  forall (mws : list MiddlewareFunc) (rs : list Route) (gs : list RouteGroup),
    fold_left
      (fun group item =>
         match group with
         | routing.mkRouteGroup p mws routes groups =>
             match item with
             | routing.ItemRoute v =>
                 routing.mkRouteGroup p mws (append routes v) groups
             | routing.ItemGroup v =>
                 routing.mkRouteGroup p mws routes (append groups v)
             | routing.ItemMiddlewares v =>
                 routing.mkRouteGroup p (mws ++ v)%list routes groups
             | routing.ItemMiddleware v =>
                 routing.mkRouteGroup p (append mws v) routes groups
             | routing.ItemOther => group
             end
         end)
      items (routing.mkRouteGroup p mws rs gs)
    = routing.mkRouteGroup p
        (mws ++ routing.itemMiddlewares items)%list
        (rs ++ routing.itemRoutes items)%list
        (gs ++ routing.itemGroups items)%list.
Proof.
  induction items as [|item items IH]; intros mws rs gs.
  - simpl. now rewrite !app_nil_r.
  - cbn [fold_left]. unfold routing.itemMiddlewares, routing.itemRoutes,
      routing.itemGroups in *. cbn [flat_map].
    destruct item; rewrite IH; unfold append; cbn [List.app];
      now rewrite <- ?app_assoc.
Qed.

(** X21: [Group] sorts its arguments by kind: the group has the given
    prefix, the middlewares among the arguments (single ones and slices, in
    the order given), the routes in the order given and the groups in the
    order given; where a middleware stands among the routes and groups makes
    no difference, and an argument of any other type is dropped without an
    error. *)
Theorem Group_sorts_arguments_by_kind
  (p : string) (items : list (@routing.Item HandlerFunc)) :
  routing.Group p items
  = routing.mkRouteGroup p (routing.itemMiddlewares items)
      (routing.itemRoutes items) (routing.itemGroups items).
Proof. unfold routing.Group. now rewrite Group_from. Qed.

(** X22: [Routes] adds the routes and the groups among its arguments behind
    those the application has, in the order given, and nothing else: a
    middleware passed to [Routes] is dropped, and the middlewares of the
    application stay what they were. *)
Theorem Routes_takes_routes_and_groups_only
  (items : list (@routing.Item HandlerFunc))
  (a : @routing.NetHTTPApp HandlerFunc) :
  routing.Routes items a
  = routing.mkApp (routing.appRoutes a ++ routing.itemRoutes items)%list
                  (routing.appGroups a ++ routing.itemGroups items)%list
                  (routing.appMiddlewares a).
Proof.
  unfold routing.Routes. revert a.
  induction items as [|item items IH]; intros a.
  - simpl. rewrite !app_nil_r. now destruct a.
  - cbn [fold_left]. unfold routing.itemRoutes, routing.itemGroups in *.
    cbn [flat_map].
    destruct item; rewrite IH; unfold append;
      cbn [List.app routing.appRoutes routing.appGroups routing.appMiddlewares];
      now rewrite <- ?app_assoc.
Qed.

End RoutingProperties.

(** ** The routing properties on the example application *)

Lemma flatten_middlewares_with_one_writing_subgroup_witness :
  routing.middlewaresIn
    (snd (routing.flatten exampleGrowth exampleApi "" routing.nilSlice []))
    (fst (routing.flatten exampleGrowth exampleApi "" routing.nilSlice []))
  = routing.intended exampleApi (routing.elems routing.nilSlice [])
  /\ routing.elems routing.nilSlice
       (snd (routing.flatten exampleGrowth exampleApi "" routing.nilSlice []))
     = routing.elems routing.nilSlice [].
Proof.
  apply (flatten_middlewares_with_one_writing_subgroup exampleGrowth exampleApi
           "" routing.nilSlice []); reflexivity.
Defined.

Lemma sibling_subgroups_share_the_array_witness :
  routing.middlewaresIn
    (snd (routing.flatten exampleGrowth
            (routing.twoSubgroups "/api" [S] [routing.GET "/ping" 0]
               "/v1" [Nat.add 10] (routing.GET "/users" 1)
               "/v2" [Nat.add 20] (routing.GET "/users" 2))
            "" routing.nilSlice []))
    (fst (routing.flatten exampleGrowth
            (routing.twoSubgroups "/api" [S] [routing.GET "/ping" 0]
               "/v1" [Nat.add 10] (routing.GET "/users" 1)
               "/v2" [Nat.add 20] (routing.GET "/users" 2))
            "" routing.nilSlice []))
  = (map (fun _ => [S]) [routing.GET "/ping" 0]
     ++ [[S] ++ [Nat.add 20]; [S] ++ [Nat.add 20]])%list
  /\ routing.intended
       (routing.twoSubgroups "/api" [S] [routing.GET "/ping" 0]
          "/v1" [Nat.add 10] (routing.GET "/users" 1)
          "/v2" [Nat.add 20] (routing.GET "/users" 2)) []
     = (map (fun _ => [S]) [routing.GET "/ping" 0]
        ++ [[S] ++ [Nat.add 10]; [S] ++ [Nat.add 20]])%list.
Proof.
  apply (sibling_subgroups_share_the_array exampleGrowth "" "/api" "/v1" "/v2"
           [S] [Nat.add 10] [Nat.add 20] [routing.GET "/ping" 0]
           (routing.GET "/users" 1) (routing.GET "/users" 2) []);
    (discriminate || reflexivity || (simpl; lia)).
Defined.

Lemma Handler_registers_what_the_groups_serve_witness :
  (routing.Handler exampleGrowth [] exampleHandleFunc exampleApp []
   = routing.registerAll exampleHandleFunc
       (List.app
          (map (fun r => (routing.method r ++ " " ++ routing.pattern r,
                          routing.wrap (routing.appMiddlewares exampleApp)
                                       (routing.handler r)))
               (routing.appRoutes exampleApp))
          (flat_map (fun g => routing.served g "" (routing.appMiddlewares exampleApp))
                    (routing.appGroups exampleApp)))
       []
   /\ routing.Handler exampleGrowth [] exampleHandleFunc exampleApp []
      = routing.Returns
          ["GET /health"; "GET /api/ping"; "POST /api/v1/users";
           "GET /api/static/logo"])
  /\ (routing.Handler exampleGrowth [] exampleHandleFunc doubledApp []
      = routing.registerAll exampleHandleFunc
          (List.app
             (map (fun r => (routing.method r ++ " " ++ routing.pattern r,
                             routing.wrap (routing.appMiddlewares doubledApp)
                                          (routing.handler r)))
                  (routing.appRoutes doubledApp))
             (flat_map (fun g => routing.served g "" (routing.appMiddlewares doubledApp))
                       (routing.appGroups doubledApp)))
          []
      /\ routing.Handler exampleGrowth [] exampleHandleFunc doubledApp []
         = routing.Panics ["GET /a"]).
Proof.
  split; (split; [|reflexivity]).
  - apply (Handler_registers_what_the_groups_serve exampleGrowth []
             exampleHandleFunc exampleApp []); reflexivity.
  - apply (Handler_registers_what_the_groups_serve exampleGrowth []
             exampleHandleFunc doubledApp []); reflexivity.
Defined.
